(** * MonadRush: the deterministic game core

    A shallow embedding of the scoring state machine
    ([src/lib/game-logic.ts]), the physics layer and spawn manager
    ([src/lib/physics.ts]), the random generator ([src/lib/rng.ts]), the
    object pool ([src/lib/object-pool.ts]), the server replay
    ([api/session/finish]), the tap resolution of [handleTap] and the two
    state-hash functions ([src/lib/game-state.ts], [src/lib/anti-cheat.ts]).

    Numbers.  A JavaScript [number] is modelled by a rational [Q]: every
    quantity the scoring rules produce is a small dyadic rational (combo is a
    multiple of 0.5, points a multiple of 5), on which binary64 arithmetic is
    exact.  NaN, infinities and rounding of large magnitudes are outside the
    model.  Equality of numbers is [Qeq] ([==]).  32-bit integer operators
    ([<<], [>>>], [^], [&]) are written out on [Z] with their wrap-around.

    Effects.  [Date.now()] and [Math.random()] are the only inputs the core
    reads from its environment; they are modelled by a [World] of successive
    readings threaded through a small state monad. *)

From Stdlib Require Import ZArith QArith Qround Qminmax Qpower Qabs.
From Stdlib Require Import List String Ascii DecimalString Bool Lia Lqa.
Import ListNotations.
Local Open Scope Q_scope.

(** ** JavaScript primitives *)

Module JS.

Definition number := Q.

(** Comparison operators on numbers, as booleans. *)
Definition le (a b : Q) : bool := Qle_bool a b.
Definition lt (a b : Q) : bool := negb (Qle_bool b a).
Definition ge (a b : Q) : bool := Qle_bool b a.
Definition gt (a b : Q) : bool := negb (Qle_bool a b).

Definition Math_floor (x : Q) : Q := inject_Z (Qfloor x).
Definition Math_max (a b : Q) : Q := Qmax a b.
Definition Math_min (a b : Q) : Q := Qmin a b.
(** [Math.round] rounds half-way cases up. *)
Definition Math_round (x : Q) : Q := inject_Z (Qfloor (x + (1#2))).
(** [Math.pow] at an integral exponent. *)
Definition Math_pow (b : Q) (e : Z) : Q := Qpower b e.

(** [v || d] on an optional number: [undefined] and [0] both give [d]
    when [d] is [0]. *)
Definition or_zero (v : option Q) : Q :=
  match v with Some x => x | None => 0 end.

(** [s || d] on an optional string: [undefined] and the empty string are
    falsy. *)
Definition or_string (s : option string) (d : string) : string :=
  match s with
  | None => d
  | Some EmptyString => d
  | Some x => x
  end.

(** ToInt32 and ToUint32 of an integer. *)
Definition two32 : Z := 4294967296.
Definition ToUint32 (z : Z) : Z := (z mod two32)%Z.
Definition ToInt32 (z : Z) : Z :=
  let u := (z mod two32)%Z in
  if (u <? 2147483648)%Z then u else (u - two32)%Z.

(** Truncation toward zero, the first step of ToInt32 on a number. *)
Definition trunc (q : Q) : Z :=
  if Qle_bool 0 q then Qfloor q else Qceiling q.

(** [a << n], [a >>> n], [a ^ b], [a & b]. *)
Definition shl (a : Z) (n : Z) : Z := ToInt32 (Z.shiftl (ToInt32 a) n).
Definition ushr (a : Z) (n : Z) : Z := Z.shiftr (ToUint32 a) n.
Definition xor (a b : Z) : Z := ToInt32 (Z.lxor (ToInt32 a) (ToInt32 b)).
Definition and (a b : Z) : Z := ToInt32 (Z.land (ToInt32 a) (ToInt32 b)).

(** [s.charCodeAt(i)] for every [i], in order. *)
Definition charCodes (s : string) : list Z :=
  map (fun c => Z.of_nat (nat_of_ascii c)) (list_ascii_of_string s).

(** [String(n)] for an integer, and for a number with a short decimal
    expansion: sign, integer part, then the fraction digit by digit.
    (Exponent notation, used beyond 1e21 and below 1e-6, is outside the
    model.) *)
Definition integer_toString (z : Z) : string :=
  DecimalString.NilZero.string_of_int (Z.to_int z).

Definition digit_char (k : Z) : ascii := ascii_of_nat (48 + Z.to_nat k).

Fixpoint fraction_digits (fuel : nat) (rem d : Z) : string :=
  match fuel with
  | O => EmptyString
  | S fuel' =>
      if (rem =? 0)%Z then EmptyString
      else String (digit_char (rem * 10 / d))
                  (fraction_digits fuel' ((rem * 10) mod d) d)
  end.

Definition toString (q : Q) : string :=
  let d := Zpos (Qden q) in
  let a := Z.abs (Qnum q) in
  let body :=
    if (a mod d =? 0)%Z then integer_toString (a / d)
    else (integer_toString (a / d) ++ "." ++
          fraction_digits 20 (a mod d) d)%string in
  if (Qnum q <? 0)%Z then String "-" body else body.

End JS.

(** ** State passing

    Code that reads or writes mutable state is a function from the state
    before to a result and the state after. *)

Definition State (S A : Type) : Type := S -> A * S.

Definition ret {S A} (a : A) : State S A := fun s => (a, s).

Definition bind {S A B} (m : State S A) (f : A -> State S B) : State S B :=
  fun s => let (a, s') := m s in f a s'.

Notation "x <- m ;; k" := (bind m (fun x => k))
  (at level 61, m at next level, right associativity).

Definition eval {S A} (m : State S A) (s : S) : A := fst (m s).

(** ** The environment: wall clock and random source *)

Record World := mkWorld {
  wall_clock : nat -> Q;        (* successive results of Date.now() *)
  random_src : nat -> string    (* successive Math.random().toString(36).substr(2, 9) *)
}.

Definition M : Type -> Type := State World.

Definition Date_now : M Q :=
  fun w => (wall_clock w 0%nat,
            mkWorld (fun n => wall_clock w (S n)) (random_src w)).

Definition Math_random_id : M string :=
  fun w => (random_src w 0%nat,
            mkWorld (wall_clock w) (fun n => random_src w (S n))).

(** ** Scoring and effect state machine (game-logic.ts) *)

Module GameLogic.

Record Difficulty := mkDifficulty {
  level : Q;
  fallSpeed : Q;
  spawnRate : Q
}.

Record ActiveEffect := mkEffect {
  eff_type : string;
  duration : Q;
  value : option Q;
  startTime : Q
}.

Record GameState := mkGameState {
  score : Q;
  lives : Q;
  timeLeft : Q;
  combo : Q;
  streak : Q;
  gameStartTime : Q;
  difficulty : Difficulty;
  activeEffects : list ActiveEffect
}.

Inductive TapType := logo | glitch | gift | bomb | miss.

Record TapResult := mkTapResult {
  res_type : TapType;
  points : Q;
  newCombo : Q;
  newStreak : Q;
  livesLost : Q;
  effect : option ActiveEffect
}.

(** GAME_CONFIG *)
Definition INITIAL_LIVES : Q := 5.
Definition GAME_DURATION : Q := 120.
Definition BASE_POINTS : Q := 10.
Definition MAX_COMBO : Q := 5.
Definition COMBO_INCREMENT : Q := 0.5.
Definition STREAK_FOR_COMBO : Q := 5.
Definition DIFFICULTY_RAMP_INTERVAL : Q := 30.
Definition BASE_FALL_SPEED : Q := 100.
Definition BASE_SPAWN_RATE : Q := 1.5.
Definition SPEED_INCREASE_FACTOR : Q := 1.3.
Definition SPAWN_INCREASE_FACTOR : Q := 1.2.

Definition createInitialGameState : M GameState :=
  now <- Date_now ;;
  ret {| score := 0;
         lives := INITIAL_LIVES;
         timeLeft := GAME_DURATION;
         combo := 1;
         streak := 0;
         gameStartTime := now;
         difficulty := {| level := 0;
                          fallSpeed := BASE_FALL_SPEED;
                          spawnRate := BASE_SPAWN_RATE |};
         activeEffects := [] |}.

Definition calculatePoints (combo : Q) (hasGoldenEffect : bool) : Q :=
  let basePoints := BASE_POINTS * combo in
  if hasGoldenEffect then basePoints * 3 else basePoints.

Definition updateCombo (streak : Q) : Q :=
  let comboLevel := JS.Math_floor (streak / STREAK_FOR_COMBO) in
  let newCombo := 1 + comboLevel * COMBO_INCREMENT in
  JS.Math_min newCombo MAX_COMBO.

Definition is_type (name : string) (e : ActiveEffect) : bool :=
  String.eqb (eff_type e) name.

Definition createMagicCardEffect (cardType : string) : M ActiveEffect :=
  now <- Date_now ;;
  ret (if String.eqb cardType "time-freeze" then
         mkEffect "time-freeze" 5000 None now
       else if String.eqb cardType "slow-motion" then
         mkEffect "slow-motion" 7000 (Some 0.5) now
       else if String.eqb cardType "golden-monad" then
         mkEffect "golden-monad" 0 None now
       else if String.eqb cardType "extra-time" then
         mkEffect "extra-time" 0 (Some 10) now
       else if String.eqb cardType "logo-highlight" then
         mkEffect "logo-highlight" 5000 None now
       else if String.eqb cardType "bomb-trap" then
         mkEffect "bomb-trap" 0 (Some (-20)) now
       else if String.eqb cardType "shrink-ray" then
         mkEffect "shrink-ray" 4000 (Some 0.5) now
       else if String.eqb cardType "monad-swarm" then
         mkEffect "monad-swarm" 3000 None now
       else if String.eqb cardType "glitch-purge" then
         mkEffect "glitch-purge" 0 (Some 5) now
       else
         mkEffect "time-freeze" 5000 None now).

Definition processTap (state : GameState) (tapType : TapType)
    (giftCardType : option string) : M TapResult :=
  let hasGoldenEffect :=
    existsb (is_type "golden-monad") (activeEffects state) in
  match tapType with
  | logo =>
      let newStreak := streak state + 1 in
      let newCombo := updateCombo newStreak in
      let points := calculatePoints (combo state) hasGoldenEffect in
      ret {| res_type := logo; points := points; newCombo := newCombo;
             newStreak := newStreak; livesLost := 0; effect := None |}
  | glitch =>
      ret {| res_type := glitch; points := 0; newCombo := 1;
             newStreak := 0; livesLost := 0; effect := None |}
  | gift =>
      effect <- createMagicCardEffect
                  (JS.or_string giftCardType "time-freeze") ;;
      ret {| res_type := gift; points := 0; newCombo := combo state;
             newStreak := streak state; livesLost := 0;
             effect := Some effect |}
  | bomb =>
      ret {| res_type := bomb; points := 0; newCombo := 1;
             newStreak := 0; livesLost := 1; effect := None |}
  | miss =>
      ret {| res_type := miss; points := 0; newCombo := 1;
             newStreak := 0; livesLost := 0; effect := None |}
  end.

Definition updateDifficulty (elapsedSeconds : Q) : Difficulty :=
  let level := Qfloor (elapsedSeconds / DIFFICULTY_RAMP_INTERVAL) in
  {| level := inject_Z level;
     fallSpeed := BASE_FALL_SPEED * JS.Math_pow SPEED_INCREASE_FACTOR level;
     spawnRate := BASE_SPAWN_RATE * JS.Math_pow SPAWN_INCREASE_FACTOR level |}.

Definition updateActiveEffects (effects : list ActiveEffect)
    (deltaTime : Q) : M (list ActiveEffect) :=
  now <- Date_now ;;
  ret (filter
         (fun e => JS.gt (duration e) 0 || is_type "golden-monad" e)
         (map (fun e => mkEffect (eff_type e)
                          (JS.Math_max 0 (duration e - deltaTime))
                          (value e) (startTime e))
              effects)).

(** Field updates of the spread copy [{ ...state }]. *)
Definition set_score (s : GameState) (v : Q) : GameState :=
  mkGameState v (lives s) (timeLeft s) (combo s) (streak s)
              (gameStartTime s) (difficulty s) (activeEffects s).
Definition set_timeLeft (s : GameState) (v : Q) : GameState :=
  mkGameState (score s) (lives s) v (combo s) (streak s)
              (gameStartTime s) (difficulty s) (activeEffects s).
Definition set_activeEffects (s : GameState) (v : list ActiveEffect)
    : GameState :=
  mkGameState (score s) (lives s) (timeLeft s) (combo s) (streak s)
              (gameStartTime s) (difficulty s) v.

Definition applyTapResult (state : GameState) (result : TapResult)
    : GameState :=
  let newState :=
    {| score := JS.Math_max 0 (score state + points result);
       lives := JS.Math_max 0 (lives state - livesLost result);
       timeLeft := timeLeft state;
       combo := newCombo result;
       streak := newStreak result;
       gameStartTime := gameStartTime state;
       difficulty := difficulty state;
       activeEffects := activeEffects state |} in
  match effect result with
  | None => newState
  | Some e =>
      if String.eqb (eff_type e) "extra-time" then
        set_timeLeft newState (timeLeft newState + JS.or_zero (value e))
      else if String.eqb (eff_type e) "bomb-trap" then
        set_score newState
          (JS.Math_max 0 (score newState + JS.or_zero (value e)))
      else if JS.gt (duration e) 0 then
        set_activeEffects newState
          (filter (fun x => negb (String.eqb (eff_type x) (eff_type e)))
                  (activeEffects newState) ++ [e])
      else newState
  end.

Definition updateGameState (state : GameState) (deltaTime : Q)
    : M GameState :=
  now <- Date_now ;;
  let elapsedSeconds := (now - gameStartTime state) / 1000 in
  let isTimeFrozen := existsb (is_type "time-freeze") (activeEffects state) in
  effects <- updateActiveEffects (activeEffects state) deltaTime ;;
  ret {| score := score state;
         lives := lives state;
         timeLeft := if isTimeFrozen then timeLeft state
                     else JS.Math_max 0 (timeLeft state - deltaTime / 1000);
         combo := combo state;
         streak := streak state;
         gameStartTime := gameStartTime state;
         difficulty := updateDifficulty elapsedSeconds;
         activeEffects := effects |}.

Definition isGameOver (state : GameState) : bool :=
  JS.le (timeLeft state) 0 || JS.le (lives state) 0.

(** One tap of the fold used by the client ([handleTap]) and by the server
    replay: [processTap] followed by [applyTapResult]. *)
Definition tapStep (state : GameState) (tapType : TapType)
    (giftCardType : option string) : M GameState :=
  result <- processTap state tapType giftCardType ;;
  ret (applyTapResult state result).

(** States the session can be in: the initial state followed by any
    number of taps and per-frame updates, under any environment. *)
Inductive reachable : GameState -> Prop :=
| reach_init : forall w, reachable (eval createInitialGameState w)
| reach_tap : forall s tapType card w,
    reachable s -> reachable (eval (tapStep s tapType card) w)
| reach_tick : forall s deltaTime w,
    reachable s -> reachable (eval (updateGameState s deltaTime) w).

(** What a tap result carries: the kind of its effect and the numeric
    payload [effect.value || 0]. *)
Definition carries (name : string) (r : TapResult) : bool :=
  match effect r with
  | Some e => String.eqb (eff_type e) name
  | None => false
  end.

Definition payload (r : TapResult) : Q :=
  match effect r with
  | Some e => JS.or_zero (value e)
  | None => 0
  end.

(** A run of taps, each with the card its gift revealed. *)
Fixpoint foldTaps (taps : list (TapType * option string))
    (state : GameState) : M GameState :=
  match taps with
  | [] => ret state
  | (t, card) :: rest =>
      state' <- tapStep state t card ;;
      foldTaps rest state'
  end.

End GameLogic.

(** ** Spatial layer (physics.ts) *)

Module Physics.

Record Vector2 := mkVector2 { x : Q; y : Q }.

Record AABB := mkAABB {
  box_x : Q;      (* Center X *)
  box_y : Q;      (* Center Y *)
  width : Q;
  height : Q
}.

Inductive ObjectType := logo | glitch | gift | bomb.

Record GameObject := mkGameObject {
  id : string;
  type : ObjectType;
  position : Vector2;
  velocity : Vector2;
  size : Vector2;
  hitbox : AABB;
  spawnTime : Q;
  isActive : bool;
  cardType : option string
}.

Definition createAABB (position size : Vector2) : AABB :=
  {| box_x := x position; box_y := y position;
     width := x size; height := y size |}.

Definition aabbOverlap (a b : AABB) : bool :=
  let aLeft := box_x a - width a / 2 in
  let aRight := box_x a + width a / 2 in
  let aTop := box_y a - height a / 2 in
  let aBottom := box_y a + height a / 2 in
  let bLeft := box_x b - width b / 2 in
  let bRight := box_x b + width b / 2 in
  let bTop := box_y b - height b / 2 in
  let bBottom := box_y b + height b / 2 in
  negb (JS.lt aRight bLeft || JS.gt aLeft bRight ||
        JS.lt aBottom bTop || JS.gt aTop bBottom).

Definition pointInAABB (point : Vector2) (aabb : AABB) : bool :=
  let left := box_x aabb - width aabb / 2 in
  let right := box_x aabb + width aabb / 2 in
  let top := box_y aabb - height aabb / 2 in
  let bottom := box_y aabb + height aabb / 2 in
  JS.ge (x point) left && JS.le (x point) right &&
  JS.ge (y point) top && JS.le (y point) bottom.

(** *** The object heap

    A [GameObject[]] holds references; the objects live in a heap that
    [handleTap] and [updateObjectPhysics] write to. *)

Definition Ref := nat.
Definition Heap := Ref -> GameObject.
Definition H : Type -> Type := State Heap.

Definition deref (r : Ref) : H GameObject := fun h => (h r, h).

Definition assign (r : Ref) (o : GameObject) : H unit :=
  fun h => (tt, fun r' => if Nat.eqb r' r then o else h r').

(** [array.filter(pred)]: a new array of the references [pred] accepts. *)
Fixpoint filterM (pred : Ref -> H bool) (l : list Ref) : H (list Ref) :=
  match l with
  | [] => ret []
  | r :: rest =>
      keep <- pred r ;;
      kept <- filterM pred rest ;;
      ret (if keep then r :: kept else kept)
  end.

(** [array.sort(compare)]: the stable sort of ECMAScript, as insertion
    from the right.  [compare a b <= 0] leaves [a] in front of [b]. *)
Fixpoint insertM (compare : Ref -> Ref -> H Q) (a : Ref) (sorted : list Ref)
    : H (list Ref) :=
  match sorted with
  | [] => ret [a]
  | b :: rest =>
      c <- compare a b ;;
      if JS.le c 0 then ret (a :: b :: rest)
      else
        rest' <- insertM compare a rest ;;
        ret (b :: rest')
  end.

Fixpoint sortM (compare : Ref -> Ref -> H Q) (l : list Ref)
    : H (list Ref) :=
  match l with
  | [] => ret []
  | a :: rest =>
      sorted <- sortM compare rest ;;
      insertM compare a sorted
  end.

(** const priorityOrder = { gift: 4, logo: 3, glitch: 2, bomb: 1 } *)
Definition priorityOrder (t : ObjectType) : Q :=
  match t with
  | gift => 4
  | logo => 3
  | glitch => 2
  | bomb => 1
  end.

Definition findTappedObjects (objects : list Ref) (tapPosition : Vector2)
    : H (list Ref) :=
  tappedObjects <-
    filterM (fun r => obj <- deref r ;;
                      ret (isActive obj &&
                           pointInAABB tapPosition (hitbox obj)))
            objects ;;
  if Nat.eqb (List.length tappedObjects) 0 then ret []
  else
    sorted <-
      sortM (fun a b => oa <- deref a ;;
                        ob <- deref b ;;
                        ret (priorityOrder (type ob) -
                             priorityOrder (type oa)))
            tappedObjects ;;
    (* [tappedObjects[0]]; the array is not empty here *)
    ret (firstn 1 sorted).

(** The head of [res] is an element of [l] whose key no element of [l]
    exceeds; an empty [res] stands for an empty [l]. *)
Definition head_max (key : Ref -> Q) (l res : list Ref) : Prop :=
  match res with
  | [] => l = []
  | m :: _ => In m l /\ forall r, In r l -> key r <= key m
  end.

(** Whether the object at a reference is hit by a tap. *)
Definition isHit (h : Heap) (tapPosition : Vector2) (r : Ref) : bool :=
  isActive (h r) && pointInAABB tapPosition (hitbox (h r)).

(** The part of [GameStateManager.handleTap] (game-state.ts) that resolves
    the tap: the target found, if any, is marked inactive
    ([target.isActive = false]) and gives the tap its result type, target id
    and card; no target is a miss. *)
Definition set_isActive (o : GameObject) (v : bool) : GameObject :=
  mkGameObject (id o) (type o) (position o) (velocity o) (size o)
               (hitbox o) (spawnTime o) v (cardType o).

Definition tapResultOf (t : ObjectType) : GameLogic.TapType :=
  match t with
  | logo => GameLogic.logo
  | glitch => GameLogic.glitch
  | gift => GameLogic.gift
  | bomb => GameLogic.bomb
  end.

Definition resolveTap (objects : list Ref) (position : Vector2)
    : H (GameLogic.TapType * option string * option string) :=
  tappedObjects <- findTappedObjects objects position ;;
  match tappedObjects with
  | target :: _ =>
      obj <- deref target ;;
      _ <- assign target (set_isActive obj false) ;;
      ret (tapResultOf (type obj), Some (id obj), cardType obj)
  | [] => ret (GameLogic.miss, None, None)
  end.

End Physics.

(** ** Deterministic random generator (rng.ts) *)

Module Rng.

(** The generator is its [state] field. *)
Definition R : Type -> Type := State Z.

Definition new_XORShift32 (seed : Q) : Z :=
  if Qeq_bool seed 0 then 1%Z else JS.ToUint32 (JS.trunc seed).

Definition next : R Z :=
  fun state =>
    let s1 := JS.xor state (JS.shl state 13) in
    let s2 := JS.xor s1 (JS.ushr s1 17) in
    let s3 := JS.xor s2 (JS.shl s2 5) in
    (JS.ushr s3 0, s3).

Definition nextFloat : R Q :=
  n <- next ;;
  ret (inject_Z n / inject_Z JS.two32).

Definition nextInt (min max : Q) : R Q :=
  f <- nextFloat ;;
  ret (JS.Math_floor (f * (max - min)) + min).

Definition nextFloatRange (min max : Q) : R Q :=
  f <- nextFloat ;;
  ret (f * (max - min) + min).

(** [array[i]] at a number: an element at a natural index in range,
    [undefined] otherwise. *)
Definition index {T} (array : list T) (i : Q) : option T :=
  if Qle_bool 0 i && Qeq_bool i (inject_Z (Qfloor i))
  then nth_error array (Z.to_nat (Qfloor i))
  else None.

Definition choice {T} (array : list T) : R (option T) :=
  i <- nextInt 0 (inject_Z (Z.of_nat (List.length array))) ;;
  ret (index array i).


(** GameRNG *)

Definition new_GameRNG (seed : Q) : Z := new_XORShift32 seed.

Definition spawnX (screenWidth objectWidth : Q) : R Q :=
  nextInt (objectWidth / 2) (screenWidth - objectWidth / 2).

Definition spawnDelay (baseDelay : Q) (variation : Q) : R Q :=
  let min := baseDelay * (1 - variation) in
  let max := baseDelay * (1 + variation) in
  nextFloatRange min max.

Definition objectType : R Physics.ObjectType :=
  rand <- nextFloat ;;
  ret (if JS.lt rand 0.55 then Physics.logo
       else if JS.lt rand 0.80 then Physics.glitch
       else if JS.lt rand 0.85 then Physics.gift
       else Physics.bomb).

Definition cards : list string :=
  [ "time-freeze"; "slow-motion"; "golden-monad"; "extra-time";
    "logo-highlight"; "bomb-trap"; "shrink-ray";
    "monad-swarm"; "glitch-purge" ]%string.

Definition magicCard : R (option string) := choice cards.

Definition fallSpeed (baseSpeed : Q) (variation : Q) : R Q :=
  let min := baseSpeed * (1 - variation) in
  let max := baseSpeed * (1 + variation) in
  nextFloatRange min max.

(** Seed from session id and start time. *)
Definition createSessionRNG (sessionId : string) (timestamp : Q) : Z :=
  let step (seed : Q) (charCode : Z) : Q :=
    inject_Z
      (JS.and
         (JS.trunc (inject_Z (JS.shl (JS.trunc seed) 5) - seed
                    + inject_Z charCode))
         4294967295) in
  new_GameRNG (fold_left step (JS.charCodes sessionId) timestamp).

End Rng.

(** ** Object pool (object-pool.ts)

    [getObject] takes a free object of the pool (growing the pool when none
    is free) and overwrites every field but [type], which is the pool's own.
    The object it returns is described here by its fields after the call. *)

Module ObjectPool.

Import Physics.

Definition type_name (t : ObjectType) : string :=
  match t with
  | logo => "logo"
  | glitch => "glitch"
  | gift => "gift"
  | bomb => "bomb"
  end.

Definition getObject (type : ObjectType) (position size : Vector2)
    (fallSpeed : Q) (cardType : option string) : M GameObject :=
  now <- Date_now ;;
  suffix <- Math_random_id ;;
  spawned <- Date_now ;;
  ret {| id := type_name type ++ "_" ++ JS.toString now ++ "_" ++ suffix;
         type := type;
         position := position;
         velocity := {| x := 0; y := fallSpeed |};
         size := size;
         hitbox := createAABB position size;
         spawnTime := spawned;
         isActive := true;
         cardType := cardType |}.

End ObjectPool.

(** ** Spawn manager (physics.ts) *)

Module Spawn.

Import Physics.

Record SpawnConfig := mkSpawnConfig {
  screenWidth : Q;
  screenHeight : Q;
  objectSize : Vector2;
  fallSpeed : Q;
  spawnRate : Q     (* objects per second *)
}.

Record SpawnManager := mkSpawnManager {
  rng : Z;                (* state of the session's GameRNG *)
  config : SpawnConfig;
  lastSpawnTime : Q;
  nextSpawnDelay : Q
}.

Record Modifiers := mkModifiers {
  mod_spawnRate : Q;
  timeFrozen : bool
}.

(** The manager's methods run on the manager and the environment. *)
Definition Sp : Type -> Type := State (SpawnManager * World).

Definition draw {A} (m : Rng.R A) : Sp A :=
  fun '(sm, w) =>
    let (a, st) := m (rng sm) in
    (a, (mkSpawnManager st (config sm) (lastSpawnTime sm)
                        (nextSpawnDelay sm), w)).

Definition world {A} (m : M A) : Sp A :=
  fun '(sm, w) => let (a, w') := m w in (a, (sm, w')).

Definition this : Sp SpawnManager := fun '(sm, w) => (sm, (sm, w)).

Definition set_lastSpawnTime (v : Q) : Sp unit :=
  fun '(sm, w) =>
    (tt, (mkSpawnManager (rng sm) (config sm) v (nextSpawnDelay sm), w)).

Definition set_nextSpawnDelay (v : Q) : Sp unit :=
  fun '(sm, w) =>
    (tt, (mkSpawnManager (rng sm) (config sm) (lastSpawnTime sm) v, w)).

Definition calculateNextSpawn : Sp unit :=
  sm <- this ;;
  let baseDelay := 1000 / spawnRate (config sm) in
  delay <- draw (Rng.spawnDelay baseDelay 0.3) ;;
  set_nextSpawnDelay delay.

Definition new_SpawnManager (rng : Z) (config : SpawnConfig)
    : SpawnManager :=
  fst (snd (calculateNextSpawn
              (mkSpawnManager rng config 0 0,
               mkWorld (fun _ => 0) (fun _ => EmptyString)))).

(** [for (let i = 0; i < count; i++) objects.push(body)]: the body runs
    once for each natural number below [count]. *)
Definition iterations (count : Q) : nat := Z.to_nat (Qceiling count).

Fixpoint pushEach {A} (n : nat) (body : Sp A) : Sp (list A) :=
  match n with
  | O => ret []
  | S n' =>
      obj <- body ;;
      objects <- pushEach n' body ;;
      ret (obj :: objects)
  end.

Definition spawnOne : Sp GameObject :=
  sm <- this ;;
  objectType <- draw Rng.objectType ;;
  spawnX <- draw (Rng.spawnX (screenWidth (config sm))
                             (x (objectSize (config sm)))) ;;
  fallSpeed <- draw (Rng.fallSpeed (fallSpeed (config sm)) 0.2) ;;
  let position := {| x := spawnX; y := - y (objectSize (config sm)) / 2 |} in
  cardType <- match objectType with
              | gift => draw Rng.magicCard
              | _ => ret None
              end ;;
  world (ObjectPool.getObject objectType position
           (objectSize (config sm)) fallSpeed cardType).

Definition spawnObjects (spawnRateMultiplier : Q) : Sp (list GameObject) :=
  spawnCount <- (if JS.gt spawnRateMultiplier 2
                 then draw (Rng.nextInt 2 4) else ret 1) ;;
  pushEach (iterations spawnCount) spawnOne.

Definition update (currentTime : Q) (modifiers : Modifiers)
    : Sp (list GameObject) :=
  if timeFrozen modifiers then ret []
  else
    sm <- this ;;
    let timeSinceLastSpawn := currentTime - lastSpawnTime sm in
    if JS.ge timeSinceLastSpawn (nextSpawnDelay sm) then
      objects <- spawnObjects (mod_spawnRate modifiers) ;;
      _ <- set_lastSpawnTime currentTime ;;
      _ <- calculateNextSpawn ;;
      ret objects
    else ret [].

End Spawn.

(** ** Server replay (api/session/finish)

    The re-simulation of a submitted tap history: the session generator is
    rebuilt from the session id and start time, the state starts afresh, and
    every tap inside the game window is folded through [processTap] and
    [applyTapResult] by its result type alone.  (The tap statistics kept next
    to the state are left out.) *)

Module Replay.

Import GameLogic.

Record TapEvent := mkTapEvent {
  timestamp : Q;
  position : Physics.Vector2;
  result : TapType
}.

Fixpoint replayTaps (startTime : Q) (tapHistory : list TapEvent)
    (gameState : GameState) : M GameState :=
  match tapHistory with
  | [] => ret gameState
  | tap :: rest =>
      if JS.lt (timestamp tap) startTime ||
         JS.gt (timestamp tap) (startTime + 120000)
      then replayTaps startTime rest gameState       (* continue *)
      else
        tapResult <- processTap gameState (result tap) None ;;
        replayTaps startTime rest (applyTapResult gameState tapResult)
  end.

Definition resimulate (sessionId : string) (startTime : Q)
    (tapHistory : list TapEvent) : M GameState :=
  let rng := Rng.createSessionRNG sessionId startTime in
  gameState <- createInitialGameState ;;
  replayTaps startTime tapHistory gameState.

(** What a replay is compared on. *)
Definition outcome (s : GameState) : Q * Q * Q * Q :=
  (score s, lives s, combo s, streak s).

(** Two effects, or two states, that differ at most in the clock readings
    stored in them. *)
Definition same_effect (e1 e2 : ActiveEffect) : Prop :=
  eff_type e1 = eff_type e2 /\ duration e1 = duration e2 /\
  value e1 = value e2.

Definition same_play (s1 s2 : GameState) : Prop :=
  score s1 = score s2 /\ lives s1 = lives s2 /\
  timeLeft s1 = timeLeft s2 /\ combo s1 = combo s2 /\
  streak s1 = streak s2 /\ difficulty s1 = difficulty s2 /\
  Forall2 same_effect (activeEffects s1) (activeEffects s2).

Definition same_result (r1 r2 : TapResult) : Prop :=
  res_type r1 = res_type r2 /\ points r1 = points r2 /\
  newCombo r1 = newCombo r2 /\ newStreak r1 = newStreak r2 /\
  livesLost r1 = livesLost r2 /\
  match effect r1, effect r2 with
  | Some e1, Some e2 => same_effect e1 e2
  | None, None => True
  | _, _ => False
  end.

End Replay.

(** ** SHA-256 (FIPS 180-4), as [crypto.createHash('sha256')] computes it *)

Module SHA256.

Local Open Scope Z_scope.

Definition mask : Z := 0xffffffff.
Definition add32 (a b : Z) : Z := (a + b) mod 0x100000000.
Definition rotr (n x : Z) : Z :=
  Z.lor (Z.shiftr x n) (Z.land (Z.shiftl x (32 - n)) mask).

Definition Ch (x y z : Z) : Z :=
  Z.lxor (Z.land x y) (Z.land (Z.lxor x mask) z).
Definition Maj (x y z : Z) : Z :=
  Z.lxor (Z.lxor (Z.land x y) (Z.land x z)) (Z.land y z).
Definition Sigma0 (x : Z) : Z :=
  Z.lxor (Z.lxor (rotr 2 x) (rotr 13 x)) (rotr 22 x).
Definition Sigma1 (x : Z) : Z :=
  Z.lxor (Z.lxor (rotr 6 x) (rotr 11 x)) (rotr 25 x).
Definition sigma0 (x : Z) : Z :=
  Z.lxor (Z.lxor (rotr 7 x) (rotr 18 x)) (Z.shiftr x 3).
Definition sigma1 (x : Z) : Z :=
  Z.lxor (Z.lxor (rotr 17 x) (rotr 19 x)) (Z.shiftr x 10).

(** The round constants are the first 32 bits of the fractional parts of
    the cube roots of the first 64 primes, the initial hash value those of
    the square roots of the first 8. *)
Definition is_prime (p : Z) : bool :=
  (1 <? p) && forallb (fun d => negb (p mod Z.of_nat d =? 0))
                      (seq 2 (Z.to_nat p - 2)).

Definition primes : list Z :=
  filter is_prime (map Z.of_nat (seq 2 310)).

(** The largest [r' >= r], reached by setting bits below [2 ^ bits], whose
    [k]-th power does not exceed [n]. *)
Fixpoint root_bits (k : Z) (bits : nat) (n r : Z) : Z :=
  match bits with
  | O => r
  | S b =>
      let r' := r + 2 ^ Z.of_nat b in
      root_bits k b n (if r' ^ k <=? n then r' else r)
  end.

Definition root_fraction (k p : Z) : Z :=
  root_bits k 40 (p * 2 ^ (32 * k)) 0 mod 0x100000000.

Definition K : list Z := map (root_fraction 3) primes.

Record Regs := mkRegs {
  ra : Z; rb : Z; rc : Z; rd : Z; re : Z; rf : Z; rg : Z; rh : Z
}.

Definition H0 : Regs :=
  match map (root_fraction 2) (firstn 8 primes) with
  | [a; b; c; d; e; f; g; h] => mkRegs a b c d e f g h
  | _ => mkRegs 0 0 0 0 0 0 0 0
  end.

(** Padding: a 1 bit, zeros up to 56 mod 64 bytes, the bit length on 8
    bytes, big-endian. *)
Definition be_bytes (count : nat) (v : Z) : list Z :=
  map (fun i => Z.land (Z.shiftr v (8 * Z.of_nat (count - 1 - i))) 255)
      (seq 0 count).

Definition pad (msg : list Z) : list Z :=
  let len := Z.of_nat (List.length msg) in
  msg ++ [0x80] ++ repeat 0 (Z.to_nat ((55 - len) mod 64))
      ++ be_bytes 8 (8 * len).

Fixpoint be_words (fuel : nat) (bytes : list Z) : list Z :=
  match fuel, bytes with
  | S fuel', b0 :: b1 :: b2 :: b3 :: rest =>
      (Z.shiftl b0 24 + Z.shiftl b1 16 + Z.shiftl b2 8 + b3)
        :: be_words fuel' rest
  | _, _ => []
  end.

(** Message schedule: 16 words of the block extended to 64. *)
Fixpoint extend (steps : nat) (w : list Z) : list Z :=
  match steps with
  | O => w
  | S steps' =>
      let t := List.length w in
      let at_ k := nth (t - k) w 0 in
      extend steps'
        (w ++ [add32 (add32 (sigma1 (at_ 2%nat)) (at_ 7%nat))
                     (add32 (sigma0 (at_ 15%nat)) (at_ 16%nat))])
  end.

Definition round (r : Regs) (kw : Z * Z) : Regs :=
  let (k, w) := kw in
  let t1 := add32 (add32 (add32 (rh r) (Sigma1 (re r)))
                         (add32 (Ch (re r) (rf r) (rg r)) k)) w in
  let t2 := add32 (Sigma0 (ra r)) (Maj (ra r) (rb r) (rc r)) in
  mkRegs (add32 t1 t2) (ra r) (rb r) (rc r)
         (add32 (rd r) t1) (re r) (rf r) (rg r).

Definition compress (h : Regs) (block : list Z) : Regs :=
  let w := extend 48 (be_words 16 block) in
  let r := fold_left round (combine K w) h in
  mkRegs (add32 (ra h) (ra r)) (add32 (rb h) (rb r))
         (add32 (rc h) (rc r)) (add32 (rd h) (rd r))
         (add32 (re h) (re r)) (add32 (rf h) (rf r))
         (add32 (rg h) (rg r)) (add32 (rh h) (rh r)).

Fixpoint blocks (fuel : nat) (h : Regs) (bytes : list Z) : Regs :=
  match fuel, bytes with
  | S fuel', _ :: _ => blocks fuel' (compress h (firstn 64 bytes))
                              (skipn 64 bytes)
  | _, _ => h
  end.

Definition hash (msg : list Z) : Regs :=
  let padded := pad msg in
  blocks (List.length padded) H0 padded.

(** [digest('hex')]: eight lower-case hexadecimal digits for each word. *)
Definition hex_digit (d : Z) : ascii :=
  if d <? 10 then ascii_of_nat (48 + Z.to_nat d)
  else ascii_of_nat (87 + Z.to_nat d).

Definition nibble (x : Z) (i : Z) : ascii :=
  hex_digit (Z.land (Z.shiftr x (4 * i)) 15).

Definition hex8 (x : Z) (tail : string) : string :=
  String (nibble x 7) (String (nibble x 6) (String (nibble x 5)
  (String (nibble x 4) (String (nibble x 3) (String (nibble x 2)
  (String (nibble x 1) (String (nibble x 0) tail))))))).

Definition hexdigest (msg : list Z) : string :=
  let r := hash msg in
  hex8 (ra r) (hex8 (rb r) (hex8 (rc r) (hex8 (rd r)
  (hex8 (re r) (hex8 (rf r) (hex8 (rg r) (hex8 (rh r) EmptyString))))))).

End SHA256.

(** ** State hashes

    The client ([GameStateManager.calculateStateHash], game-state.ts) and
    the server ([generateStateHash], anti-cheat.ts) each digest the game
    state to a string. *)

Module StateHash.

Import GameLogic.
Local Open Scope string_scope.

Definition dquote : string := String (ascii_of_nat 34) EmptyString.

(** [JSON.stringify] of an object whose values are numbers. *)
Definition json_field (kv : string * Q) : string :=
  dquote ++ fst kv ++ dquote ++ ":" ++ JS.toString (snd kv).

Definition JSON_stringify (fields : list (string * Q)) : string :=
  "{" ++ String.concat "," (map json_field fields) ++ "}".

(** [n.toString(16)] of a 32-bit integer. *)
Fixpoint hex_digits (fuel : nat) (n : Z) : string :=
  match fuel with
  | O => EmptyString
  | S fuel' =>
      if (n <? 16)%Z then String (SHA256.hex_digit n) EmptyString
      else hex_digits fuel' (n / 16)
           ++ String (SHA256.hex_digit (n mod 16)) EmptyString
  end.

Definition toString16 (n : Z) : string :=
  if (n <? 0)%Z then String "-" (hex_digits 8 (- n))
  else hex_digits 8 n.

(** Client side. *)
Definition calculateStateHash (gameState : GameState) : string :=
  let data :=
    [ ("score", score gameState);
      ("lives", lives gameState);
      ("timeLeft", JS.Math_floor (timeLeft gameState));
      ("combo", JS.Math_floor (combo gameState * 10));
      ("streak", streak gameState) ] in
  let str := JSON_stringify data in
  let hash :=
    fold_left (fun hash char =>
                 let hash := (JS.shl hash 5 - hash + char)%Z in
                 JS.and hash hash)
              (JS.charCodes str) 0%Z in
  toString16 hash.

(** Server side. *)
Definition generateStateHash (gameState : GameState) (actionCount : Q)
    : string :=
  let stateData :=
    [ ("score", JS.Math_round (score gameState));
      ("lives", lives gameState);
      ("combo", (JS.Math_round (combo gameState * 100) / 100)%Q);
      ("streak", streak gameState);
      ("actionCount", actionCount) ] in
  String.substring 0 16
    (SHA256.hexdigest (JS.charCodes (JSON_stringify stateData))).

End StateHash.

(** ** Successive draws (rng.ts)

    [draws n]: the values of [n] calls of [next()] in a row. *)

Fixpoint draws (n : nat) : Rng.R (list Z) :=
  match n with
  | O => ret []
  | S n' =>
      v <- Rng.next ;;
      rest <- draws n' ;;
      ret (v :: rest)
  end.

(** ** Modifiers and summary (game-logic.ts, continued) *)

Module GameView.

Import GameLogic.

Record GameModifiers := mkGameModifiers {
  slowMotion : Q;     (* Speed multiplier (0.5 = half speed) *)
  shrinkRay : Q;      (* Size multiplier (0.5 = half size) *)
  logoHighlight : bool;
  timeFrozen : bool;
  swarmActive : bool
}.

(** [effects.find(e => e.type === name)?.value || d]: [d] when no such
    effect is found, when it has no value, and when its value is 0. *)
Definition found_value_or (name : string) (effects : list ActiveEffect)
    (d : Q) : Q :=
  match find (is_type name) effects with
  | Some e =>
      match value e with
      | Some v => if Qeq_bool v 0 then d else v
      | None => d
      end
  | None => d
  end.

Definition getGameModifiers (state : GameState) : GameModifiers :=
  let effects := activeEffects state in
  {| slowMotion := found_value_or "slow-motion" effects 1;
     shrinkRay := found_value_or "shrink-ray" effects 1;
     logoHighlight := existsb (is_type "logo-highlight") effects;
     timeFrozen := existsb (is_type "time-freeze") effects;
     swarmActive := existsb (is_type "monad-swarm") effects |}.

Record TotalTaps := mkTotalTaps {
  logos : Q;
  glitches : Q;
  cards : Q
}.

Record GameSummary := mkGameSummary {
  finalScore : Q;
  maxCombo : Q;
  longestStreak : Q;
  magicCardsUsed : Q;
  logosHit : Q;
  glitchesHit : Q;
  accuracy : Q       (* percentage *)
}.

Definition generateGameSummary (finalState : GameState)
    (totalTaps : TotalTaps) : GameSummary :=
  let totalHits := logos totalTaps + glitches totalTaps in
  let accuracy := if JS.gt totalHits 0
                  then (logos totalTaps / totalHits) * 100 else 0 in
  {| finalScore := score finalState;
     maxCombo := combo finalState;
     longestStreak := streak finalState;
     magicCardsUsed := cards totalTaps;
     logosHit := logos totalTaps;
     glitchesHit := glitches totalTaps;
     accuracy := JS.Math_round (accuracy * 100) / 100 |}.

(** The card table of [createMagicCardEffect]: type, duration in ms and
    payload of each of the nine cards. *)
Definition card_table : list (string * Q * option Q) :=
  [ ("time-freeze", 5000, None); ("slow-motion", 7000, Some 0.5);
    ("golden-monad", 0, None); ("extra-time", 0, Some 10);
    ("logo-highlight", 5000, None); ("bomb-trap", 0, Some (-20));
    ("shrink-ray", 4000, Some 0.5); ("monad-swarm", 3000, None);
    ("glitch-purge", 0, Some 5) ]%string.

(** The five cards whose effect lasts, with the payload of each. *)
Definition timed_cards : list (string * option Q) :=
  [ ("time-freeze", None); ("slow-motion", Some 0.5);
    ("logo-highlight", None); ("shrink-ray", Some 0.5);
    ("monad-swarm", None) ]%string.

(** An effect as it can stand on the active list: one of the timed cards,
    with its payload and some time left. *)
Definition timed_effect (e : ActiveEffect) : Prop :=
  In (eff_type e, value e) timed_cards /\ 0 < duration e.

(** How many taps of a sequence are bombs. *)
Definition bombs (taps : list (TapType * option string)) : nat :=
  List.length (filter (fun tc => match fst tc with bomb => true | _ => false end)
                      taps).

End GameView.

(** ** Anti-cheat validation (anti-cheat.ts) *)

Module AntiCheat.

Import GameLogic.
Local Open Scope string_scope.

(** ANTI_CHEAT_CONFIG *)
Definition MIN_TAP_INTERVAL : Q := 50.
Definition MAX_COMBO_MULTIPLIER : Q := 5.
Definition MAX_SCORE_PER_TAP : Q := 50.
Definition MAX_GAME_DURATION : Q := 120000.
Definition minX : Q := 0.
Definition maxX : Q := 800.
Definition minY : Q := 0.
Definition maxY : Q := 600.

Inductive Severity := low | medium | high.

Record ValidationResult := mkResult {
  isValid : bool;
  reason : option string;
  severity : Severity
}.

Definition accepted : ValidationResult := mkResult true None low.

Definition validateTapTiming (currentTimestamp lastTimestamp : Q)
    : ValidationResult :=
  let timeDiff := currentTimestamp - lastTimestamp in
  if JS.lt timeDiff MIN_TAP_INTERVAL then
    mkResult false
      (Some ("Tap too fast: " ++ JS.toString timeDiff ++ "ms (minimum: "
             ++ JS.toString MIN_TAP_INTERVAL ++ "ms)"))
      high
  else accepted.

Definition validateTapPosition (position : Physics.Vector2)
    : ValidationResult :=
  if JS.lt (Physics.x position) minX || JS.gt (Physics.x position) maxX ||
     JS.lt (Physics.y position) minY || JS.gt (Physics.y position) maxY
  then
    mkResult false
      (Some ("Position out of bounds: (" ++ JS.toString (Physics.x position)
             ++ ", " ++ JS.toString (Physics.y position) ++ ")"))
      medium
  else accepted.

Definition validateGameState (gameState : GameState) : ValidationResult :=
  if JS.gt (combo gameState) MAX_COMBO_MULTIPLIER then
    mkResult false
      (Some ("Combo multiplier exceeds limit: "
             ++ JS.toString (combo gameState) ++ " > "
             ++ JS.toString MAX_COMBO_MULTIPLIER))
      high
  else if JS.lt (score gameState) 0 || JS.lt (lives gameState) 0 ||
          JS.lt (combo gameState) 1
  then
    mkResult false
      (Some ("Invalid game state values: score="
             ++ JS.toString (score gameState) ++ ", lives="
             ++ JS.toString (lives gameState) ++ ", combo="
             ++ JS.toString (combo gameState)))
      high
  else
    let expectedCombo :=
      JS.Math_min (1 + JS.Math_floor (streak gameState / 5) * 0.5)
                  MAX_COMBO_MULTIPLIER in
    if JS.gt (Qabs (combo gameState - expectedCombo)) 0.1 then
      mkResult false
        (Some ("Combo/streak mismatch: combo="
               ++ JS.toString (combo gameState) ++ ", expected="
               ++ JS.toString expectedCombo ++ ", streak="
               ++ JS.toString (streak gameState)))
        medium
    else accepted.

Definition validateSessionTiming (actionTimestamp sessionStartTime : Q)
    : ValidationResult :=
  let sessionDuration := actionTimestamp - sessionStartTime in
  if JS.lt sessionDuration 0 then
    mkResult false (Some "Action timestamp before session start") high
  else if JS.gt sessionDuration MAX_GAME_DURATION then
    mkResult false
      (Some ("Action after maximum game duration: "
             ++ JS.toString sessionDuration ++ "ms"))
      medium
  else accepted.

(** [!clientHash]: no hash, or the empty string. *)
Definition validateStateHash (serverHash : string)
    (clientHash : option string) : ValidationResult :=
  match clientHash with
  | None => accepted
  | Some EmptyString => accepted
  | Some hash =>
      if negb (String.eqb serverHash hash) then
        mkResult false
          (Some ("State hash mismatch: server=" ++ serverHash
                 ++ ", client=" ++ hash))
          medium
      else accepted
  end.

Record Action := mkAction {
  timestamp : Q;
  position : Physics.Vector2;
  type : TapType
}.

Record Context := mkContext {
  lastActionTimestamp : Q;
  sessionStartTime : Q;
  gameState : GameState
}.

Definition validateAction (action : Action) (context : Context)
    : ValidationResult :=
  let timingResult :=
    validateTapTiming (timestamp action) (lastActionTimestamp context) in
  if negb (isValid timingResult) then timingResult else
  let positionResult := validateTapPosition (position action) in
  if negb (isValid positionResult) then positionResult else
  let sessionResult :=
    validateSessionTiming (timestamp action) (sessionStartTime context) in
  if negb (isValid sessionResult) then sessionResult else
  let stateResult := validateGameState (gameState context) in
  if negb (isValid stateResult) then stateResult else
  accepted.



Record Risk := mkRisk {
  riskLevel : Severity;
  shouldReject : bool;
  reasons : list string
}.

Definition is_severity (v : Severity) (r : ValidationResult) : bool :=
  match v, severity r with
  | low, low | medium, medium | high, high => true
  | _, _ => false
  end.

Definition assessRisk (validationResults : list ValidationResult) : Risk :=
  let failedValidations :=
    filter (fun result => negb (isValid result)) validationResults in
  let highSeverity := filter (is_severity high) failedValidations in
  let mediumSeverity := filter (is_severity medium) failedValidations in
  let '(riskLevel, shouldReject) :=
    if Nat.ltb 0 (List.length highSeverity) then (high, true)
    else if Nat.ltb 2 (List.length mediumSeverity) then (high, true)
    else if Nat.ltb 0 (List.length mediumSeverity) ||
            Nat.ltb 3 (List.length failedValidations)
         then (medium, Nat.ltb 1 (List.length mediumSeverity))
         else (low, false) in
  {| riskLevel := riskLevel;
     shouldReject := shouldReject;
     reasons :=
       map (fun result => JS.or_string (reason result)
                                       "Unknown validation error")
           failedValidations |}.

End AntiCheat.

(** How many results of a list failed with a given severity, and how many
    failed at all. *)
Definition failures (v : AntiCheat.Severity)
    (results : list AntiCheat.ValidationResult) : nat :=
  List.length
    (filter (fun r => negb (AntiCheat.isValid r) && AntiCheat.is_severity v r)
            results).

Definition failed (results : list AntiCheat.ValidationResult) : nat :=
  List.length (filter (fun r => negb (AntiCheat.isValid r)) results).

(** ** Action validation loop (api/action/route.ts)

    The part of the POST handler that re-simulates a batch: the game state
    starts from [createInitialGameState], every action of the batch is
    checked against the last accepted time, the session window and the
    play area, and an accepted one is folded into the state and pushed on
    the session's list of unflushed actions ([kv.lpush]: at the head).
    Authentication, the session lookup and the response are left out; the
    store is taken to succeed. *)

Module ActionRoute.

Import GameLogic.

Definition MIN_TAP_INTERVAL : Q := 50.

Record ActionData := mkActionData {
  timestamp : Q;
  position : Physics.Vector2;
  type : TapType;
  targetId : option string;
  value : option Q
}.

Record KVActionData := mkKVActionData {
  kv_sessionId : string;
  kv_timestamp : Q;
  kv_type : TapType;
  kv_position : Physics.Vector2;
  kv_targetId : option string;
  kv_value : option Q
}.

(** The variables of the loop, and the list behind [storeUnflushedAction]. *)
Record Batch := mkBatch {
  gameState : GameState;
  validated : nat;
  rejected : nat;
  lastActionTime : Q;
  unflushed : list KVActionData
}.

Definition reject (b : Batch) : Batch :=
  {| gameState := gameState b;
     validated := validated b;
     rejected := S (rejected b);
     lastActionTime := lastActionTime b;
     unflushed := unflushed b |}.

Definition storeUnflushedAction (action : KVActionData)
    (store : list KVActionData) : list KVActionData :=
  action :: store.

Definition validateOne (sessionId : string) (startTime : Q) (b : Batch)
    (action : ActionData) : M Batch :=
  if JS.le (timestamp action) (lastActionTime b + MIN_TAP_INTERVAL) then
    ret (reject b)
  else if JS.lt (timestamp action) startTime ||
          JS.gt (timestamp action) (startTime + 120000) then
    ret (reject b)
  else if JS.lt (Physics.x (position action)) 0 ||
          JS.gt (Physics.x (position action)) 800 ||
          JS.lt (Physics.y (position action)) 0 ||
          JS.gt (Physics.y (position action)) 600 then
    ret (reject b)
  else
    tapResult <- processTap (gameState b) (type action) None ;;
    let kvAction :=
      {| kv_sessionId := sessionId;
         kv_timestamp := timestamp action;
         kv_type := type action;
         kv_position := position action;
         kv_targetId := targetId action;
         kv_value := value action |} in
    ret {| gameState := applyTapResult (gameState b) tapResult;
           validated := S (validated b);
           rejected := rejected b;
           lastActionTime := timestamp action;
           unflushed := storeUnflushedAction kvAction (unflushed b) |}.



(** An action as it is stored. *)
Definition stored (sessionId : string) (action : ActionData)
    : KVActionData :=
  {| kv_sessionId := sessionId;
     kv_timestamp := timestamp action;
     kv_type := type action;
     kv_position := position action;
     kv_targetId := targetId action;
     kv_value := value action |}.


(** Inside the session window and the play area. *)
Definition in_bounds (startTime : Q) (a : ActionData) : Prop :=
  (startTime <= timestamp a /\ timestamp a <= startTime + 120000) /\
  (0 <= Physics.x (position a) /\ Physics.x (position a) <= 800) /\
  (0 <= Physics.y (position a) /\ Physics.y (position a) <= 600).

End ActionRoute.

(** [subseq l1 l2]: [l1] is [l2] with some elements left out. *)
Fixpoint subseq {A : Type} (l1 l2 : list A) : Prop :=
  match l2 with
  | [] => l1 = []
  | b :: l2' =>
      subseq l1 l2' \/
      match l1 with
      | [] => False
      | a :: l1' => a = b /\ subseq l1' l2'
      end
  end.

(** ** Session finish (api/session/finish/route.ts)

    The re-simulation of the finish route with the statistics it keeps, and
    the verdict on the client's score.  The statistics object has the keys
    [logos], [glitches], [gifts], [bombs] and [misses]; the loop increments
    [stats[tap.result]], and a tap result is one of [logo], [glitch],
    [gift], [bomb], [miss].  Such a key is not on the object: reading it
    gives [undefined], incrementing that gives [NaN], and the assignment
    creates the key.  [stray] records which of these keys have been created
    (each holds [NaN]).  Authentication, the session lookup and the
    contract call are left out. *)

Module FinishRoute.

Import GameLogic.

Record Stats := mkStats {
  totalTaps : nat;
  logos : Q;
  glitches : Q;
  gifts : Q;
  bombs : Q;
  misses : Q;
  maxCombo : Q;
  longestStreak : Q;
  stray : TapType -> bool
}.

Definition same_type (a b : TapType) : bool :=
  match a, b with
  | logo, logo | glitch, glitch | gift, gift | bomb, bomb | miss, miss => true
  | _, _ => false
  end.

(** [stats[result]++] *)
Definition increment (result : TapType) (stats : Stats) : Stats :=
  {| totalTaps := totalTaps stats;
     logos := logos stats;
     glitches := glitches stats;
     gifts := gifts stats;
     bombs := bombs stats;
     misses := misses stats;
     maxCombo := maxCombo stats;
     longestStreak := longestStreak stats;
     stray := fun t => same_type t result || stray stats t |}.

Definition set_maxCombo (v : Q) (stats : Stats) : Stats :=
  {| totalTaps := totalTaps stats;
     logos := logos stats;
     glitches := glitches stats;
     gifts := gifts stats;
     bombs := bombs stats;
     misses := misses stats;
     maxCombo := v;
     longestStreak := longestStreak stats;
     stray := stray stats |}.

Definition set_longestStreak (v : Q) (stats : Stats) : Stats :=
  {| totalTaps := totalTaps stats;
     logos := logos stats;
     glitches := glitches stats;
     gifts := gifts stats;
     bombs := bombs stats;
     misses := misses stats;
     maxCombo := maxCombo stats;
     longestStreak := v;
     stray := stray stats |}.

(** The variables of the loop. *)
Record Loop := mkLoop {
  gameState : GameState;
  var_maxCombo : Q;
  var_longestStreak : Q;
  stats : Stats
}.

Definition replayOne (startTime : Q) (l : Loop) (tap : Replay.TapEvent)
    : M Loop :=
  if JS.lt (Replay.timestamp tap) startTime ||
     JS.gt (Replay.timestamp tap) (startTime + 120000)
  then ret l                                          (* continue *)
  else
    tapResult <- processTap (gameState l) (Replay.result tap) None ;;
    let gameState := applyTapResult (gameState l) tapResult in
    let stats1 := increment (Replay.result tap) (stats l) in
    let '(maxCombo1, stats2) :=
      if JS.gt (combo gameState) (var_maxCombo l)
      then (combo gameState, set_maxCombo (combo gameState) stats1)
      else (var_maxCombo l, stats1) in
    let '(longestStreak1, stats3) :=
      if JS.gt (streak gameState) (var_longestStreak l)
      then (streak gameState, set_longestStreak (streak gameState) stats2)
      else (var_longestStreak l, stats2) in
    ret {| gameState := gameState;
           var_maxCombo := maxCombo1;
           var_longestStreak := longestStreak1;
           stats := stats3 |}.

Fixpoint replayEach (startTime : Q) (tapHistory : list Replay.TapEvent)
    (l : Loop) : M Loop :=
  match tapHistory with
  | [] => ret l
  | tap :: rest =>
      l' <- replayOne startTime l tap ;;
      replayEach startTime rest l'
  end.

Record Response := mkResponse {
  success : bool;
  finalScore : Q;
  isValid : bool;
  scoreDifference : option Q;
  response_stats : Stats
}.

Definition finish (sessionId : string) (session_startTime : Q)
    (clientFinalScore : Q) (tapHistory : list Replay.TapEvent)
    : M Response :=
  let rng := Rng.createSessionRNG sessionId session_startTime in
  gameState <- createInitialGameState ;;
  let maxCombo := combo gameState in
  let longestStreak := streak gameState in
  let stats :=
    {| totalTaps := List.length tapHistory;
       logos := 0; glitches := 0; gifts := 0; bombs := 0; misses := 0;
       maxCombo := 1; longestStreak := 0;
       stray := fun _ => false |} in
  l <- replayEach session_startTime tapHistory
         (mkLoop gameState maxCombo longestStreak stats) ;;
  let serverFinalScore := score (FinishRoute.gameState l) in
  let scoreDifference := Qabs (serverFinalScore - clientFinalScore) in
  let isValid := JS.le scoreDifference 10 in
  ret {| success := true;
         finalScore := serverFinalScore;
         isValid := isValid;
         scoreDifference := if isValid then None else Some scoreDifference;
         response_stats := FinishRoute.stats l |}.

(** Whether a tap falls inside the session window. *)
Definition in_window (startTime : Q) (tap : Replay.TapEvent) : bool :=
  negb (JS.lt (Replay.timestamp tap) startTime ||
        JS.gt (Replay.timestamp tap) (startTime + 120000)).

End FinishRoute.

(** ** A client run

    What the client does to its game state between start and finish: taps
    ([handleTap]: [processTap] with the card of the tapped gift, then
    [applyTapResult]) and frames ([updateGame]: [updateGameState]). *)

Inductive ClientEvent :=
| Tap (timestamp : Q) (position : Physics.Vector2)
      (result : GameLogic.TapType) (giftCardType : option string)
| Frame (deltaTime : Q).

Fixpoint clientRun (events : list ClientEvent) (state : GameLogic.GameState)
    : M GameLogic.GameState :=
  match events with
  | [] => ret state
  | Tap _ _ result card :: rest =>
      state' <- GameLogic.tapStep state result card ;;
      clientRun rest state'
  | Frame deltaTime :: rest =>
      state' <- GameLogic.updateGameState state deltaTime ;;
      clientRun rest state'
  end.

(** The tap history the client sends: one entry per tap, without the
    card. *)
Fixpoint tapHistoryOf (events : list ClientEvent) : list Replay.TapEvent :=
  match events with
  | [] => []
  | Tap timestamp position result _ :: rest =>
      Replay.mkTapEvent timestamp position result :: tapHistoryOf rest
  | Frame _ :: rest => tapHistoryOf rest
  end.

(** No tapped gift revealed a bomb-trap card. *)
Fixpoint no_bomb_trap (events : list ClientEvent) : Prop :=
  match events with
  | [] => True
  | Tap _ _ GameLogic.gift (Some card) :: rest =>
      card <> "bomb-trap"%string /\ no_bomb_trap rest
  | _ :: rest => no_bomb_trap rest
  end.

(** The invariant of the statistics. *)
Definition stats_invariant (l : FinishRoute.Loop) : Prop :=
  GameLogic.reachable (FinishRoute.gameState l) /\
  FinishRoute.var_maxCombo l
    == GameLogic.updateCombo (FinishRoute.var_longestStreak l) /\
  GameLogic.combo (FinishRoute.gameState l) <= FinishRoute.var_maxCombo l /\
  GameLogic.streak (FinishRoute.gameState l) <= FinishRoute.var_longestStreak l /\
  0 <= FinishRoute.var_longestStreak l /\
  FinishRoute.maxCombo (FinishRoute.stats l) = FinishRoute.var_maxCombo l /\
  FinishRoute.longestStreak (FinishRoute.stats l)
    = FinishRoute.var_longestStreak l.

(** Two states with the same score, lives, combo and streak, neither
    holding a golden-monad effect. *)
Definition agree (s1 s2 : GameLogic.GameState) : Prop :=
  Replay.outcome s1 = Replay.outcome s2 /\
  existsb (GameLogic.is_type "golden-monad") (GameLogic.activeEffects s1)
    = false /\
  existsb (GameLogic.is_type "golden-monad") (GameLogic.activeEffects s2)
    = false.

(** ** Game session (game-state.ts)

    [GameStateManager] with the browser's animation-frame queue and the
    object heap.  The manager holds one session, mutated in place; the
    frame callback [update] is run by the browser, which holds the pending
    callbacks by id.  The event handlers ([onStateChange], [onGameUpdate])
    and the contract manager are left out: they are not set by
    the class itself and write to nothing here.  [session.rng] is the
    generator object also held by the spawn manager, whose [rng] field is
    its state. *)

Module Session.

Import GameLogic.

Inductive GameStateType :=
| IDLE | AUTH_CHECK | READY | COUNTDOWN | RUNNING | PAUSED | FINISHED | SUMMARY.

Record TapEvent := mkTapEvent {
  timestamp : Q;
  position : Physics.Vector2;
  targetId : option string;
  result : TapType
}.

Record GameConfig := mkGameConfig {
  screenWidth : Q;
  screenHeight : Q;
  objectSize : Physics.Vector2
}.

Record GameSession := mkGameSession {
  id : string;
  seed : Q;
  state : GameStateType;
  gameState : GameState;
  objects : list Physics.Ref;
  spawnManager : Spawn.SpawnManager;
  lastUpdateTime : Q;
  countdownTime : Q;
  isPaused : bool;
  tapHistory : list TapEvent;
  actions : list (TapType * Q);
  stateHash : string
}.

Definition set_state (v : GameStateType) (s : GameSession) : GameSession :=
  mkGameSession (id s) (seed s) v (gameState s) (objects s) (spawnManager s)
    (lastUpdateTime s) (countdownTime s) (isPaused s) (tapHistory s)
    (actions s) (stateHash s).

Definition set_gameState (v : GameState) (s : GameSession) : GameSession :=
  mkGameSession (id s) (seed s) (state s) v (objects s) (spawnManager s)
    (lastUpdateTime s) (countdownTime s) (isPaused s) (tapHistory s)
    (actions s) (stateHash s).

Definition set_objects (v : list Physics.Ref) (s : GameSession)
    : GameSession :=
  mkGameSession (id s) (seed s) (state s) (gameState s) v (spawnManager s)
    (lastUpdateTime s) (countdownTime s) (isPaused s) (tapHistory s)
    (actions s) (stateHash s).

Definition set_spawnManager (v : Spawn.SpawnManager) (s : GameSession)
    : GameSession :=
  mkGameSession (id s) (seed s) (state s) (gameState s) (objects s) v
    (lastUpdateTime s) (countdownTime s) (isPaused s) (tapHistory s)
    (actions s) (stateHash s).

Definition set_lastUpdateTime (v : Q) (s : GameSession) : GameSession :=
  mkGameSession (id s) (seed s) (state s) (gameState s) (objects s)
    (spawnManager s) v (countdownTime s) (isPaused s) (tapHistory s)
    (actions s) (stateHash s).

Definition set_countdownTime (v : Q) (s : GameSession) : GameSession :=
  mkGameSession (id s) (seed s) (state s) (gameState s) (objects s)
    (spawnManager s) (lastUpdateTime s) v (isPaused s) (tapHistory s)
    (actions s) (stateHash s).

Definition set_isPaused (v : bool) (s : GameSession) : GameSession :=
  mkGameSession (id s) (seed s) (state s) (gameState s) (objects s)
    (spawnManager s) (lastUpdateTime s) (countdownTime s) v (tapHistory s)
    (actions s) (stateHash s).

Definition set_tapHistory (v : list TapEvent) (s : GameSession)
    : GameSession :=
  mkGameSession (id s) (seed s) (state s) (gameState s) (objects s)
    (spawnManager s) (lastUpdateTime s) (countdownTime s) (isPaused s) v
    (actions s) (stateHash s).

Definition set_actions (v : list (TapType * Q)) (s : GameSession)
    : GameSession :=
  mkGameSession (id s) (seed s) (state s) (gameState s) (objects s)
    (spawnManager s) (lastUpdateTime s) (countdownTime s) (isPaused s)
    (tapHistory s) v (stateHash s).

Definition set_stateHash (v : string) (s : GameSession) : GameSession :=
  mkGameSession (id s) (seed s) (state s) (gameState s) (objects s)
    (spawnManager s) (lastUpdateTime s) (countdownTime s) (isPaused s)
    (tapHistory s) (actions s) v.

(** [gameState.gameStartTime = v] *)
Definition set_gameStartTime (v : Q) (g : GameState) : GameState :=
  mkGameState (score g) (lives g) (timeLeft g) (combo g) (streak g) v
              (difficulty g) (activeEffects g).

(** The manager, the heap its objects live in, the browser's queue of
    frame callbacks and the environment. *)
Record Sys := mkSys {
  session : option GameSession;
  animationFrameId : option positive;
  heap : Physics.Heap;
  next_ref : Physics.Ref;
  pending : list positive;
  next_frame : positive;
  env : World
}.

Definition G : Type -> Type := State Sys.

Definition get : G Sys := fun sys => (sys, sys).

Definition setSession (v : option GameSession) : G unit :=
  fun sys => (tt, mkSys v (animationFrameId sys) (heap sys) (next_ref sys)
                        (pending sys) (next_frame sys) (env sys)).

Definition set_animationFrameId (v : option positive) : G unit :=
  fun sys => (tt, mkSys (session sys) v (heap sys) (next_ref sys)
                        (pending sys) (next_frame sys) (env sys)).

(** [if (!this.session) return; ...] *)
Definition onSession (body : GameSession -> G unit) : G unit :=
  sys <- get ;;
  match session sys with
  | Some s => body s
  | None => ret tt
  end.

Definition world {A} (m : M A) : G A :=
  fun sys =>
    let (a, w) := m (env sys) in
    (a, mkSys (session sys) (animationFrameId sys) (heap sys) (next_ref sys)
              (pending sys) (next_frame sys) w).

Definition onHeap {A} (m : Physics.H A) : G A :=
  fun sys =>
    let (a, h) := m (heap sys) in
    (a, mkSys (session sys) (animationFrameId sys) h (next_ref sys)
              (pending sys) (next_frame sys) (env sys)).

(** A new object. *)
Definition alloc (o : Physics.GameObject) : G Physics.Ref :=
  fun sys =>
    (next_ref sys,
     mkSys (session sys) (animationFrameId sys)
           (fun r => if Nat.eqb r (next_ref sys) then o else heap sys r)
           (S (next_ref sys)) (pending sys) (next_frame sys) (env sys)).

Fixpoint mapG {A B} (f : A -> G B) (l : list A) : G (list B) :=
  match l with
  | [] => ret []
  | a :: rest =>
      b <- f a ;;
      bs <- mapG f rest ;;
      ret (b :: bs)
  end.

Definition requestAnimationFrame : G positive :=
  fun sys =>
    (next_frame sys,
     mkSys (session sys) (animationFrameId sys) (heap sys) (next_ref sys)
           (pending sys ++ [next_frame sys]) (Pos.succ (next_frame sys))
           (env sys)).

Definition cancelAnimationFrame (handle : positive) : G unit :=
  fun sys =>
    (tt, mkSys (session sys) (animationFrameId sys) (heap sys) (next_ref sys)
               (filter (fun i => negb (Pos.eqb i handle)) (pending sys))
               (next_frame sys) (env sys)).

Definition is_state (a b : GameStateType) : bool :=
  match a, b with
  | IDLE, IDLE | AUTH_CHECK, AUTH_CHECK | READY, READY
  | COUNTDOWN, COUNTDOWN | RUNNING, RUNNING | PAUSED, PAUSED
  | FINISHED, FINISHED | SUMMARY, SUMMARY => true
  | _, _ => false
  end.

(** ['COUNTDOWN', 'RUNNING', 'PAUSED'].includes(state) *)
Definition active (s : GameStateType) : bool :=
  is_state s COUNTDOWN || is_state s RUNNING || is_state s PAUSED.

(** [new GameStateManager(config)], in a browser with nothing pending. *)
Definition new_GameStateManager (h : Physics.Heap) (w : World) : Sys :=
  mkSys None None h 0%nat [] 1%positive w.

Definition initializeSession (config : GameConfig) (sessionId : string)
    (seed : Q) : G unit :=
  let rng := Rng.createSessionRNG sessionId seed in
  gameState <- world createInitialGameState ;;
  let spawnManager :=
    Spawn.new_SpawnManager rng
      (Spawn.mkSpawnConfig (screenWidth config) (screenHeight config)
         (objectSize config) (fallSpeed (difficulty gameState))
         (spawnRate (difficulty gameState))) in
  now <- world Date_now ;;
  setSession
    (Some {| id := sessionId;
             seed := seed;
             state := READY;
             gameState := gameState;
             objects := [];
             spawnManager := spawnManager;
             lastUpdateTime := now;
             countdownTime := 3000;
             isPaused := false;
             tapHistory := [];
             actions := [];
             stateHash := StateHash.calculateStateHash gameState |}).

Definition startGameLoop : G unit :=
  sys <- get ;;
  _ <- match animationFrameId sys with
       | Some handle =>
           _ <- cancelAnimationFrame handle ;;
           set_animationFrameId None
       | None => ret tt
       end ;;
  handle <- requestAnimationFrame ;;
  set_animationFrameId (Some handle).

Definition startCountdown : G unit :=
  onSession (fun s =>
    if negb (is_state (state s) READY) then ret tt
    else
      now <- world Date_now ;;
      _ <- setSession
             (Some (set_lastUpdateTime now
                      (set_state COUNTDOWN (set_countdownTime 3000 s)))) ;;
      startGameLoop).

Definition startGame : G unit :=
  onSession (fun s =>
    if negb (is_state (state s) COUNTDOWN) then ret tt
    else
      started <- world Date_now ;;
      now <- world Date_now ;;
      setSession
        (Some (set_lastUpdateTime now
                 (set_gameState (set_gameStartTime started (gameState s))
                    (set_state RUNNING s))))).

Definition pauseGame : G unit :=
  onSession (fun s =>
    if negb (is_state (state s) RUNNING) then ret tt
    else setSession (Some (set_isPaused true (set_state PAUSED s)))).

Definition resumeGame : G unit :=
  onSession (fun s =>
    if negb (is_state (state s) PAUSED) then ret tt
    else
      now <- world Date_now ;;
      setSession
        (Some (set_lastUpdateTime now
                 (set_isPaused false (set_state RUNNING s))))).

Definition handleTap (position : Physics.Vector2) : G bool :=
  sys <- get ;;
  match session sys with
  | None => ret false
  | Some s =>
      if negb (is_state (state s) RUNNING) then ret false
      else
        tapTime <- world Date_now ;;
        resolved <- onHeap (Physics.resolveTap (objects s) position) ;;
        let '(tapResult, targetId, giftCardType) := resolved in
        result <- world (processTap (gameState s) tapResult giftCardType) ;;
        let gameState := applyTapResult (gameState s) result in
        let tapEvent :=
          {| timestamp := tapTime; position := position;
             targetId := targetId; result := tapResult |} in
        _ <- setSession
               (Some (set_stateHash (StateHash.calculateStateHash gameState)
                        (set_actions (actions s ++ [(tapResult, tapTime)])
                           (set_tapHistory (tapHistory s ++ [tapEvent])
                              (set_gameState gameState s))))) ;;
        ret (match tapResult with miss => false | _ => true end)
  end.

Definition endGame : G unit :=
  onSession (fun s =>
    _ <- setSession (Some (set_state FINISHED s)) ;;
    sys <- get ;;
    match animationFrameId sys with
    | Some handle =>
        _ <- cancelAnimationFrame handle ;;
        set_animationFrameId None
    | None => ret tt
    end).

(** [updateGameObject] and the shrink-ray map of [updateGame]: each makes
    a new object. *)
Definition updateGameObject (obj : Physics.GameObject) (deltaTime : Q)
    : Physics.GameObject :=
  let newPosition :=
    {| Physics.x := Physics.x (Physics.position obj)
                    + Physics.x (Physics.velocity obj) * deltaTime / 1000;
       Physics.y := Physics.y (Physics.position obj)
                    + Physics.y (Physics.velocity obj) * deltaTime / 1000 |} in
  Physics.mkGameObject (Physics.id obj) (Physics.type obj) newPosition
    (Physics.velocity obj) (Physics.size obj)
    (Physics.createAABB newPosition (Physics.size obj))
    (Physics.spawnTime obj) (Physics.isActive obj) (Physics.cardType obj).

Definition isOffScreen (obj : Physics.GameObject) (screenHeight : Q)
    : bool :=
  JS.gt (Physics.y (Physics.position obj))
        (screenHeight + Physics.y (Physics.size obj) / 2).

Definition with_size (obj : Physics.GameObject) (size : Physics.Vector2)
    : Physics.GameObject :=
  Physics.mkGameObject (Physics.id obj) (Physics.type obj)
    (Physics.position obj) (Physics.velocity obj) size (Physics.hitbox obj)
    (Physics.spawnTime obj) (Physics.isActive obj) (Physics.cardType obj).

(** [spawnManager.updateConfig({ fallSpeed, spawnRate })] *)
Definition updateConfig (sm : Spawn.SpawnManager) (fallSpeed spawnRate : Q)
    : Spawn.SpawnManager :=
  Spawn.mkSpawnManager (Spawn.rng sm)
    (Spawn.mkSpawnConfig (Spawn.screenWidth (Spawn.config sm))
       (Spawn.screenHeight (Spawn.config sm))
       (Spawn.objectSize (Spawn.config sm)) fallSpeed spawnRate)
    (Spawn.lastSpawnTime sm) (Spawn.nextSpawnDelay sm).

(** A method of the spawn manager, run on the manager given and the
    environment. *)
Definition onSpawnManager {A} (sm : Spawn.SpawnManager) (m : Spawn.Sp A)
    : G (A * Spawn.SpawnManager) :=
  fun sys =>
    let '(a, (sm', w)) := m (sm, env sys) in
    ((a, sm'),
     mkSys (session sys) (animationFrameId sys) (heap sys) (next_ref sys)
           (pending sys) (next_frame sys) w).

Definition updateGame (config : GameConfig) (deltaTime : Q) : G unit :=
  onSession (fun s =>
    gameState' <- world (updateGameState (gameState s) deltaTime) ;;
    let modifiers := GameView.getGameModifiers gameState' in
    let swarm : Q := if GameView.swarmActive modifiers then 3 else 1 in
    let sm := updateConfig (spawnManager s)
                (fallSpeed (difficulty gameState')
                 * GameView.slowMotion modifiers)
                (spawnRate (difficulty gameState') * swarm) in
    now <- world Date_now ;;
    spawned <- onSpawnManager sm
                 (Spawn.update now
                    (Spawn.mkModifiers swarm
                                       (GameView.timeFrozen modifiers))) ;;
    let '(newObjects, sm') := spawned in
    newRefs <- mapG alloc newObjects ;;
    let objects := objects s ++ newRefs in
    objects <-
      (if negb (GameView.timeFrozen modifiers) then
         moved <- mapG (fun r =>
                          obj <- onHeap (Physics.deref r) ;;
                          alloc (updateGameObject obj
                                   (deltaTime
                                    * GameView.slowMotion modifiers)))
                       objects ;;
         onHeap (Physics.filterM
                   (fun r => obj <- Physics.deref r ;;
                             ret (Physics.isActive obj &&
                                  negb (isOffScreen obj
                                          (screenHeight config))))
                   moved)
       else ret objects) ;;
    objects <-
      (if negb (Qeq_bool (GameView.shrinkRay modifiers) 1) then
         mapG (fun r =>
                 obj <- onHeap (Physics.deref r) ;;
                 alloc (with_size obj
                          {| Physics.x := Physics.x (objectSize config)
                                          * GameView.shrinkRay modifiers;
                             Physics.y := Physics.y (objectSize config)
                                          * GameView.shrinkRay modifiers |}))
              objects
       else ret objects) ;;
    _ <- setSession
           (Some (set_objects objects
                    (set_spawnManager sm' (set_gameState gameState' s)))) ;;
    _ <- (if isGameOver gameState' then endGame else ret tt) ;;
    onSession (fun s =>
      setSession
        (Some (set_stateHash (StateHash.calculateStateHash (gameState s))
                             s)))).

(** The callback [update] of [startGameLoop]. *)
Definition update (config : GameConfig) : G unit :=
  onSession (fun s =>
    currentTime <- world Date_now ;;
    let deltaTime := currentTime - lastUpdateTime s in
    let s := set_lastUpdateTime currentTime s in
    _ <- setSession (Some s) ;;
    _ <- (if is_state (state s) COUNTDOWN then
            let s := set_countdownTime (countdownTime s - deltaTime) s in
            _ <- setSession (Some s) ;;
            if JS.le (countdownTime s) 0 then startGame else ret tt
          else ret tt) ;;
    _ <- onSession (fun s =>
           if is_state (state s) RUNNING && negb (isPaused s)
           then updateGame config deltaTime else ret tt) ;;
    onSession (fun s =>
      if active (state s) then
        handle <- requestAnimationFrame ;;
        set_animationFrameId (Some handle)
      else ret tt)).

Definition showSummary : G unit :=
  onSession (fun s =>
    if negb (is_state (state s) FINISHED) then ret tt
    else setSession (Some (set_state SUMMARY s))).

Definition cleanup : G unit :=
  sys <- get ;;
  _ <- match animationFrameId sys with
       | Some handle =>
           _ <- cancelAnimationFrame handle ;;
           set_animationFrameId None
       | None => ret tt
       end ;;
  setSession None.

(** The browser runs a pending callback, which leaves the queue. *)
Definition runFrame (config : GameConfig) (handle : positive) : G unit :=
  sys <- get ;;
  if existsb (Pos.eqb handle) (pending sys) then
    _ <- cancelAnimationFrame handle ;;
    update config
  else ret tt.

(** What can happen to a manager: a call of one of its public methods, or
    the browser running a frame. *)
Inductive Event :=
| InitializeSession (sessionId : string) (seed : Q)
| StartCountdown
| StartGame
| PauseGame
| ResumeGame
| HandleTap (position : Physics.Vector2)
| ShowSummary
| Cleanup
| RunFrame (handle : positive).

Definition perform (config : GameConfig) (e : Event) : G unit :=
  match e with
  | InitializeSession sessionId seed => initializeSession config sessionId seed
  | StartCountdown => startCountdown
  | StartGame => startGame
  | PauseGame => pauseGame
  | ResumeGame => resumeGame
  | HandleTap position => _ <- handleTap position ;; ret tt
  | ShowSummary => showSummary
  | Cleanup => cleanup
  | RunFrame handle => runFrame config handle
  end.

Inductive reachable (config : GameConfig) : Sys -> Prop :=
| reach_new : forall h w, reachable config (new_GameStateManager h w)
| reach_event : forall sys e,
    reachable config sys -> reachable config (snd (perform config e sys)).

(** The transitions of the session state. *)
Definition transition (a b : GameStateType) : bool :=
  match a, b with
  | READY, COUNTDOWN
  | COUNTDOWN, RUNNING
  | COUNTDOWN, FINISHED
  | RUNNING, PAUSED
  | PAUSED, RUNNING
  | RUNNING, FINISHED
  | FINISHED, SUMMARY => true
  | _, _ => false
  end.

End Session.

(** Two system states with the same session, frame handle and browser
    queue; a computation that leaves these alone. *)
Definition same_frames (a b : Session.Sys) : Prop :=
  Session.session b = Session.session a /\
  Session.animationFrameId b = Session.animationFrameId a /\
  Session.pending b = Session.pending a /\
  Session.next_frame b = Session.next_frame a.

Definition quiet {A : Type} (m : Session.G A) : Prop :=
  forall sys, same_frames sys (snd (m sys)).

(** At most one frame callback is pending, the one the manager holds the
    handle of; and one is pending whenever the session is in COUNTDOWN,
    RUNNING or PAUSED. *)
Definition frames_ok (sys : Session.Sys) : Prop :=
  (Session.pending sys = [] \/
   exists handle, Session.pending sys = [handle] /\
                  Session.animationFrameId sys = Some handle) /\
  (forall s, Session.session sys = Some s ->
             Session.active (Session.state s) = true ->
             Session.pending sys <> []).

(** The session's game state is one the game logic can reach, its hash is
    up to date, the pause flag goes with the PAUSED state, the game has not
    moved before it runs, and the session is in one of the six states the
    manager sets. *)
Definition good (s : Session.GameSession) : Prop :=
  GameLogic.reachable (Session.gameState s) /\
  Session.stateHash s = StateHash.calculateStateHash (Session.gameState s) /\
  (Session.isPaused s = true <-> Session.state s = Session.PAUSED) /\
  (Session.state s = Session.READY \/ Session.state s = Session.COUNTDOWN ->
   exists w, Session.gameState s
             = eval GameLogic.createInitialGameState w) /\
  Session.state s <> Session.IDLE /\ Session.state s <> Session.AUTH_CHECK.

Definition session_ok (sys : Session.Sys) : Prop :=
  forall s, Session.session sys = Some s -> good s.

(** What every event but resume, initialise and clean-up leaves of a
    session: everything except the time of the last update. *)
Definition same_but_clock (s s' : Session.GameSession) : Prop :=
  exists t, s' = Session.set_lastUpdateTime t s.

(** Two system states with the same frame handle and browser queue. *)
Definition same_queue (a b : Session.Sys) : Prop :=
  Session.animationFrameId b = Session.animationFrameId a /\
  Session.pending b = Session.pending a /\
  Session.next_frame b = Session.next_frame a.

(** * Properties *)

Import GameLogic.

(** ** The scoring state machine *)

Lemma applyTapResult_combo (s : GameState) (r : TapResult) :
  combo (applyTapResult s r) = newCombo r.
Proof.
  unfold applyTapResult.
  destruct (effect r) as [e|]; [|reflexivity].
  destruct (String.eqb (eff_type e) "extra-time"); [reflexivity|].
  destruct (String.eqb (eff_type e) "bomb-trap"); [reflexivity|].
  destruct (JS.gt (duration e) 0); reflexivity.
Qed.

Lemma applyTapResult_streak (s : GameState) (r : TapResult) :
  streak (applyTapResult s r) = newStreak r.
Proof.
  unfold applyTapResult.
  destruct (effect r) as [e|]; [|reflexivity].
  destruct (String.eqb (eff_type e) "extra-time"); [reflexivity|].
  destruct (String.eqb (eff_type e) "bomb-trap"); [reflexivity|].
  destruct (JS.gt (duration e) 0); reflexivity.
Qed.

Lemma applyTapResult_lives (s : GameState) (r : TapResult) :
  lives (applyTapResult s r) = JS.Math_max 0 (lives s - livesLost r).
Proof.
  unfold applyTapResult.
  destruct (effect r) as [e|]; [|reflexivity].
  destruct (String.eqb (eff_type e) "extra-time"); [reflexivity|].
  destruct (String.eqb (eff_type e) "bomb-trap"); [reflexivity|].
  destruct (JS.gt (duration e) 0); reflexivity.
Qed.

Lemma applyTapResult_score (s : GameState) (r : TapResult) :
  score (applyTapResult s r) =
    if carries "bomb-trap" r
    then Qmax 0 (Qmax 0 (score s + points r) + payload r)
    else Qmax 0 (score s + points r).
Proof.
  unfold applyTapResult, carries, payload.
  destruct (effect r) as [e|]; [|reflexivity].
  destruct (String.eqb (eff_type e) "extra-time") eqn:Hx.
  - apply String.eqb_eq in Hx. rewrite Hx. reflexivity.
  - destruct (String.eqb (eff_type e) "bomb-trap"); [reflexivity|].
    destruct (JS.gt (duration e) 0); reflexivity.
Qed.

(** C4: glitch and miss reset combo and streak without costing a life or
    giving points; bomb resets them and costs exactly one life; the lives
    lost by a tap are 1 for a bomb and 0 for every other type. *)
Theorem processTap_reset_policy (s : GameState) (card : option string)
    (w : World) :
  (newCombo (eval (processTap s glitch card) w) == 1 /\
   newStreak (eval (processTap s glitch card) w) == 0 /\
   livesLost (eval (processTap s glitch card) w) == 0 /\
   points (eval (processTap s glitch card) w) == 0) /\
  (newCombo (eval (processTap s miss card) w) == 1 /\
   newStreak (eval (processTap s miss card) w) == 0 /\
   livesLost (eval (processTap s miss card) w) == 0 /\
   points (eval (processTap s miss card) w) == 0) /\
  (newCombo (eval (processTap s bomb card) w) == 1 /\
   newStreak (eval (processTap s bomb card) w) == 0 /\
   livesLost (eval (processTap s bomb card) w) == 1) /\
  (forall t : TapType,
     livesLost (eval (processTap s t card) w) ==
       match t with bomb => 1 | _ => 0 end).
Proof.
  repeat split; try reflexivity.
  intros t; destruct t; reflexivity.
Qed.

(** C5: from the initial state, five logo taps give streak 5 and combo 1.5;
    the sixth logo tap scores 15; a bomb right after resets combo to 1 and
    takes exactly one life. *)
Theorem six_logos_then_bomb (w : World) :
  let logos n := repeat (logo, @None string) n in
  let run taps := eval (s0 <- createInitialGameState ;; foldTaps taps s0) w in
  let s5 := run (logos 5%nat) in
  let s6 := run (logos 6%nat) in
  let s7 := run (logos 6%nat ++ [(bomb, None)]) in
  streak s5 == 5 /\ combo s5 == 1.5 /\
  (forall w', points (eval (processTap s5 logo None) w') == 15) /\
  score s6 == score s5 + 15 /\
  combo s7 == 1 /\ lives s7 == lives s6 - 1.
Proof.
  cbv zeta. repeat split; intros; vm_compute; reflexivity.
Qed.

(** The combo a streak stands for, written as the formula of the data model. *)
Lemma updateCombo_formula (k : Q) :
  updateCombo k = Qmin (1 + inject_Z (Qfloor (k / 5)) * 0.5) 5.
Proof. reflexivity. Qed.

Lemma tapStep_combo_streak (s : GameState) (t : TapType)
    (card : option string) (w : World) :
  let s' := eval (tapStep s t card) w in
  (combo s' = combo s /\ streak s' = streak s) \/
  (combo s' = 1 /\ streak s' = 0) \/
  (combo s' = updateCombo (streak s') /\ streak s' = streak s + 1).
Proof.
  cbv zeta. unfold eval, tapStep.
  destruct t; cbn [processTap bind ret fst].
  - right; right. rewrite applyTapResult_combo, applyTapResult_streak. 
    split; reflexivity.
  - right; left. rewrite applyTapResult_combo, applyTapResult_streak.
    split; reflexivity.
  - left. unfold createMagicCardEffect, bind, ret, Date_now; cbn [fst].
    rewrite applyTapResult_combo, applyTapResult_streak. split; reflexivity.
  - right; left. rewrite applyTapResult_combo, applyTapResult_streak.
    split; reflexivity.
  - right; left. rewrite applyTapResult_combo, applyTapResult_streak.
    split; reflexivity.
Qed.

Lemma eval_bind {S A B} (m : State S A) (f : A -> State S B) (w : S) :
  eval (bind m f) w = eval (f (eval m w)) (snd (m w)).
Proof. unfold eval, bind. destruct (m w); reflexivity. Qed.

Lemma eval_bind_fst {S A B} (m : State S A) (f : A -> State S B) (w : S) :
  fst (bind m f w) = fst (f (fst (m w)) (snd (m w))).
Proof. apply eval_bind. Qed.

Lemma foldTaps_reachable (taps : list (TapType * option string)) :
  forall s w, reachable s -> reachable (eval (foldTaps taps s) w).
Proof.
  induction taps as [|[t c] rest IH]; intros s w Hs; [exact Hs|].
  cbn [foldTaps]. rewrite eval_bind. apply IH, reach_tap, Hs.
Qed.

Lemma session_reachable (taps : list (TapType * option string)) (w : World) :
  reachable (eval (s0 <- createInitialGameState ;; foldTaps taps s0) w).
Proof. rewrite eval_bind. apply foldTaps_reachable, reach_init. Qed.

(** C6: in every state reachable from the initial one by taps and per-frame
    updates, combo is min(1 + floor(streak/5) * 0.5, 5). *)
Theorem combo_derived_from_streak (s : GameState) :
  reachable s ->
  combo s == Qmin (1 + inject_Z (Qfloor (streak s / 5)) * 0.5) 5.
Proof.
  induction 1 as [w | s t card w Hs IH | s dt w Hs IH].
  - vm_compute. reflexivity.
  - destruct (tapStep_combo_streak s t card w) as [[Hc Hk] | [[Hc Hk] | [Hc Hk]]].
    + rewrite Hc, Hk. exact IH.
    + rewrite Hc, Hk. vm_compute. reflexivity.
    + rewrite Hc. rewrite updateCombo_formula. reflexivity.
  - exact IH.
Qed.

Lemma combo_derived_from_streak_witness :
  let s := eval (s0 <- createInitialGameState ;;
                 foldTaps (repeat (logo, None) 7%nat ++
                           [(gift, Some "extra-time"%string)]) s0)
                (mkWorld (fun _ => 0) (fun _ => EmptyString)) in
  streak s == 7 /\ combo s == 1.5 /\
  combo s == Qmin (1 + inject_Z (Qfloor (streak s / 5)) * 0.5) 5.
Proof.
  cbv zeta. split; [vm_compute; reflexivity|]. split; [vm_compute; reflexivity|].
  apply (combo_derived_from_streak _ (session_reachable _ _)).
Defined.

(** ** Clamping in [applyTapResult] *)

(** C7 as stated fails: a gift revealing the bomb-trap card gives a result
    with 0 points whose payload of -20 is applied after the first clamp, so
    from score 100 the new score is 80, not max(0, 100 + 0). *)
Lemma applyTapResult_bomb_trap_counterexample :
  let s := mkGameState 100 5 120 1 0 0
             (mkDifficulty 0 BASE_FALL_SPEED BASE_SPAWN_RATE) [] in
  let r := eval (processTap s gift (Some "bomb-trap"%string))
                (mkWorld (fun _ => 0) (fun _ => EmptyString)) in
  0 <= score s /\ 0 <= lives s /\
  points r == 0 /\ payload r == -20 /\
  score (applyTapResult s r) == 80 /\
  ~ score (applyTapResult s r) == Qmax 0 (score s + points r).
Proof.
  cbv zeta. repeat split; try (vm_compute; congruence).
Qed.

(** C7, amended: the score is max(0, score + points), clamped once more with
    the payload when the result carries a bomb-trap; it is never negative;
    lives are max(0, lives - livesLost), never negative. *)
Theorem applyTapResult_clamps (s : GameState) (r : TapResult) :
  0 <= score s -> 0 <= lives s ->
  score (applyTapResult s r) ==
    (if carries "bomb-trap" r
     then Qmax 0 (Qmax 0 (score s + points r) + payload r)
     else Qmax 0 (score s + points r)) /\
  0 <= score (applyTapResult s r) /\
  lives (applyTapResult s r) == Qmax 0 (lives s - livesLost r) /\
  0 <= lives (applyTapResult s r).
Proof.
  intros _ _.
  rewrite applyTapResult_score, applyTapResult_lives. unfold JS.Math_max.
  repeat split; try reflexivity.
  - destruct (carries "bomb-trap" r); apply Q.le_max_l.
  - apply Q.le_max_l.
Qed.

Lemma applyTapResult_clamps_witness :
  let s := mkGameState 10 1 120 1 0 0
             (mkDifficulty 0 BASE_FALL_SPEED BASE_SPAWN_RATE) [] in
  let r := mkTapResult gift 0 1 0 3
             (Some (mkEffect "bomb-trap" 0 (Some (-20)) 0)) in
  score (applyTapResult s r) == 0 /\ lives (applyTapResult s r) == 0.
Proof.
  cbv zeta.
  destruct (applyTapResult_clamps
              (mkGameState 10 1 120 1 0 0
                 (mkDifficulty 0 BASE_FALL_SPEED BASE_SPAWN_RATE) [])
              (mkTapResult gift 0 1 0 3
                 (Some (mkEffect "bomb-trap" 0 (Some (-20)) 0))))
    as (Hs & _ & Hl & _).
  - vm_compute; congruence.
  - vm_compute; congruence.
  - split; [rewrite Hs | rewrite Hl]; vm_compute; reflexivity.
Defined.

(** ** The golden-monad card *)

(** No tap puts a golden-monad effect on the active list: the card has
    duration 0 and [applyTapResult] only stores effects of positive
    duration. *)
Lemma createMagicCardEffect_golden (card : string) (w : World) :
  let e := eval (createMagicCardEffect card) w in
  is_type "golden-monad" e = true -> JS.gt (duration e) 0 = false.
Proof.
  cbv zeta. unfold eval, createMagicCardEffect, bind, ret, Date_now; cbn [fst].
  repeat match goal with
         | |- context [String.eqb card ?c] => destruct (String.eqb card c)
         end; cbn; congruence.
Qed.

Lemma existsb_filter_app {A} (p q : A -> bool) (l : list A) (x : A) :
  existsb p l = false -> p x = false ->
  existsb p (filter q l ++ [x]) = false.
Proof.
  intros Hl Hx. rewrite existsb_app. cbn. rewrite Hx.
  rewrite orb_false_r. 
  induction l as [|a l IH]; [reflexivity|].
  cbn in Hl. apply orb_false_elim in Hl as [Ha Hl].
  cbn. destruct (q a); cbn; [rewrite Ha|]; auto.
Qed.

Lemma tapStep_no_golden (s : GameState) (t : TapType)
    (card : option string) (w : World) :
  existsb (is_type "golden-monad") (activeEffects s) = false ->
  existsb (is_type "golden-monad")
          (activeEffects (eval (tapStep s t card) w)) = false.
Proof.
  intros H. unfold eval, tapStep.
  destruct t; cbn [processTap bind ret fst]; try exact H.
  unfold bind.
  destruct (createMagicCardEffect (JS.or_string card "time-freeze") w)
    as [e w'] eqn:E. cbn [fst ret].
  assert (He : is_type "golden-monad" e = true -> JS.gt (duration e) 0 = false).
  { replace e with (eval (createMagicCardEffect
                      (JS.or_string card "time-freeze")) w)
      by (unfold eval; rewrite E; reflexivity).
    apply createMagicCardEffect_golden. }
  unfold applyTapResult; cbn [effect].
  destruct (String.eqb (eff_type e) "extra-time"); [exact H|].
  destruct (String.eqb (eff_type e) "bomb-trap"); [exact H|].
  destruct (JS.gt (duration e) 0) eqn:Hd; [|exact H].
  cbn [set_activeEffects activeEffects].
  apply existsb_filter_app; [exact H|].
  destruct (is_type "golden-monad" e); [|reflexivity].
  specialize (He eq_refl). congruence.
Qed.

Lemma updateActiveEffects_no_golden (l : list ActiveEffect) (dt : Q)
    (w : World) :
  existsb (is_type "golden-monad") l = false ->
  existsb (is_type "golden-monad") (eval (updateActiveEffects l dt) w) = false.
Proof.
  unfold eval, updateActiveEffects, bind, ret, Date_now; cbn [fst].
  induction l as [|a l IH]; [reflexivity|].
  cbn [existsb map filter]. intros H.
  apply orb_false_elim in H as [Ha Hl].
  match goal with |- context [if ?c then _ else _] => destruct c end.
  - cbn [existsb]. unfold is_type at 1; cbn [eff_type].
    unfold is_type in Ha. rewrite Ha. cbn. apply IH, Hl.
  - apply IH, Hl.
Qed.

Lemma updateGameState_effects (s : GameState) (dt : Q) (w : World) :
  activeEffects (eval (updateGameState s dt) w) =
  eval (updateActiveEffects (activeEffects s) dt) (snd (Date_now w)).
Proof.
  unfold updateGameState. rewrite eval_bind, eval_bind. reflexivity.
Qed.

Lemma reachable_no_golden (s : GameState) :
  reachable s -> existsb (is_type "golden-monad") (activeEffects s) = false.
Proof.
  induction 1 as [w | s t card w Hs IH | s dt w Hs IH].
  - reflexivity.
  - apply tapStep_no_golden, IH.
  - rewrite updateGameState_effects.
    apply updateActiveEffects_no_golden, IH.
Qed.

(** In a reachable state a logo tap is never tripled: it scores 10 * combo. *)
Lemma reachable_logo_points (s : GameState) (card : option string)
    (w : World) :
  reachable s ->
  points (eval (processTap s logo card) w) = BASE_POINTS * combo s.
Proof.
  intros Hs. unfold eval; cbn [processTap ret fst].
  rewrite (reachable_no_golden s Hs). reflexivity.
Qed.

(** Were a golden-monad effect on the list, a logo tap would not take it off:
    every later logo tap would be tripled as well. *)
Lemma logo_tap_keeps_effects (s : GameState) (card : option string)
    (w : World) :
  activeEffects (eval (tapStep s logo card) w) = activeEffects s.
Proof. reflexivity. Qed.

(** C3 (the code departs from it): after a gift tap revealing the
    golden-monad card the active-effect list is still empty, and the logo tap
    that follows scores 10, not 30. *)
Theorem golden_monad_gift_is_lost (w : World) :
  let run taps := eval (s0 <- createInitialGameState ;; foldTaps taps s0) w in
  let s1 := run [(gift, Some "golden-monad"%string)] in
  let s2 := run [(gift, Some "golden-monad"%string); (logo, None)] in
  activeEffects s1 = [] /\ score s1 == 0 /\ score s2 == 10.
Proof.
  cbv zeta. repeat split; vm_compute; reflexivity.
Qed.

(** ** Hit testing *)

(** Closed comparisons of rationals, by evaluation. *)
Ltac qdec := vm_compute; first [reflexivity | discriminate].

Lemma Qle_bool_true (a b : Q) : a <= b -> Qle_bool a b = true.
Proof. apply Qle_bool_iff. Qed.

(** C10: a point on an edge of a box (of non-negative width and height) is
    inside it: all four comparisons of [pointInAABB] are inclusive. *)
Theorem pointInAABB_edges_inclusive (b : Physics.AABB) (p : Physics.Vector2) :
  0 <= Physics.width b -> 0 <= Physics.height b ->
  ((Physics.x p == Physics.box_x b - Physics.width b / 2 \/
    Physics.x p == Physics.box_x b + Physics.width b / 2) /\
   Physics.box_y b - Physics.height b / 2 <= Physics.y p /\
   Physics.y p <= Physics.box_y b + Physics.height b / 2) \/
  ((Physics.y p == Physics.box_y b - Physics.height b / 2 \/
    Physics.y p == Physics.box_y b + Physics.height b / 2) /\
   Physics.box_x b - Physics.width b / 2 <= Physics.x p /\
   Physics.x p <= Physics.box_x b + Physics.width b / 2) ->
  Physics.pointInAABB p b = true.
Proof.
  intros Hw Hh Hedge.
  unfold Physics.pointInAABB, JS.ge, JS.le.
  assert (Hw2 : 0 <= Physics.width b / 2)
    by (apply Qle_shift_div_l; [reflexivity | lra]).
  assert (Hh2 : 0 <= Physics.height b / 2)
    by (apply Qle_shift_div_l; [reflexivity | lra]).
  set (hw := Physics.width b / 2) in *.
  set (hh := Physics.height b / 2) in *.
  repeat rewrite andb_true_iff.
  destruct Hedge as [[[E|E] [H1 H2]] | [[E|E] [H1 H2]]];
    repeat split; apply Qle_bool_true; try rewrite E; lra.
Qed.

Lemma pointInAABB_edges_inclusive_witness :
  let b := Physics.mkAABB 100 50 60 60 in
  Physics.pointInAABB (Physics.mkVector2 70 50) b = true /\
  Physics.pointInAABB (Physics.mkVector2 130 80) b = true /\
  Physics.pointInAABB (Physics.mkVector2 100 20) b = true.
Proof.
  cbv zeta. refine (conj _ (conj _ _)).
  - apply pointInAABB_edges_inclusive; [qdec | qdec |].
    left. split; [left; qdec | split; qdec].
  - apply pointInAABB_edges_inclusive; [qdec | qdec |].
    left. split; [right; qdec | split; qdec].
  - apply pointInAABB_edges_inclusive; [qdec | qdec |].
    right. split; [left; qdec | split; qdec].
Defined.

(** ** Tap resolution *)

Section ReadOnly.

Import Physics.

Variable h : Heap.

(** A predicate that only reads the heap filters like [List.filter] and
    leaves the heap as it was. *)
Lemma filterM_reads (pred : Ref -> H bool) (p : Ref -> bool) :
  (forall r, pred r h = (p r, h)) ->
  forall l, filterM pred l h = (filter p l, h).
Proof.
  intros Hp. induction l as [|r rest IH]; [reflexivity|].
  cbn [filterM filter]. unfold bind. rewrite Hp, IH.
  destruct (p r); reflexivity.
Qed.

Variable compare : Ref -> Ref -> H Q.
Variable key : Ref -> Q.
Hypothesis compare_reads : forall a b, compare a b h = (key b - key a, h).

Lemma insertM_reads (a : Ref) (sorted : list Ref) :
  exists res, insertM compare a sorted h = (res, h).
Proof.
  induction sorted as [|b rest IH]; cbn [insertM].
  - exists [a]; reflexivity.
  - unfold bind. rewrite compare_reads.
    destruct (JS.le (key b - key a) 0); [eexists; reflexivity|].
    destruct IH as [res ->]. eexists; reflexivity.
Qed.

Lemma insertM_head (a : Ref) (l sorted : list Ref) :
  head_max key l sorted ->
  exists res, insertM compare a sorted h = (res, h) /\
              head_max key (a :: l) res.
Proof.
  destruct sorted as [|b rest]; cbn [head_max insertM].
  - intros ->. exists [a]. split; [reflexivity|].
    cbn. split; [auto|]. intros r [<-|[]]. apply Qle_refl.
  - intros [Hb Hmax]. unfold bind. rewrite compare_reads.
    unfold JS.le. destruct (Qle_bool (key b - key a) 0) eqn:E.
    + exists (a :: b :: rest). split; [reflexivity|].
      apply Qle_bool_iff in E.
      cbn. split; [auto|]. intros r [<-|Hr]; [apply Qle_refl|].
      specialize (Hmax r Hr). lra.
    + assert (Hlt : ~ key b - key a <= 0).
      { intros C. apply Qle_bool_iff in C. congruence. }
      destruct (insertM_reads a rest) as [res ->].
      exists (b :: res). split; [reflexivity|].
      cbn. split; [auto|]. intros r [<-|Hr]; [|apply Hmax, Hr].
      apply Qnot_le_lt in Hlt. lra.
Qed.

Lemma sortM_head (l : list Ref) :
  exists res, sortM compare l h = (res, h) /\ head_max key l res.
Proof.
  induction l as [|a rest IH]; cbn [sortM].
  - exists []. split; reflexivity.
  - destruct IH as (sorted & Hs & Hm). unfold bind. rewrite Hs.
    apply insertM_head, Hm.
Qed.

End ReadOnly.

Lemma filter_nil_none {A} (p : A -> bool) (l : list A) :
  filter p l = [] -> forall a, In a l -> p a = false.
Proof.
  intros Hnil a Ha. destruct (p a) eqn:E; [|reflexivity].
  assert (Hin : In a (filter p l)) by (apply filter_In; auto).
  rewrite Hnil in Hin. destruct Hin.
Qed.

(** C8: [findTappedObjects] leaves the heap as it found it and returns
    either nothing, when no object of the list is hit, or exactly one hit
    object of the list whose priority no hit object exceeds, priorities
    being ordered gift > logo > glitch > bomb. *)
Theorem findTappedObjects_priority (h : Physics.Heap)
    (objects : list Physics.Ref) (tap : Physics.Vector2) :
  exists res,
    Physics.findTappedObjects objects tap h = (res, h) /\
    (List.length res <= 1)%nat /\
    ((res = [] /\
      forall r, In r objects -> Physics.isHit h tap r = false) \/
     (exists m, res = [m] /\ In m objects /\ Physics.isHit h tap m = true /\
        forall r, In r objects -> Physics.isHit h tap r = true ->
          Physics.priorityOrder (Physics.type (h r)) <=
          Physics.priorityOrder (Physics.type (h m)))) /\
    Physics.priorityOrder Physics.bomb < Physics.priorityOrder Physics.glitch /\
    Physics.priorityOrder Physics.glitch < Physics.priorityOrder Physics.logo /\
    Physics.priorityOrder Physics.logo < Physics.priorityOrder Physics.gift.
Proof.
  unfold Physics.findTappedObjects. unfold bind at 1.
  rewrite (filterM_reads h _ (Physics.isHit h tap)) by reflexivity.
  destruct (filter (Physics.isHit h tap) objects) as [|t ts] eqn:Hf.
  - exists []. cbn. repeat split; try qdec; auto.
    left. split; [reflexivity|]. apply filter_nil_none, Hf.
  - cbn [List.length Nat.eqb].
    destruct (sortM_head h
                (fun a b => oa <- Physics.deref a ;;
                            ob <- Physics.deref b ;;
                            ret (Physics.priorityOrder (Physics.type ob) -
                                 Physics.priorityOrder (Physics.type oa)))
                (fun r => Physics.priorityOrder (Physics.type (h r)))
                (fun a b => eq_refl) (t :: ts)) as (sorted & Hs & Hm).
    unfold bind at 1. rewrite Hs.
    destruct sorted as [|m rest]; [discriminate Hm|].
    destruct Hm as [Hin Hmax]. rewrite <- Hf in Hin, Hmax.
    apply filter_In in Hin as [Hin Hhit].
    exists [m]. cbn [firstn ret]. repeat split; try qdec; auto.
    right. exists m. repeat split; auto.
    intros r Hr Hrhit. apply Hmax, filter_In. auto.
Qed.

(** The scenario of the specification: a gift, a bomb and a logo overlap at
    the tap point; the tap resolves to the gift and nothing is written. *)
Example overlapping_gift_bomb_logo :
  let obj t := Physics.mkGameObject EmptyString t
                 (Physics.mkVector2 100 100) (Physics.mkVector2 0 100)
                 (Physics.mkVector2 60 60) (Physics.mkAABB 100 100 60 60)
                 0 true None in
  let h : Physics.Heap := fun r =>
    match r with
    | 0%nat => obj Physics.bomb
    | 1%nat => obj Physics.gift
    | _ => obj Physics.logo
    end in
  eval (Physics.findTappedObjects [0; 1; 2]%nat (Physics.mkVector2 110 90)) h
  = [1%nat].
Proof. reflexivity. Qed.

Lemma findTappedObjects_reads (h : Physics.Heap)
    (objects : list Physics.Ref) (tap : Physics.Vector2) :
  exists res, Physics.findTappedObjects objects tap h = (res, h).
Proof.
  unfold Physics.findTappedObjects. unfold bind at 1.
  rewrite (filterM_reads h _ (Physics.isHit h tap)) by reflexivity.
  destruct (filter (Physics.isHit h tap) objects) as [|t ts].
  - exists []. reflexivity.
  - cbn [List.length Nat.eqb].
    destruct (sortM_head h
                (fun a b => oa <- Physics.deref a ;;
                            ob <- Physics.deref b ;;
                            ret (Physics.priorityOrder (Physics.type ob) -
                                 Physics.priorityOrder (Physics.type oa)))
                (fun r => Physics.priorityOrder (Physics.type (h r)))
                (fun a b => eq_refl) (t :: ts)) as (sorted & Hs & _).
    unfold bind at 1. rewrite Hs. eexists. reflexivity.
Qed.

(** A tap consumes at most the one object it resolves to: every other object
    of the heap, overlapping or not, is left as it was. *)
Lemma resolveTap_consumes_one (h : Physics.Heap)
    (objects : list Physics.Ref) (tap : Physics.Vector2) :
  let h' := snd (Physics.resolveTap objects tap h) in
  h' = h \/
  exists target,
    h' target = Physics.set_isActive (h target) false /\
    forall r, r <> target -> h' r = h r.
Proof.
  destruct (findTappedObjects_reads h objects tap) as [res Hres].
  assert (E : snd (Physics.resolveTap objects tap h) =
              match res with
              | [] => h
              | target :: _ =>
                  fun r => if Nat.eqb r target
                           then Physics.set_isActive (h target) false
                           else h r
              end).
  { unfold Physics.resolveTap. unfold bind at 1. rewrite Hres.
    destruct res; reflexivity. }
  cbv zeta. rewrite E. destruct res as [|target rest]; [left; reflexivity|].
  right. exists target. split.
  - rewrite Nat.eqb_refl. reflexivity.
  - intros r Hr. apply Nat.eqb_neq in Hr. rewrite Hr. reflexivity.
Qed.

Example overlapping_tap_consumes_gift :
  let obj t := Physics.mkGameObject EmptyString t
                 (Physics.mkVector2 100 100) (Physics.mkVector2 0 100)
                 (Physics.mkVector2 60 60) (Physics.mkAABB 100 100 60 60)
                 0 true None in
  let h : Physics.Heap := fun r =>
    match r with
    | 0%nat => obj Physics.bomb
    | 1%nat => obj Physics.gift
    | _ => obj Physics.logo
    end in
  let (res, h') :=
    Physics.resolveTap [0; 1; 2]%nat (Physics.mkVector2 110 90) h in
  fst (fst res) = gift /\
  map (fun r => Physics.isActive (h' r)) [0; 1; 2]%nat = [true; false; true].
Proof. cbv zeta. split; reflexivity. Qed.

(** ** Spawning *)

Lemma next_range (st : Z) :
  (0 <= fst (Rng.next st) < JS.two32)%Z.
Proof.
  unfold Rng.next; cbn [fst]. unfold JS.ushr, JS.ToUint32.
  rewrite Z.shiftr_0_r. apply Z.mod_pos_bound. reflexivity.
Qed.

Lemma nextFloat_range (st : Z) :
  0 <= fst (Rng.nextFloat st) /\ fst (Rng.nextFloat st) < 1.
Proof.
  unfold Rng.nextFloat, bind, ret.
  pose proof (next_range st) as Hr.
  destruct (Rng.next st) as [n st']; cbn [fst] in *.
  unfold JS.two32 in *. split.
  - apply Qle_shift_div_l; [reflexivity|].
    rewrite Qmult_0_l. change 0 with (inject_Z 0). rewrite <- Zle_Qle. lia.
  - apply Qlt_shift_div_r; [reflexivity|].
    rewrite Qmult_1_l. rewrite <- Zlt_Qlt. lia.
Qed.

(** [nextInt(2, 4)] is 2 or 3: the upper bound is exclusive. *)
Lemma nextInt_2_4 (st : Z) :
  Spawn.iterations (fst (Rng.nextInt 2 4 st)) = 2%nat \/
  Spawn.iterations (fst (Rng.nextInt 2 4 st)) = 3%nat.
Proof.
  unfold Rng.nextInt, bind, ret.
  pose proof (nextFloat_range st) as [H0 H1].
  destruct (Rng.nextFloat st) as [f st']; cbn [fst] in *.
  unfold Spawn.iterations, JS.Math_floor.
  assert (Hk : (0 <= Qfloor (f * (4 - 2)) < 2)%Z).
  { split.
    - change 0%Z with (Qfloor 0). apply Qfloor_resp_le. lra.
    - assert (Hlt : inject_Z (Qfloor (f * (4 - 2))) < inject_Z 2).
      { eapply Qle_lt_trans; [apply Qfloor_le|].
        change (inject_Z 2) with 2. lra. }
      rewrite <- Zlt_Qlt in Hlt. exact Hlt. }
  set (k := Qfloor (f * (4 - 2))) in *.
  assert (Hc : Qceiling (inject_Z k + 2) = (k + 2)%Z).
  { rewrite <- (Qceiling_Z (k + 2)). apply Qceiling_comp.
    rewrite inject_Z_plus. reflexivity. }
  rewrite Hc.
  assert (Hcase : k = 0%Z \/ k = 1%Z) by lia.
  destruct Hcase as [-> | ->]; [left | right]; reflexivity.
Qed.

Lemma pushEach_length {A} (n : nat) (body : Spawn.Sp A) :
  forall s, List.length (fst (Spawn.pushEach n body s)) = n.
Proof.
  induction n as [|n IH]; intros s; [reflexivity|].
  cbn [Spawn.pushEach]. unfold bind at 1. destruct (body s) as [obj s1].
  unfold bind at 1. specialize (IH s1).
  destruct (Spawn.pushEach n body s1) as [objs s2]. cbn in *. lia.
Qed.

Lemma spawnObjects_iterations (mult : Q) (sm : Spawn.SpawnManager)
    (w : World) :
  List.length (fst (Spawn.spawnObjects mult (sm, w))) =
    if JS.gt mult 2
    then Spawn.iterations (fst (Rng.nextInt 2 4 (Spawn.rng sm)))
    else 1%nat.
Proof.
  unfold Spawn.spawnObjects.
  destruct (JS.gt mult 2).
  - unfold bind at 1. unfold Spawn.draw.
    destruct (Rng.nextInt 2 4 (Spawn.rng sm)) as [c st]; cbn [fst].
    apply pushEach_length.
  - unfold bind at 1, ret at 1. apply pushEach_length.
Qed.

Lemma spawnObjects_length (mult : Q) (sm : Spawn.SpawnManager) (w : World) :
  let n := List.length (fst (Spawn.spawnObjects mult (sm, w))) in
  if JS.gt mult 2 then n = 2%nat \/ n = 3%nat else n = 1%nat.
Proof.
  cbv zeta. rewrite spawnObjects_iterations.
  destruct (JS.gt mult 2); [apply nextInt_2_4 | reflexivity].
Qed.

Lemma update_objects (currentTime : Q) (m : Spawn.Modifiers)
    (sm : Spawn.SpawnManager) (w : World) :
  eval (Spawn.update currentTime m) (sm, w) =
    if Spawn.timeFrozen m then []
    else if JS.ge (currentTime - Spawn.lastSpawnTime sm)
                  (Spawn.nextSpawnDelay sm)
         then fst (Spawn.spawnObjects (Spawn.mod_spawnRate m) (sm, w))
         else [].
Proof.
  unfold eval, Spawn.update.
  destruct (Spawn.timeFrozen m); [reflexivity|].
  unfold bind at 1. cbn [Spawn.this].
  destruct (JS.ge _ _); [|reflexivity].
  unfold bind at 1.
  destruct (Spawn.spawnObjects (Spawn.mod_spawnRate m) (sm, w)) as [objs s1].
  unfold bind at 1. destruct (Spawn.set_lastSpawnTime currentTime s1) as [u s2].
  unfold bind at 1. destruct (Spawn.calculateNextSpawn s2) as [u' s3].
  reflexivity.
Qed.

(** C9: under time-freeze [update] spawns nothing; otherwise, once the time
    since the last spawn has reached the next-spawn delay, it spawns exactly
    one object for a multiplier of at most 2 and a burst of 2 to 4 objects
    (in fact 2 or 3) for a multiplier above 2. *)
Theorem spawn_count (sm : Spawn.SpawnManager) (w : World) (currentTime : Q)
    (m : Spawn.Modifiers) :
  let objects := eval (Spawn.update currentTime m) (sm, w) in
  (Spawn.timeFrozen m = true -> objects = []) /\
  (Spawn.timeFrozen m = false ->
   Spawn.nextSpawnDelay sm <= currentTime - Spawn.lastSpawnTime sm ->
   (Spawn.mod_spawnRate m <= 2 -> List.length objects = 1%nat) /\
   (2 < Spawn.mod_spawnRate m ->
      (2 <= List.length objects <= 4)%nat /\
      (List.length objects <= 3)%nat)).
Proof.
  cbv zeta. rewrite update_objects. split.
  - intros ->. reflexivity.
  - intros -> Hdue. unfold JS.ge.
    rewrite (Qle_bool_true _ _ Hdue).
    pose proof (spawnObjects_length (Spawn.mod_spawnRate m) sm w) as Hn.
    cbv zeta in Hn. unfold JS.gt in Hn. split.
    + intros Hle. rewrite (Qle_bool_true _ _ Hle) in Hn. exact Hn.
    + intros Hgt.
      destruct (Qle_bool (Spawn.mod_spawnRate m) 2) eqn:E.
      * apply Qle_bool_iff in E. lra.
      * cbn [negb] in Hn. lia.
Qed.

Lemma spawn_count_witness :
  let config := Spawn.mkSpawnConfig 800 600 (Physics.mkVector2 60 60) 100 1.5 in
  let sm := Spawn.new_SpawnManager (Rng.createSessionRNG "s1" 1000000) config in
  let w := mkWorld (fun _ => 1000000) (fun _ => EmptyString) in
  List.length (eval (Spawn.update 1000 (Spawn.mkModifiers 1 false)) (sm, w))
    = 1%nat /\
  (2 <= List.length
          (eval (Spawn.update 1000 (Spawn.mkModifiers 3 false)) (sm, w))
     <= 4)%nat /\
  eval (Spawn.update 1000 (Spawn.mkModifiers 3 true)) (sm, w) = [].
Proof.
  cbv zeta. refine (conj _ (conj _ _)).
  - apply spawn_count; [reflexivity | qdec | qdec].
  - apply spawn_count; [reflexivity | qdec | qdec].
  - apply spawn_count; reflexivity.
Defined.

(** Both burst sizes occur; a burst of four does not. *)
Example spawn_burst_sizes :
  let config := Spawn.mkSpawnConfig 800 600 (Physics.mkVector2 60 60) 100 1.5 in
  let w := mkWorld (fun _ => 1000000) (fun _ => EmptyString) in
  let burst seed :=
    List.length (eval (Spawn.update 1000 (Spawn.mkModifiers 3 false))
                      (Spawn.new_SpawnManager seed config, w)) in
  burst 1%Z = 2%nat /\ burst (Rng.createSessionRNG "s1" 1000000) = 2%nat /\
  burst 2463534242%Z = 3%nat.
Proof. cbv zeta. repeat split; vm_compute; reflexivity. Qed.

(** ** Replay equivalence *)

Lemma same_effect_exists (name : string) (l1 l2 : list ActiveEffect) :
  Forall2 Replay.same_effect l1 l2 ->
  existsb (is_type name) l1 = existsb (is_type name) l2.
Proof.
  induction 1 as [|e1 e2 l1 l2 (Ht & _ & _) _ IH]; [reflexivity|].
  cbn [existsb]. unfold is_type at 1 3. rewrite Ht, IH. reflexivity.
Qed.

Lemma same_effect_filter (name : string) (l1 l2 : list ActiveEffect) :
  Forall2 Replay.same_effect l1 l2 ->
  Forall2 Replay.same_effect
    (filter (fun x => negb (String.eqb (eff_type x) name)) l1)
    (filter (fun x => negb (String.eqb (eff_type x) name)) l2).
Proof.
  induction 1 as [|e1 e2 l1 l2 He _ IH]; [constructor|].
  cbn [filter]. destruct He as (Ht & Hd & Hv). rewrite Ht.
  destruct (negb (String.eqb (eff_type e2) name)); [|exact IH].
  constructor; [repeat split; assumption | exact IH].
Qed.

Lemma createMagicCardEffect_same (card : string) (w1 w2 : World) :
  Replay.same_effect (eval (createMagicCardEffect card) w1)
                     (eval (createMagicCardEffect card) w2).
Proof.
  unfold eval, createMagicCardEffect, bind, ret, Date_now; cbn [fst].
  repeat match goal with
         | |- context [String.eqb card ?c] => destruct (String.eqb card c)
         end; repeat split.
Qed.

Lemma processTap_same (s1 s2 : GameState) (t : TapType)
    (card : option string) (w1 w2 : World) :
  Replay.same_play s1 s2 ->
  Replay.same_result (eval (processTap s1 t card) w1)
                     (eval (processTap s2 t card) w2).
Proof.
  intros (Hsc & Hl & Htl & Hc & Hk & Hd & Hfx).
  destruct t; unfold eval; cbn [processTap ret fst].
  - rewrite (same_effect_exists _ _ _ Hfx), Hc, Hk. repeat split.
  - repeat split.
  - rewrite !eval_bind_fst. cbn [ret fst]. rewrite Hc, Hk.
    repeat split; cbn [effect]; apply createMagicCardEffect_same.
  - repeat split.
  - repeat split.
Qed.

Lemma applyTapResult_same (s1 s2 : GameState) (r1 r2 : TapResult) :
  Replay.same_play s1 s2 -> Replay.same_result r1 r2 ->
  Replay.same_play (applyTapResult s1 r1) (applyTapResult s2 r2).
Proof.
  intros (Hsc & Hl & Htl & Hc & Hk & Hd & Hfx)
         (Ht & Hp & Hnc & Hns & Hll & He).
  unfold applyTapResult.
  rewrite Hsc, Hl, Htl, Hd, Hp, Hnc, Hns, Hll.
  destruct (effect r1) as [e1|], (effect r2) as [e2|]; try contradiction.
  - destruct He as (Het & Hed & Hev). rewrite Het, Hed, Hev.
    destruct (String.eqb (eff_type e2) "extra-time");
      [repeat split; assumption|].
    destruct (String.eqb (eff_type e2) "bomb-trap");
      [repeat split; assumption|].
    destruct (JS.gt (duration e2) 0); [|repeat split; assumption].
    repeat split; cbn [set_activeEffects activeEffects].
    apply Forall2_app.
    + apply same_effect_filter, Hfx.
    + constructor; [repeat split; assumption | constructor].
  - repeat split; assumption.
Qed.

Lemma replayTaps_same (startTime : Q) (tapHistory : list Replay.TapEvent) :
  forall s1 s2 w1 w2,
    Replay.same_play s1 s2 ->
    Replay.same_play (eval (Replay.replayTaps startTime tapHistory s1) w1)
                     (eval (Replay.replayTaps startTime tapHistory s2) w2).
Proof.
  induction tapHistory as [|tap rest IH]; intros s1 s2 w1 w2 Hs;
    cbn [Replay.replayTaps]; [exact Hs|].
  destruct (JS.lt (Replay.timestamp tap) startTime ||
            JS.gt (Replay.timestamp tap) (startTime + 120000)).
  - apply IH, Hs.
  - rewrite !eval_bind. apply IH, applyTapResult_same; [exact Hs|].
    apply processTap_same, Hs.
Qed.

Lemma replayTaps_ignores_position (startTime : Q)
    (elsewhere : Replay.TapEvent -> Physics.Vector2)
    (tapHistory : list Replay.TapEvent) :
  forall s w,
    Replay.replayTaps startTime
      (map (fun tap => Replay.mkTapEvent (Replay.timestamp tap)
                         (elsewhere tap) (Replay.result tap)) tapHistory) s w
    = Replay.replayTaps startTime tapHistory s w.
Proof.
  induction tapHistory as [|tap rest IH]; intros s w; [reflexivity|].
  cbn [map Replay.replayTaps Replay.timestamp Replay.result].
  destruct (JS.lt _ _ || JS.gt _ _); [apply IH|].
  unfold bind. destruct (processTap s (Replay.result tap) None w).
  apply IH.
Qed.

Lemma foldTaps_same (taps : list (TapType * option string)) :
  forall s1 s2 w1 w2,
    Replay.same_play s1 s2 ->
    Replay.same_play (eval (foldTaps taps s1) w1) (eval (foldTaps taps s2) w2).
Proof.
  induction taps as [|[t card] rest IH]; intros s1 s2 w1 w2 Hs;
    cbn [foldTaps]; [exact Hs|].
  rewrite !eval_bind. apply IH. unfold tapStep. rewrite !eval_bind.
  apply applyTapResult_same; [exact Hs|]. apply processTap_same, Hs.
Qed.

Lemma same_play_outcome (s1 s2 : GameState) :
  Replay.same_play s1 s2 -> Replay.outcome s1 = Replay.outcome s2.
Proof.
  intros (Hsc & Hl & _ & Hc & Hk & _).
  unfold Replay.outcome. rewrite Hsc, Hl, Hc, Hk. reflexivity.
Qed.

Lemma initial_same_play (w1 w2 : World) :
  Replay.same_play (eval createInitialGameState w1)
                   (eval createInitialGameState w2).
Proof. repeat split. constructor. Qed.

(** C1: two runs of the server replay on the same session id, start time and
    tap history end with the same score, lives, combo and streak, whatever
    the clocks of the two runs read and wherever the taps are positioned;
    and so do two runs of the plain fold of a tap sequence from the initial
    state. *)
Theorem replay_equivalence (sessionId : string) (startTime : Q)
    (tapHistory : list Replay.TapEvent) (w1 w2 : World)
    (elsewhere : Replay.TapEvent -> Physics.Vector2) :
  Replay.outcome
    (eval (Replay.resimulate sessionId startTime tapHistory) w1) =
  Replay.outcome
    (eval (Replay.resimulate sessionId startTime
             (map (fun tap => Replay.mkTapEvent (Replay.timestamp tap)
                                (elsewhere tap) (Replay.result tap))
                  tapHistory)) w2)
  /\
  (forall taps : list (TapType * option string),
     Replay.outcome
       (eval (s0 <- createInitialGameState ;; foldTaps taps s0) w1) =
     Replay.outcome
       (eval (s0 <- createInitialGameState ;; foldTaps taps s0) w2)).
Proof.
  split.
  - unfold Replay.resimulate; cbv zeta. rewrite !eval_bind.
    unfold eval at 1 3. rewrite replayTaps_ignores_position.
    fold (@eval World GameState).
    apply same_play_outcome, replayTaps_same, initial_same_play.
  - intros taps. rewrite !eval_bind.
    apply same_play_outcome, foldTaps_same, initial_same_play.
Qed.

(** A replayed session: six logos and a bomb inside the window, one tap
    after it, under two different clocks. *)
Example replay_six_logos_bomb :
  let tap t k := Replay.mkTapEvent (1000000 + t) (Physics.mkVector2 0 0) k in
  let history := map (fun t => tap t logo) [200; 400; 600; 800; 1000; 1200]
                 ++ [tap 1400 bomb; tap 200000 logo] in
  Replay.outcome
    (eval (Replay.resimulate "s1" 1000000 history)
          (mkWorld (fun _ => 1000000) (fun _ => EmptyString)))
  = Replay.outcome
    (eval (Replay.resimulate "s1" 1000000 history)
          (mkWorld (fun n => 5 + inject_Z (Z.of_nat n)) (fun _ => EmptyString)))
  /\
  Qeq_bool (score (eval (Replay.resimulate "s1" 1000000 history)
                     (mkWorld (fun _ => 0) (fun _ => EmptyString)))) 65
  = true.
Proof. cbv zeta. split; vm_compute; reflexivity. Qed.

(** ** The two state hashes *)

(** The SHA-256 model on the test vectors of the standard. *)
Example sha256_empty :
  SHA256.hexdigest [] =
  "e3b0c44298fc1c149afbf4c8996fb92427ae41e4649b934ca495991b7852b855"%string.
Proof. vm_compute. reflexivity. Qed.

Example sha256_abc :
  SHA256.hexdigest (JS.charCodes "abc") =
  "ba7816bf8f01cfea414140de5dae2223b00361a396177a9cb410ff61f20015ad"%string.
Proof. vm_compute. reflexivity. Qed.

Example sha256_two_blocks :
  SHA256.hexdigest
    (JS.charCodes "abcdbcdecdefdefgefghfghighijhijkijkljklmklmnlmnomnopnopq") =
  "248d6a61d20638b8e5c026930c3e6039a33ce45964ff2167f6ecedd419db06c1"%string.
Proof. vm_compute. reflexivity. Qed.

(** The generator on the published xorshift32 example and on seed 1. *)
Example xorshift32_first_draws :
  eval Rng.next 2463534242%Z = 723471715%Z /\ eval Rng.next 1%Z = 270369%Z.
Proof. split; reflexivity. Qed.

Lemma string_length_append (a b : string) :
  String.length (a ++ b) = (String.length a + String.length b)%nat.
Proof. induction a as [|c a IH]; cbn; [reflexivity | rewrite IH; reflexivity]. Qed.

Lemma hex_digits_length (fuel : nat) :
  forall n, (String.length (StateHash.hex_digits fuel n) <= fuel)%nat.
Proof.
  induction fuel as [|fuel IH]; intros n; cbn [StateHash.hex_digits].
  - apply Nat.le_refl.
  - destruct (n <? 16)%Z; cbn [String.length]; [lia|].
    rewrite string_length_append. cbn [String.length].
    specialize (IH (n / 16)%Z). lia.
Qed.

(** The client hash is a signed 32-bit integer in base 16: at most a sign
    and eight digits. *)
Lemma calculateStateHash_length (s : GameState) :
  (String.length (StateHash.calculateStateHash s) <= 9)%nat.
Proof.
  unfold StateHash.calculateStateHash, StateHash.toString16.
  match goal with |- context [if ?c then _ else _] => destruct c end;
    cbn [String.length];
    match goal with
    | |- context [StateHash.hex_digits 8 ?n] =>
        pose proof (hex_digits_length 8 n)
    end; lia.
Qed.

(** The server hash is the first sixteen digits of a SHA-256 digest. *)
Lemma generateStateHash_length (s : GameState) (n : Q) :
  String.length (StateHash.generateStateHash s n) = 16%nat.
Proof.
  unfold StateHash.generateStateHash, SHA256.hexdigest, SHA256.hex8.
  reflexivity.
Qed.

(** C2 (the code departs from it): for the initial state and no action the
    client computes -40b630ec and the server 72b28b855ea02eec; the two
    functions digest different fields by different algorithms and agree on
    no state at all. *)
Theorem state_hashes_never_agree :
  (let s0 := mkGameState 0 5 120 1 0 0
               (mkDifficulty 0 BASE_FALL_SPEED BASE_SPAWN_RATE) [] in
   StateHash.calculateStateHash s0 = "-40b630ec"%string /\
   StateHash.generateStateHash s0 0 = "72b28b855ea02eec"%string) /\
  (forall (s : GameState) (actionCount : Q),
     StateHash.calculateStateHash s <>
     StateHash.generateStateHash s actionCount).
Proof.
  split.
  - cbv zeta. split; vm_compute; reflexivity.
  - intros s n Heq.
    pose proof (calculateStateHash_length s) as Hc.
    rewrite Heq, generateStateHash_length in Hc. lia.
Qed.

(** * Further properties of the code *)

(** ** The generator's ranges *)

Lemma nextInt_bounds (min max : Q) (st : Z) :
  min < max ->
  min <= eval (Rng.nextInt min max) st /\ eval (Rng.nextInt min max) st < max /\
  exists k : Z, (0 <= k)%Z /\ eval (Rng.nextInt min max) st = inject_Z k + min.
Proof.
  intros Hlt. unfold eval, Rng.nextInt, bind, ret.
  pose proof (nextFloat_range st) as [H0 H1].
  destruct (Rng.nextFloat st) as [f st']; cbn [fst] in *.
  unfold JS.Math_floor.
  assert (Hd : 0 < max - min) by lra.
  assert (Hprod0 : 0 <= f * (max - min)) by (apply Qmult_le_0_compat; lra).
  assert (Hprod1 : f * (max - min) < max - min).
  { setoid_replace (max - min) with (1 * (max - min)) at 2 by ring.
    apply Qmult_lt_compat_r; assumption. }
  assert (Hk0 : (0 <= Qfloor (f * (max - min)))%Z).
  { change 0%Z with (Qfloor 0). apply Qfloor_resp_le, Hprod0. }
  pose proof (Qfloor_le (f * (max - min))) as Hfl.
  assert (Hq0 : 0 <= inject_Z (Qfloor (f * (max - min)))).
  { change 0 with (inject_Z 0). rewrite <- Zle_Qle. exact Hk0. }
  repeat split; try lra.
  exists (Qfloor (f * (max - min))). split; [exact Hk0 | reflexivity].
Qed.





Lemma index_at_nat {T} (array : list T) (k : Z) :
  (0 <= k)%Z -> Rng.index array (inject_Z k + 0) = nth_error array (Z.to_nat k).
Proof.
  intros Hk. unfold Rng.index.
  assert (Hf : Qfloor (inject_Z k + 0) = k).
  { rewrite <- (Qfloor_Z k) at 2. apply Qfloor_comp. ring. }
  rewrite Hf.
  assert (H0 : Qle_bool 0 (inject_Z k + 0) = true).
  { apply Qle_bool_iff. rewrite Qplus_0_r. change 0 with (inject_Z 0).
    rewrite <- Zle_Qle. exact Hk. }
  assert (H1 : Qeq_bool (inject_Z k + 0) (inject_Z k) = true).
  { apply Qeq_bool_iff. ring. }
  rewrite H0, H1. reflexivity.
Qed.

Lemma choice_nonempty {T} (array : list T) (st : Z) :
  array <> [] ->
  exists x, eval (Rng.choice array) st = Some x /\ In x array.
Proof.
  intros Hne. unfold Rng.choice. rewrite eval_bind. cbn [ret eval fst].
  assert (Hlen : 0 < inject_Z (Z.of_nat (List.length array))).
  { change 0 with (inject_Z 0). rewrite <- Zlt_Qlt.
    destruct array; [congruence | cbn [List.length]; lia]. }
  destruct (nextInt_bounds 0 _ st Hlen) as (_ & Hhi & k & Hk & Hv).
  unfold eval in *. rewrite Hv in *. rewrite index_at_nat by exact Hk.
  assert (Hkl : (k < Z.of_nat (List.length array))%Z).
  { rewrite Zlt_Qlt. setoid_replace (inject_Z k) with (inject_Z k + 0) by ring.
    exact Hhi. }
  destruct (nth_error array (Z.to_nat k)) as [x|] eqn:E.
  - exists x. split; [reflexivity | eapply nth_error_In, E].
  - apply nth_error_None in E. lia.
Qed.

(** X2: [choice] on a non-empty array returns one of its elements, never
    [undefined]; on the empty array it returns [undefined]; and
    [magicCard()] always returns one of the nine cards. *)
Theorem choice_in_array (st : Z) :
  (forall (T : Type) (array : list T),
     array <> [] ->
     exists x, eval (Rng.choice array) st = Some x /\ In x array) /\
  (forall T : Type, eval (Rng.choice (@nil T)) st = None) /\
  (exists card, eval Rng.magicCard st = Some card /\ In card Rng.cards).
Proof.
  split; [|split].
  - intros T array. apply choice_nonempty.
  - intros T. unfold Rng.choice. rewrite eval_bind. cbn [ret eval fst].
    unfold Rng.index.
    destruct (_ && _); [|reflexivity]. apply nth_error_nil.
  - apply choice_nonempty. discriminate.
Qed.





(** ** The generator's zero state *)

Lemma ToUint32_range (z : Z) : (0 <= JS.ToUint32 z < JS.two32)%Z.
Proof. apply Z.mod_pos_bound. reflexivity. Qed.

Lemma ToUint32_ToInt32 (z : Z) : JS.ToUint32 (JS.ToInt32 z) = JS.ToUint32 z.
Proof.
  unfold JS.ToInt32, JS.ToUint32. cbv zeta.
  destruct (z mod JS.two32 <? 2147483648)%Z.
  - apply Z.mod_mod. discriminate.
  - replace (z mod JS.two32 - JS.two32)%Z
      with (z mod JS.two32 + (-1) * JS.two32)%Z by ring.
    rewrite Z.mod_add by discriminate. apply Z.mod_mod. discriminate.
Qed.

Lemma ToUint32_land (z : Z) : JS.ToUint32 z = Z.land z (Z.ones 32).
Proof. rewrite Z.land_ones by lia. reflexivity. Qed.

Lemma ToUint32_lxor (a b : Z) :
  JS.ToUint32 (Z.lxor a b) = Z.lxor (JS.ToUint32 a) (JS.ToUint32 b).
Proof.
  rewrite !ToUint32_land. apply Z.bits_inj'. intros n Hn.
  rewrite Z.land_spec, !Z.lxor_spec, !Z.land_spec.
  destruct (Z.testbit a n), (Z.testbit b n), (Z.testbit (Z.ones 32) n);
    reflexivity.
Qed.

Lemma ToUint32_xor (a b : Z) :
  JS.ToUint32 (JS.xor a b) = Z.lxor (JS.ToUint32 a) (JS.ToUint32 b).
Proof.
  unfold JS.xor. rewrite ToUint32_ToInt32, ToUint32_lxor.
  rewrite !ToUint32_ToInt32. reflexivity.
Qed.

Lemma lxor_small (a b : Z) :
  (0 <= a < JS.two32)%Z -> (0 <= b < JS.two32)%Z ->
  (0 <= Z.lxor a b < JS.two32)%Z.
Proof.
  intros Ha Hb.
  rewrite <- (Z.mod_small a JS.two32 Ha), <- (Z.mod_small b JS.two32 Hb).
  change (Z.lxor (a mod JS.two32) (b mod JS.two32))
    with (Z.lxor (JS.ToUint32 a) (JS.ToUint32 b)).
  rewrite <- ToUint32_lxor. apply ToUint32_range.
Qed.

Lemma ToUint32_shl (a n : Z) :
  (0 <= n)%Z ->
  JS.ToUint32 (JS.shl a n) = ((JS.ToUint32 a * 2 ^ n) mod JS.two32)%Z.
Proof.
  intros Hn. unfold JS.shl. rewrite ToUint32_ToInt32.
  rewrite Z.shiftl_mul_pow2 by exact Hn.
  rewrite <- (ToUint32_ToInt32 a). unfold JS.ToUint32.
  rewrite Z.mul_mod_idemp_l by discriminate. reflexivity.
Qed.

(** A 32-bit pattern that equals its own shift is zero. *)
Lemma xor_shl_zero (u k : Z) :
  (0 <= u < JS.two32)%Z -> (0 < k)%Z -> Z.gcd JS.two32 (2 ^ k - 1) = 1%Z ->
  Z.lxor u ((u * 2 ^ k) mod JS.two32) = 0%Z -> u = 0%Z.
Proof.
  intros Hu Hk Hg Hx. apply Z.lxor_eq in Hx.
  assert (Hdiv : (JS.two32 | (2 ^ k - 1) * u)%Z).
  { exists ((u * 2 ^ k) / JS.two32)%Z.
    pose proof (Z.div_mod (u * 2 ^ k) JS.two32 ltac:(discriminate)) as E.
    rewrite <- Hx in E. lia. }
  apply Z.gauss in Hdiv; [|exact Hg].
  destruct Hdiv as [q Hq].
  assert (q = 0%Z) by (unfold JS.two32 in *; lia). subst q. lia.
Qed.

Lemma xor_shr_zero (u k : Z) :
  (0 <= u)%Z -> (0 < k)%Z -> Z.lxor u (u / 2 ^ k) = 0%Z -> u = 0%Z.
Proof.
  intros Hu Hk Hx. apply Z.lxor_eq in Hx.
  destruct (Z.eq_dec u 0) as [|Hne]; [assumption|].
  assert (Hlt : (u / 2 ^ k < u)%Z).
  { apply Z.div_lt; [lia|]. apply Z.pow_gt_1; lia. }
  lia.
Qed.

Lemma next_pattern (st : Z) :
  let u := JS.ToUint32 st in
  let u1 := Z.lxor u ((u * 2 ^ 13) mod JS.two32) in
  let u2 := Z.lxor u1 (u1 / 2 ^ 17) in
  let u3 := Z.lxor u2 ((u2 * 2 ^ 5) mod JS.two32) in
  eval Rng.next st = u3 /\ JS.ToUint32 (snd (Rng.next st)) = u3.
Proof.
  cbv zeta. unfold eval, Rng.next; cbn [fst snd].
  assert (Hout : forall s, JS.ushr s 0 = JS.ToUint32 s).
  { intros s. unfold JS.ushr. apply Z.shiftr_0_r. }
  rewrite Hout.
  assert (Hstep : forall s k, (0 <= k)%Z ->
            JS.ToUint32 (JS.xor s (JS.shl s k)) =
            Z.lxor (JS.ToUint32 s) ((JS.ToUint32 s * 2 ^ k) mod JS.two32)).
  { intros s k Hk. rewrite ToUint32_xor, ToUint32_shl by exact Hk.
    reflexivity. }
  assert (Hshr : forall s k, (0 <= k)%Z ->
            JS.ToUint32 (JS.xor s (JS.ushr s k)) =
            Z.lxor (JS.ToUint32 s) (JS.ToUint32 s / 2 ^ k)).
  { intros s k Hk. rewrite ToUint32_xor. f_equal.
    unfold JS.ushr. rewrite Z.shiftr_div_pow2 by exact Hk.
    unfold JS.ToUint32 at 1. apply Z.mod_small.
    pose proof (ToUint32_range s) as Hr. split.
    - apply Z.div_pos; [lia | apply Z.pow_pos_nonneg; lia].
    - apply Z.le_lt_trans with (JS.ToUint32 s); [|lia].
      apply Z.div_le_upper_bound; [apply Z.pow_pos_nonneg; lia|].
      assert (0 < 2 ^ k)%Z by (apply Z.pow_pos_nonneg; lia). nia. }
  rewrite !Hstep, Hshr, Hstep by lia. split; reflexivity.
Qed.

Lemma next_zero_pattern (st : Z) :
  (eval Rng.next st = 0%Z <-> JS.ToUint32 st = 0%Z) /\
  JS.ToUint32 (snd (Rng.next st)) = eval Rng.next st.
Proof.
  pose proof (next_pattern st) as [Hv Hs]. cbv zeta in Hv, Hs.
  split; [|congruence]. rewrite Hv. clear Hv Hs.
  pose proof (ToUint32_range st) as Hu.
  set (u := JS.ToUint32 st) in *. split.
  - intros H3.
    set (u1 := Z.lxor u ((u * 2 ^ 13) mod JS.two32)) in *.
    set (u2 := Z.lxor u1 (u1 / 2 ^ 17)) in *.
    assert (Hu1 : (0 <= u1 < JS.two32)%Z).
    { apply lxor_small; [exact Hu | apply Z.mod_pos_bound; reflexivity]. }
    assert (Hu2 : (0 <= u2 < JS.two32)%Z).
    { apply lxor_small; [exact Hu1|]. split; [apply Z.div_pos; lia|].
      apply Z.le_lt_trans with u1; [|exact (proj2 Hu1)].
      apply Z.div_le_upper_bound; lia. }
    apply xor_shl_zero in H3; [|exact Hu2 | lia | reflexivity].
    apply xor_shr_zero in H3; [|lia | lia].
    apply xor_shl_zero in H3; [exact H3 | exact Hu | lia | reflexivity].
  - intros ->. reflexivity.
Qed.

(** X5: a draw is 0 exactly when the state's 32-bit pattern is 0, and the
    value drawn is the pattern of the new state: the zero state is never
    left and is never entered from another state. *)
Theorem next_zero_iff (st : Z) :
  (eval Rng.next st = 0%Z <-> JS.ToUint32 st = 0%Z) /\
  JS.ToUint32 (snd (Rng.next st)) = eval Rng.next st.
Proof. apply next_zero_pattern. Qed.

Lemma draws_nonzero (n : nat) :
  forall st, JS.ToUint32 st <> 0%Z ->
    Forall (fun v => v <> 0%Z) (eval (draws n) st).
Proof.
  induction n as [|n IH]; intros st Hst; cbn [draws]; [constructor|].
  rewrite eval_bind, eval_bind. cbn [ret eval fst].
  destruct (next_zero_pattern st) as [Hz Hs]. constructor.
  - intros H0. apply Hz in H0. contradiction.
  - apply IH. rewrite Hs. intros H0. apply Hz in H0. contradiction.
Qed.

Lemma draws_stuck (n : nat) :
  forall st, JS.ToUint32 st = 0%Z -> eval (draws n) st = repeat 0%Z n.
Proof.
  induction n as [|n IH]; intros st Hst; cbn [draws repeat]; [reflexivity|].
  rewrite eval_bind, eval_bind. cbn [ret eval fst].
  destruct (next_zero_pattern st) as [Hz Hs]. f_equal.
  - apply Hz, Hst.
  - apply IH. rewrite Hs. apply Hz, Hst.
Qed.

Lemma ToInt32_range (z : Z) : (-2147483648 <= JS.ToInt32 z < 2147483648)%Z.
Proof.
  unfold JS.ToInt32. cbv zeta.
  pose proof (Z.mod_pos_bound z JS.two32 eq_refl) as Hm. unfold JS.two32 in *.
  destruct (Z.ltb_spec (z mod 4294967296) 2147483648); lia.
Qed.

Lemma trunc_inject_Z (z : Z) : JS.trunc (inject_Z z) = z.
Proof.
  unfold JS.trunc. destruct (Qle_bool 0 (inject_Z z));
    [apply Qfloor_Z | apply Qceiling_Z].
Qed.

Lemma new_XORShift32_int32 (w : Z) :
  JS.ToUint32 (Rng.new_XORShift32 (inject_Z (JS.ToInt32 w))) <> 0%Z.
Proof.
  unfold Rng.new_XORShift32.
  destruct (Qeq_bool (inject_Z (JS.ToInt32 w)) 0) eqn:E; [discriminate|].
  rewrite trunc_inject_Z.
  assert (Hne : JS.ToInt32 w <> 0%Z).
  { intros H0. rewrite H0 in E. discriminate E. }
  pose proof (ToInt32_range w) as Hr.
  unfold JS.ToUint32. rewrite Z.mod_mod by discriminate.
  intros Hmod. apply Z.mod_divide in Hmod; [|discriminate].
  destruct Hmod as [q Hq]. unfold JS.two32 in Hq. lia.
Qed.

Lemma fold_left_last {A B} (f : A -> B -> A) (l : list B) :
  forall (b : B) (init : A), exists a c, fold_left f (b :: l) init = f a c.
Proof.
  induction l as [|c l IH]; intros b init.
  - exists init, b. reflexivity.
  - destruct (IH c (f init b)) as (a & c' & Ha). exists a, c'. exact Ha.
Qed.

(** X6: for a non-empty session id, whatever the start time, the session
    generator is never in the zero state: none of its draws is 0. *)
Theorem createSessionRNG_never_stuck (sessionId : string) (timestamp : Q)
    (n : nat) :
  sessionId <> EmptyString ->
  JS.ToUint32 (Rng.createSessionRNG sessionId timestamp) <> 0%Z /\
  Forall (fun v => v <> 0%Z)
         (eval (draws n) (Rng.createSessionRNG sessionId timestamp)).
Proof.
  intros Hne.
  assert (Hst : JS.ToUint32 (Rng.createSessionRNG sessionId timestamp) <> 0%Z).
  { unfold Rng.createSessionRNG, Rng.new_GameRNG. cbv zeta.
    destruct sessionId as [|c rest]; [congruence|].
    unfold JS.charCodes. cbn [list_ascii_of_string map].
    match goal with
    | |- context [fold_left ?f (?b :: ?l) ?i] =>
        destruct (fold_left_last f l b i) as (a & c' & ->)
    end.
    unfold JS.and at 1. apply new_XORShift32_int32. }
  split; [exact Hst | apply draws_nonzero, Hst].
Qed.

Lemma createSessionRNG_never_stuck_witness :
  Forall (fun v => v <> 0%Z)
         (eval (draws 3) (Rng.createSessionRNG "s1" 1000000)).
Proof. apply createSessionRNG_never_stuck. discriminate. Defined.

(** X7: seed 0 is replaced by state 1; any other seed whose integer part
    is a multiple of 2^32 (0.5, 2^32, ...) starts the generator in the zero
    state, where every draw is 0; every remaining seed gives draws that are
    never 0. *)
Theorem new_XORShift32_seeds (seed : Q) (n : nat) :
  (seed == 0 -> Rng.new_XORShift32 seed = 1%Z) /\
  (~ seed == 0 -> JS.ToUint32 (JS.trunc seed) = 0%Z ->
     eval (draws n) (Rng.new_XORShift32 seed) = repeat 0%Z n) /\
  (seed == 0 \/ JS.ToUint32 (JS.trunc seed) <> 0%Z ->
     Forall (fun v => v <> 0%Z) (eval (draws n) (Rng.new_XORShift32 seed))).
Proof.
  unfold Rng.new_XORShift32. repeat split.
  - intros H0. apply Qeq_bool_iff in H0. rewrite H0. reflexivity.
  - intros Hne Hz. destruct (Qeq_bool seed 0) eqn:E.
    + apply Qeq_bool_iff in E. contradiction.
    + apply draws_stuck. unfold JS.ToUint32 in *.
      rewrite Z.mod_mod by discriminate. exact Hz.
  - intros H. apply draws_nonzero. destruct (Qeq_bool seed 0) eqn:E.
    + discriminate.
    + destruct H as [H0 | Hnz].
      * apply Qeq_bool_iff in H0. congruence.
      * unfold JS.ToUint32 in *. rewrite Z.mod_mod by discriminate. exact Hnz.
Qed.

Example zero_state_seeds :
  eval (draws 4) (Rng.new_XORShift32 4294967296) = [0; 0; 0; 0]%Z /\
  eval (draws 4) (Rng.new_XORShift32 0.5) = [0; 0; 0; 0]%Z /\
  eval Rng.objectType (Rng.new_XORShift32 0.5) = Physics.logo.
Proof. repeat split; vm_compute; reflexivity. Qed.

(** ** Combo, lives and score *)

Lemma Qdiv_le_mono (a b c : Q) : 0 < c -> a <= b -> a / c <= b / c.
Proof.
  intros Hc Hab. apply Qle_shift_div_l; [exact Hc|].
  setoid_replace (a / c * c) with a by (field; lra). exact Hab.
Qed.

Lemma updateCombo_mono (k1 k2 : Q) :
  k1 <= k2 -> updateCombo k1 <= updateCombo k2.
Proof.
  intros Hk. rewrite !updateCombo_formula.
  apply Q.min_le_compat_r.
  assert (Hf : (Qfloor (k1 / 5) <= Qfloor (k2 / 5))%Z).
  { apply Qfloor_resp_le, Qdiv_le_mono; [reflexivity | exact Hk]. }
  rewrite Zle_Qle in Hf. lra.
Qed.

Lemma updateCombo_range (k : Q) :
  0 <= k -> 1 <= updateCombo k /\ updateCombo k <= 5.
Proof.
  intros Hk. rewrite updateCombo_formula. split.
  - apply Q.min_glb; [|lra].
    assert (Hf : (Qfloor 0 <= Qfloor (k / 5))%Z).
    { apply Qfloor_resp_le, Qle_shift_div_l; [reflexivity | lra]. }
    rewrite Zle_Qle in Hf. change (inject_Z (Qfloor 0)) with 0 in Hf. lra.
  - apply Q.le_min_r.
Qed.

(** X8: the combo of a streak never decreases as the streak grows, lies
    between 1 and 5 for a streak of 0 or more, and is 5 from a streak of 40
    on. *)
Theorem updateCombo_monotone_capped :
  (forall k1 k2, k1 <= k2 -> updateCombo k1 <= updateCombo k2) /\
  (forall k, 0 <= k -> 1 <= updateCombo k /\ updateCombo k <= 5) /\
  (forall k, 40 <= k -> updateCombo k == 5).
Proof.
  split; [exact updateCombo_mono | split; [exact updateCombo_range|]].
  intros k Hk. rewrite updateCombo_formula. apply Q.min_r.
  assert (Hf : (Qfloor 8 <= Qfloor (k / 5))%Z).
  { apply Qfloor_resp_le, Qle_shift_div_l; [reflexivity | lra]. }
  rewrite Zle_Qle in Hf. change (inject_Z (Qfloor 8)) with 8 in Hf. lra.
Qed.

Lemma createMagicCardEffect_table (card : string) (w : World) :
  let e := eval (createMagicCardEffect card) w in
  In (eff_type e, duration e, value e) GameView.card_table.
Proof.
  cbv zeta. unfold eval, createMagicCardEffect, bind, ret, Date_now;
    cbn [fst].
  repeat match goal with
         | |- context [String.eqb card ?c] => destruct (String.eqb card c)
         end; cbn; tauto.
Qed.

(** What a tap does to the active list and the time left, by the card. *)
Lemma tapStep_gift_cases (s : GameState) (card : option string) (w : World) :
  let s' := eval (tapStep s gift card) w in
  exists e, In (eff_type e, duration e, value e) GameView.card_table /\
    s' = applyTapResult s (mkTapResult gift 0 (combo s) (streak s) 0 (Some e)).
Proof.
  cbv zeta. unfold tapStep. rewrite eval_bind. cbn [ret eval fst].
  cbn [processTap]. rewrite eval_bind. cbn [ret eval fst].
  eexists. split; [|reflexivity].
  apply (createMagicCardEffect_table (JS.or_string card "time-freeze") w).
Qed.

Lemma tapStep_timeLeft (s : GameState) (t : TapType) (card : option string)
    (w : World) :
  timeLeft (eval (tapStep s t card) w) = timeLeft s \/
  timeLeft (eval (tapStep s t card) w) = timeLeft s + 10.
Proof.
  destruct t; try (left; reflexivity).
  destruct (tapStep_gift_cases s card w) as (e & Hin & ->).
  unfold applyTapResult; cbn [effect points livesLost newCombo newStreak].
  cbn in Hin.
  destruct e as [ty d v st].
  cbn [eff_type duration value] in *.
  repeat destruct Hin as [Hin | Hin]; try contradiction;
    injection Hin as <- <- <-; cbn; auto.
Qed.

Lemma tapStep_lives (s : GameState) (t : TapType) (card : option string)
    (w : World) :
  lives (eval (tapStep s t card) w) =
    Qmax 0 (lives s - match t with bomb => 1 | _ => 0 end).
Proof.
  unfold tapStep. rewrite eval_bind. cbn [ret eval fst].
  rewrite applyTapResult_lives. unfold JS.Math_max.
  destruct t; reflexivity.
Qed.

Lemma tapStep_score_nonneg (s : GameState) (t : TapType)
    (card : option string) (w : World) :
  0 <= score (eval (tapStep s t card) w).
Proof.
  unfold tapStep. rewrite eval_bind. cbn [ret eval fst].
  rewrite applyTapResult_score.
  destruct (carries "bomb-trap" _); apply Q.le_max_l.
Qed.

Lemma reachable_combo (s : GameState) :
  reachable s -> combo s == updateCombo (streak s).
Proof.
  induction 1 as [w | s t card w Hs IH | s dt w Hs IH].
  - vm_compute. reflexivity.
  - destruct (tapStep_combo_streak s t card w) as [[Hc Hk] | [[Hc Hk] | [Hc Hk]]].
    + rewrite Hc, Hk. exact IH.
    + rewrite Hc, Hk. vm_compute. reflexivity.
    + rewrite Hc. reflexivity.
  - exact IH.
Qed.

Lemma updateGameState_timeLeft (s : GameState) (dt : Q) (w : World) :
  timeLeft (eval (updateGameState s dt) w) =
    if existsb (is_type "time-freeze") (activeEffects s)
    then timeLeft s
    else Qmax 0 (timeLeft s - dt / 1000).
Proof.
  unfold updateGameState. rewrite eval_bind, eval_bind. reflexivity.
Qed.

Lemma reachable_bounds (s : GameState) :
  reachable s ->
  0 <= score s /\ 0 <= lives s /\ lives s <= 5 /\ 0 <= streak s /\
  0 <= timeLeft s.
Proof.
  induction 1 as [w | s t card w Hs IH | s dt w Hs IH].
  - repeat split; qdec.
  - destruct IH as (Hsc & Hl0 & Hl5 & Hk & Htl).
    split; [apply tapStep_score_nonneg|].
    rewrite tapStep_lives.
    split; [apply Q.le_max_l|].
    split; [apply Q.max_lub; [lra | destruct t; lra]|].
    split.
    + destruct (tapStep_combo_streak s t card w)
        as [[_ E] | [[_ E] | [_ E]]]; rewrite E; lra.
    + destruct (tapStep_timeLeft s t card w) as [E | E]; rewrite E; lra.
  - destruct IH as (Hsc & Hl0 & Hl5 & Hk & Htl).
    repeat split; try assumption.
    rewrite updateGameState_timeLeft.
    destruct (existsb _ _); [assumption | apply Q.le_max_l].
Qed.

(** X9: in every reachable state the score is not negative, lives are
    between 0 and 5, combo between 1 and 5, and streak and time left are
    not negative. *)
Theorem reachable_state_bounds (s : GameState) :
  reachable s ->
  0 <= score s /\ (0 <= lives s /\ lives s <= 5) /\
  (1 <= combo s /\ combo s <= 5) /\ 0 <= streak s /\ 0 <= timeLeft s.
Proof.
  intros Hs. destruct (reachable_bounds s Hs) as (Hsc & Hl0 & Hl5 & Hk & Htl).
  pose proof (reachable_combo s Hs) as Hc.
  destruct (updateCombo_range (streak s) Hk) as [H1 H5].
  repeat split; try assumption; rewrite Hc; assumption.
Qed.

Lemma reachable_state_bounds_witness :
  let s := eval (s0 <- createInitialGameState ;;
                 foldTaps (repeat (bomb, None) 7%nat ++
                           repeat (logo, None) 60%nat) s0)
                (mkWorld (fun _ => 0) (fun _ => EmptyString)) in
  lives s == 0 /\ combo s == 5 /\
  0 <= score s /\ (0 <= lives s /\ lives s <= 5) /\
  (1 <= combo s /\ combo s <= 5) /\ 0 <= streak s /\ 0 <= timeLeft s.
Proof.
  cbv zeta. split; [qdec|]. split; [qdec|].
  apply reachable_state_bounds, session_reachable.
Defined.

(** ** Active effects *)

Lemma applyTapResult_effects (s : GameState) (r : TapResult) :
  activeEffects (applyTapResult s r) =
    match effect r with
    | None => activeEffects s
    | Some e =>
        if String.eqb (eff_type e) "extra-time" then activeEffects s
        else if String.eqb (eff_type e) "bomb-trap" then activeEffects s
        else if JS.gt (duration e) 0
             then filter (fun x => negb (String.eqb (eff_type x) (eff_type e)))
                         (activeEffects s) ++ [e]
             else activeEffects s
    end.
Proof.
  unfold applyTapResult.
  destruct (effect r) as [e|]; [|reflexivity].
  destruct (String.eqb (eff_type e) "extra-time"); [reflexivity|].
  destruct (String.eqb (eff_type e) "bomb-trap"); [reflexivity|].
  destruct (JS.gt (duration e) 0); reflexivity.
Qed.

Lemma NoDup_map_filter {A B} (key : A -> B) (keep : A -> bool) :
  forall l : list A,
  NoDup (map key l) -> NoDup (map key (filter keep l)).
Proof.
  intros l.
  induction l as [|a l IH]; cbn [map filter]; intros H; [constructor|].
  inversion H as [|? ? Hn Hd]; subst.
  destruct (keep a); [|apply IH, Hd].
  cbn [map]. constructor; [|apply IH, Hd].
  intros Hin. apply Hn. apply in_map_iff in Hin as (x & Hx & Hin).
  apply filter_In in Hin as [Hin _]. apply in_map_iff. exists x. auto.
Qed.

Lemma JS_gt_iff (a b : Q) : JS.gt a b = true <-> b < a.
Proof.
  unfold JS.gt. rewrite negb_true_iff. split.
  - intros E. apply Qnot_le_lt. intros H. apply Qle_bool_iff in H. congruence.
  - intros H. destruct (Qle_bool a b) eqn:E; [|reflexivity].
    apply Qle_bool_iff in E. lra.
Qed.

(** The effect list after a gift: untouched, or the old effects of other
    types followed by the new effect, which is then a timed one. *)
Lemma tapStep_gift_effects (s : GameState) (card : option string) (w : World) :
  let s' := eval (tapStep s gift card) w in
  activeEffects s' = activeEffects s \/
  exists e, GameView.timed_effect e /\
    In (eff_type e, duration e, value e) GameView.card_table /\
    activeEffects s' =
      filter (fun x => negb (String.eqb (eff_type x) (eff_type e)))
             (activeEffects s) ++ [e].
Proof.
  cbv zeta. destruct (tapStep_gift_cases s card w) as (e & Hin & ->).
  rewrite applyTapResult_effects. cbn [effect].
  assert (Htab := Hin).
  destruct e as [ty d v st]. cbn [eff_type duration value] in *.
  cbn in Hin.
  repeat destruct Hin as [Hin | Hin]; try contradiction;
    injection Hin as <- <- <-; cbn [String.eqb Ascii.eqb Bool.eqb];
    try (left; reflexivity);
    (match goal with
     | |- context [JS.gt ?d 0] => change (JS.gt d 0) with true
     end; cbv iota; right;
     match goal with |- context [_ ++ [?x]] => exists x end;
     split; [split; [cbn; tauto | qdec] | split; [exact Htab | reflexivity]]).
Qed.

Lemma timed_effect_type_in (l : list ActiveEffect) :
  Forall GameView.timed_effect l ->
  existsb (is_type "golden-monad") l = false.
Proof.
  induction 1 as [|e l [Hin _] _ IH]; [reflexivity|].
  cbn [existsb]. rewrite IH, orb_false_r. unfold is_type.
  destruct e as [ty d v st]. cbn [eff_type value] in *. cbn in Hin.
  repeat destruct Hin as [Hin | Hin]; try contradiction;
    injection Hin as <- <-; reflexivity.
Qed.

Lemma updateActiveEffects_eval (l : list ActiveEffect) (dt : Q) (w : World) :
  eval (updateActiveEffects l dt) w =
  filter (fun e => JS.gt (duration e) 0 || is_type "golden-monad" e)
         (map (fun e => mkEffect (eff_type e) (JS.Math_max 0 (duration e - dt))
                                 (value e) (startTime e)) l).
Proof. reflexivity. Qed.

Lemma effects_invariant_tick (l : list ActiveEffect) (dt : Q) (w : World) :
  Forall GameView.timed_effect l /\ NoDup (map eff_type l) ->
  Forall GameView.timed_effect (eval (updateActiveEffects l dt) w) /\
  NoDup (map eff_type (eval (updateActiveEffects l dt) w)).
Proof.
  intros [Hall Hnd]. rewrite updateActiveEffects_eval. split.
  - apply Forall_forall. intros e' Hin.
    apply filter_In in Hin as [Hin Hkeep].
    apply in_map_iff in Hin as (e & <- & Hin).
    rewrite Forall_forall in Hall. destruct (Hall e Hin) as [Hty _].
    split; [exact Hty|]. cbn [duration].
    cbn [duration] in Hkeep. apply orb_true_iff in Hkeep as [Hd | Hg].
    + apply JS_gt_iff, Hd.
    + exfalso. unfold is_type in Hg. cbn [eff_type] in Hg.
      apply String.eqb_eq in Hg. rewrite Hg in Hty. cbn in Hty.
      repeat destruct Hty as [Hty | Hty]; try contradiction; discriminate.
  - apply NoDup_map_filter. rewrite map_map. cbn [eff_type]. exact Hnd.
Qed.

Lemma effects_invariant (s : GameState) :
  reachable s ->
  Forall GameView.timed_effect (activeEffects s) /\
  NoDup (map eff_type (activeEffects s)).
Proof.
  induction 1 as [w | s t card w Hs IH | s dt w Hs IH].
  - split; constructor.
  - destruct t; try exact IH.
    destruct (tapStep_gift_effects s card w) as [-> | (e & He & _ & ->)];
      [exact IH|].
    destruct IH as [Hall Hnd]. split.
    + apply Forall_app. split; [|constructor; [exact He | constructor]].
      apply Forall_forall. intros x Hx. apply filter_In in Hx as [Hx _].
      rewrite Forall_forall in Hall. apply Hall, Hx.
    + rewrite map_app. apply NoDup_app.
      * apply NoDup_map_filter, Hnd.
      * cbn. constructor; [intros [] | constructor].
      * intros ty Hty [<- | []].
        apply in_map_iff in Hty as (x & Hx & Hin).
        apply filter_In in Hin as [_ Hneq].
        rewrite Hx, String.eqb_refl in Hneq. discriminate.
  - rewrite updateGameState_effects. apply effects_invariant_tick, IH.
Qed.

(** X10: in every reachable state the active effects are timed cards
    (time-freeze, slow-motion, logo-highlight, shrink-ray, monad-swarm) with
    their table payload and a positive remaining duration, and no two of
    them have the same type. *)
Theorem active_effects_timed_and_unique (s : GameState) :
  reachable s ->
  Forall GameView.timed_effect (activeEffects s) /\
  NoDup (map eff_type (activeEffects s)).
Proof. apply effects_invariant. Qed.

Lemma active_effects_timed_and_unique_witness :
  let s := eval (s0 <- createInitialGameState ;;
                 foldTaps [(gift, Some "slow-motion"); (gift, None);
                           (gift, Some "glitch-purge");
                           (gift, Some "slow-motion")]%string s0)
                (mkWorld (fun _ => 0) (fun _ => EmptyString)) in
  map eff_type (activeEffects s) = ["time-freeze"; "slow-motion"]%string /\
  Forall GameView.timed_effect (activeEffects s) /\
  NoDup (map eff_type (activeEffects s)).
Proof.
  cbv zeta. split; [reflexivity|].
  apply active_effects_timed_and_unique, session_reachable.
Defined.

Lemma filter_ext_bool {A} (p q : A -> bool) (l : list A) :
  (forall a, p a = q a) -> filter p l = filter q l.
Proof.
  intros H. induction l as [|a l IH]; [reflexivity|].
  cbn [filter]. rewrite H, IH. reflexivity.
Qed.

Lemma JS_gt_max (d dt : Q) : JS.gt (JS.Math_max 0 (d - dt)) 0 = JS.gt d dt.
Proof.
  unfold JS.Math_max.
  destruct (JS.gt d dt) eqn:E.
  - apply JS_gt_iff in E. apply JS_gt_iff. apply Q.max_lt_iff. right. lra.
  - destruct (JS.gt (Qmax 0 (d - dt)) 0) eqn:E'; [|reflexivity].
    apply JS_gt_iff in E'. apply Q.max_lt_iff in E' as [H | H]; [lra|].
    assert (Hlt : dt < d) by lra. apply JS_gt_iff in Hlt. congruence.
Qed.

(** X11: an effect survives an update exactly when its duration exceeds the
    elapsed time or it is a golden-monad; the survivors keep their order,
    type, payload and start time, and their duration drops by the elapsed
    time (not below 0). *)
Theorem updateActiveEffects_survivors (effects : list ActiveEffect)
    (deltaTime : Q) (w : World) :
  eval (updateActiveEffects effects deltaTime) w =
  map (fun e => mkEffect (eff_type e) (Qmax 0 (duration e - deltaTime))
                         (value e) (startTime e))
      (filter (fun e => JS.gt (duration e) deltaTime ||
                        String.eqb (eff_type e) "golden-monad")
              effects).
Proof.
  rewrite updateActiveEffects_eval, filter_map_swap. f_equal.
  apply filter_ext_bool. intros e. cbn [duration].
  rewrite JS_gt_max. reflexivity.
Qed.

(** X12: a frame never changes score, lives, combo or streak; while a
    time-freeze is active it leaves the time left as it is, and otherwise,
    for an elapsed time of 0 or more, the time left drops by the elapsed
    seconds without going below 0. *)
Theorem updateGameState_clock (s : GameState) (deltaTime : Q) (w : World) :
  0 <= deltaTime -> 0 <= timeLeft s ->
  let s' := eval (updateGameState s deltaTime) w in
  (score s' = score s /\ lives s' = lives s /\
   combo s' = combo s /\ streak s' = streak s) /\
  (existsb (is_type "time-freeze") (activeEffects s) = true ->
   timeLeft s' = timeLeft s) /\
  (existsb (is_type "time-freeze") (activeEffects s) = false ->
   timeLeft s' == Qmax 0 (timeLeft s - deltaTime / 1000)) /\
  0 <= timeLeft s' /\ timeLeft s' <= timeLeft s.
Proof.
  intros Hdt Htl. cbv zeta. rewrite updateGameState_timeLeft.
  split; [repeat split|].
  assert (Hd : 0 <= deltaTime / 1000)
    by (apply Qle_shift_div_l; [reflexivity | lra]).
  destruct (existsb _ _).
  - split; [reflexivity|]. split; [discriminate|]. split; lra.
  - split; [discriminate|]. split; [reflexivity|].
    split; [apply Q.le_max_l | apply Q.max_lub; lra].
Qed.

Lemma updateGameState_clock_witness :
  let s := mkGameState 30 3 2 1 0 0
             (mkDifficulty 0 BASE_FALL_SPEED BASE_SPAWN_RATE) [] in
  timeLeft (eval (updateGameState s 5000)
                 (mkWorld (fun _ => 0) (fun _ => EmptyString))) == 0.
Proof.
  cbv zeta.
  destruct (updateGameState_clock
              (mkGameState 30 3 2 1 0 0
                 (mkDifficulty 0 BASE_FALL_SPEED BASE_SPAWN_RATE) [])
              5000 (mkWorld (fun _ => 0) (fun _ => EmptyString)))
    as (_ & _ & H & _); [qdec | qdec |].
  rewrite (H eq_refl). qdec.
Defined.

Lemma filter_app_singleton_other (card : string) (l : list ActiveEffect)
    (e : ActiveEffect) :
  eff_type e = card ->
  filter (is_type card)
    (filter (fun x => negb (String.eqb (eff_type x) (eff_type e))) l ++ [e])
    = [e] /\
  filter (fun x => negb (is_type card x))
    (filter (fun x => negb (String.eqb (eff_type x) (eff_type e))) l ++ [e])
    = filter (fun x => negb (is_type card x)) l.
Proof.
  intros He. rewrite !filter_app. cbn [filter]. unfold is_type at 2 4.
  rewrite He, String.eqb_refl. cbn [negb]. rewrite app_nil_r. split.
  - induction l as [|a l IH]; [reflexivity|]. cbn [filter].
    destruct (negb (eff_type a =? card)%string) eqn:E; [|exact IH].
    cbn [filter]. unfold is_type at 1. apply negb_true_iff in E.
    rewrite E. exact IH.
  - induction l as [|a l IH]; [reflexivity|]. cbn [filter].
    unfold is_type at 2.
    destruct (negb (eff_type a =? card)%string) eqn:E.
    + cbn [filter]. unfold is_type at 1. rewrite E. f_equal. exact IH.
    + exact IH.
Qed.

(** X13: a gift revealing a timed card puts exactly one effect of that type
    on the active list, with the table's full duration and payload; an
    effect of that type already there is replaced, not stacked, and the
    effects of other types stay as they were, in order. *)
Theorem timed_gift_replaces (s : GameState) (card : string) (w : World) :
  In card (map fst GameView.timed_cards) ->
  let s' := eval (tapStep s gift (Some card)) w in
  exists e,
    eff_type e = card /\
    In (card, duration e, value e) GameView.card_table /\
    0 < duration e /\
    filter (is_type card) (activeEffects s') = [e] /\
    filter (fun x => negb (is_type card x)) (activeEffects s') =
    filter (fun x => negb (is_type card x)) (activeEffects s).
Proof.
  intros Hcard. cbv zeta.
  assert (Hstep : activeEffects (eval (tapStep s gift (Some card)) w) =
            (let e := eval (createMagicCardEffect card) w in
             filter (fun x => negb (String.eqb (eff_type x) (eff_type e)))
                    (activeEffects s) ++ [e]) /\
          exists d v, In (card, d, v) GameView.card_table /\ 0 < d /\
            eval (createMagicCardEffect card) w =
            mkEffect card d v (wall_clock w 0%nat)).
  { cbn in Hcard.
    repeat destruct Hcard as [Hcard | Hcard]; try contradiction; subst card;
      (split; [reflexivity|]); do 2 eexists;
      (split; [|split; [|reflexivity]]); first [qdec | cbn; tauto]. }
  destruct Hstep as [Heff (d & v & Htab & Hd & He)]. cbv zeta in Heff.
  rewrite Heff, He. cbn [eff_type].
  exists (mkEffect card d v (wall_clock w 0%nat)). cbn [eff_type duration value].
  split; [reflexivity|]. split; [exact Htab|]. split; [exact Hd|].
  apply (filter_app_singleton_other card (activeEffects s)
           (mkEffect card d v (wall_clock w 0%nat))). reflexivity.
Qed.

Lemma timed_gift_replaces_witness :
  let s := mkGameState 0 5 120 1 0 0
             (mkDifficulty 0 BASE_FALL_SPEED BASE_SPAWN_RATE)
             [mkEffect "time-freeze" 1200 None 0;
              mkEffect "slow-motion" 300 (Some 0.5) 0] in
  let s' := eval (tapStep s gift (Some "time-freeze"%string))
                 (mkWorld (fun _ => 7) (fun _ => EmptyString)) in
  exists e,
    eff_type e = "time-freeze"%string /\
    In ("time-freeze"%string, duration e, value e) GameView.card_table /\
    0 < duration e /\
    filter (is_type "time-freeze") (activeEffects s') = [e] /\
    filter (fun x => negb (is_type "time-freeze" x)) (activeEffects s') =
    filter (fun x => negb (is_type "time-freeze" x)) (activeEffects s).
Proof.
  cbv zeta. apply timed_gift_replaces. cbn. tauto.
Defined.

(** ** Lives and the end of the game *)

Lemma Qmax_sub_sub (l a b : Q) :
  0 <= a -> 0 <= b -> Qmax 0 (Qmax 0 (l - a) - b) == Qmax 0 (l - (a + b)).
Proof.
  intros Ha Hb.
  destruct (Q.max_spec 0 (l - a)) as [[H1 E1] | [H1 E1]];
  destruct (Q.max_spec 0 (Qmax 0 (l - a) - b)) as [[H2 E2] | [H2 E2]];
  destruct (Q.max_spec 0 (l - (a + b))) as [[H3 E3] | [H3 E3]];
  rewrite E2, E3; rewrite E1 in *; lra.
Qed.

Lemma foldTaps_lives (taps : list (TapType * option string)) :
  forall s w, 0 <= lives s ->
    lives (eval (foldTaps taps s) w) ==
    Qmax 0 (lives s - inject_Z (Z.of_nat (GameView.bombs taps))).
Proof.
  induction taps as [|[t card] rest IH]; intros s w Hl.
  - change (inject_Z (Z.of_nat (GameView.bombs []))) with 0.
    change (eval (foldTaps [] s) w) with s. rewrite Q.max_r; lra.
  - cbn [foldTaps]. rewrite eval_bind, IH; rewrite tapStep_lives;
      [|apply Q.le_max_l].
    assert (Hn : 0 <= inject_Z (Z.of_nat (GameView.bombs rest))).
    { change 0 with (inject_Z 0). rewrite <- Zle_Qle. lia. }
    rewrite Qmax_sub_sub; [|destruct t; lra | exact Hn].
    assert (Hb : inject_Z (Z.of_nat (GameView.bombs ((t, card) :: rest))) ==
                 match t with bomb => 1 | _ => 0 end
                 + inject_Z (Z.of_nat (GameView.bombs rest))).
    { unfold GameView.bombs. cbn [filter fst].
      destruct t; cbn [List.length]; try ring.
      rewrite Nat2Z.inj_succ, <- Z.add_1_l, inject_Z_plus. reflexivity. }
    rewrite Hb. reflexivity.
Qed.

Lemma foldTaps_timeLeft (taps : list (TapType * option string)) :
  forall s w, timeLeft s <= timeLeft (eval (foldTaps taps s) w).
Proof.
  induction taps as [|[t card] rest IH]; intros s w; [apply Qle_refl|].
  cbn [foldTaps]. rewrite eval_bind.
  eapply Qle_trans; [|apply IH].
  destruct (tapStep_timeLeft s t card w) as [-> | ->]; lra.
Qed.

(** Lives after a sequence of taps from the initial state. *)
Lemma foldTaps_lives_initial (taps : list (TapType * option string))
    (w : World) :
  lives (eval (s0 <- createInitialGameState ;; foldTaps taps s0) w) ==
  Qmax 0 (5 - inject_Z (Z.of_nat (GameView.bombs taps))).
Proof.
  rewrite eval_bind. rewrite foldTaps_lives; [reflexivity | qdec].
Qed.

(** Game over after a sequence of taps from the initial state. *)
Lemma foldTaps_game_over (taps : list (TapType * option string))
    (w : World) :
  isGameOver (eval (s0 <- createInitialGameState ;; foldTaps taps s0) w) =
  (5 <=? GameView.bombs taps)%nat.
Proof.
  unfold isGameOver. rewrite eval_bind.
  set (s0 := eval createInitialGameState w).
  set (w0 := snd (createInitialGameState w)).
  assert (Htime : JS.le (timeLeft (eval (foldTaps taps s0) w0)) 0 = false).
  { pose proof (foldTaps_timeLeft taps s0 w0) as Ht.
    change (timeLeft s0) with 120 in Ht. unfold JS.le.
    destruct (Qle_bool _ 0) eqn:E; [|reflexivity].
    apply Qle_bool_iff in E. lra. }
  rewrite Htime. cbn [orb].
  pose proof (foldTaps_lives taps s0 w0 ltac:(qdec)) as Hl.
  change (lives s0) with 5 in Hl. unfold JS.le.
  set (n := GameView.bombs taps) in *.
  assert (Hn : inject_Z (Z.of_nat n) <= 5 <-> (n <= 5)%nat).
  { change 5 with (inject_Z 5). rewrite <- Zle_Qle. lia. }
  assert (Hn' : 5 <= inject_Z (Z.of_nat n) <-> (5 <= n)%nat).
  { change 5 with (inject_Z 5). rewrite <- Zle_Qle. lia. }
  destruct (Nat.leb_spec 5 n) as [H5 | H5].
  - apply Qle_bool_iff. rewrite Hl. apply Q.max_lub; [lra|].
    apply Hn' in H5. lra.
  - destruct (Qle_bool _ 0) eqn:E; [|reflexivity].
    apply Qle_bool_iff in E. rewrite Hl in E.
    assert (Hlt : inject_Z (Z.of_nat n) < 5).
    { change 5 with (inject_Z 5). rewrite <- Zlt_Qlt. lia. }
    pose proof (Q.le_max_r 0 (5 - inject_Z (Z.of_nat n))). lra.
Qed.

(** X14: after any sequence of taps from the initial state, lives are 5
    minus the number of bomb taps, and 0 once there were five or more; no
    other tap and no card changes them.  A session that only receives taps
    is over exactly when five or more of them were bombs: the time left
    never drops through a tap. *)
Theorem lives_and_game_over (taps : list (TapType * option string))
    (w : World) :
  let s := eval (s0 <- createInitialGameState ;; foldTaps taps s0) w in
  lives s == Qmax 0 (5 - inject_Z (Z.of_nat (GameView.bombs taps))) /\
  isGameOver s = (5 <=? GameView.bombs taps)%nat.
Proof.
  cbv zeta. split; [apply foldTaps_lives_initial | apply foldTaps_game_over].
Qed.

(** Points and score change of one tap in a reachable state. *)
Lemma tap_points_bounds (s : GameState) (t : TapType)
    (card : option string) (w : World) :
  reachable s ->
  let r := eval (processTap s t card) w in
  (0 <= points r /\ points r <= 50) /\
  (t <> logo -> points r = 0) /\
  score s - 20 <= score (applyTapResult s r) /\
  score (applyTapResult s r) <= score s + 50.
Proof.
  intros Hs. cbv zeta.
  destruct (reachable_bounds s Hs) as (Hsc & _ & _ & Hk & _).
  pose proof (reachable_combo s Hs) as Hc.
  destruct (updateCombo_range (streak s) Hk) as [H1 H5].
  rewrite <- Hc in H1, H5.
  assert (Hp : 0 <= points (eval (processTap s t card) w) /\
               points (eval (processTap s t card) w) <= 50 /\
               (t <> logo -> points (eval (processTap s t card) w) = 0)).
  { destruct t.
    - rewrite (reachable_logo_points s card w Hs).
      unfold BASE_POINTS. repeat split; try lra. congruence.
    - repeat split; qdec.
    - unfold eval. cbn [processTap]. rewrite eval_bind_fst. cbn [ret fst points].
      repeat split; qdec.
    - repeat split; qdec.
    - repeat split; qdec. }
  destruct Hp as (Hp0 & Hp50 & Hpl).
  split; [split; assumption|]. split; [exact Hpl|].
  rewrite applyTapResult_score.
  assert (Hpay : carries "bomb-trap" (eval (processTap s t card) w) = true ->
                 payload (eval (processTap s t card) w) = -20).
  { destruct t; try discriminate.
    unfold eval. cbn [processTap]. rewrite eval_bind_fst. cbn [ret fst].
    unfold carries, payload. cbn [effect].
    pose proof (createMagicCardEffect_table
                  (JS.or_string card "time-freeze") w) as Hin.
    cbv zeta in Hin. unfold eval in Hin.
    destruct (fst (createMagicCardEffect _ w)) as [ty d v st].
    cbn [eff_type duration value] in *. cbn in Hin.
    repeat destruct Hin as [Hin | Hin]; try contradiction;
      injection Hin as <- <- <-; intros E; try discriminate E. reflexivity. }
  destruct (carries "bomb-trap" _).
  - rewrite (Hpay eq_refl).
    destruct (Q.max_spec 0 (score s + points (eval (processTap s t card) w)))
      as [[Ha Ea] | [Ha Ea]];
    destruct (Q.max_spec 0
                (Qmax 0 (score s + points (eval (processTap s t card) w))
                 + -20)) as [[Hb Eb] | [Hb Eb]];
    rewrite Eb; rewrite ?Ea in *; split; lra.
  - destruct (Q.max_spec 0 (score s + points (eval (processTap s t card) w)))
      as [[Ha Ea] | [Ha Ea]]; rewrite Ea; split; lra.
Qed.

(** X15: in a reachable state a tap is worth between 0 and 50 points, and
    only a logo tap is worth any; the score after the tap is at most 50
    above and at most 20 below the score before. *)
Theorem points_per_tap_bounded (s : GameState) (t : TapType)
    (card : option string) (w : World) :
  reachable s ->
  let r := eval (processTap s t card) w in
  (0 <= points r /\ points r <= 50) /\
  (t <> logo -> points r = 0) /\
  score s - 20 <= score (applyTapResult s r) /\
  score (applyTapResult s r) <= score s + 50.
Proof. exact (tap_points_bounds s t card w). Qed.

Lemma points_per_tap_bounded_witness :
  let s := eval (s0 <- createInitialGameState ;;
                 foldTaps (repeat (logo, None) 45%nat) s0)
                (mkWorld (fun _ => 0) (fun _ => EmptyString)) in
  points (eval (processTap s logo None)
               (mkWorld (fun _ => 0) (fun _ => EmptyString))) <= 50.
Proof.
  cbv zeta.
  apply (points_per_tap_bounded _ logo None
           (mkWorld (fun _ => 0) (fun _ => EmptyString))
           (session_reachable _ _)).
Defined.

(** X16: a gift revealing golden-monad or glitch-purge changes nothing:
    score, lives, time left, combo, streak, difficulty and active effects
    are what they were. *)
Theorem instant_cards_without_effect (s : GameState) (card : string)
    (w : World) :
  card = "golden-monad"%string \/ card = "glitch-purge"%string ->
  0 <= score s -> 0 <= lives s ->
  let s' := eval (tapStep s gift (Some card)) w in
  score s' == score s /\ lives s' == lives s /\ timeLeft s' = timeLeft s /\
  combo s' = combo s /\ streak s' = streak s /\
  gameStartTime s' = gameStartTime s /\ difficulty s' = difficulty s /\
  activeEffects s' = activeEffects s.
Proof.
  intros Hcard Hsc Hl. cbv zeta.
  assert (E : eval (tapStep s gift (Some card)) w =
              mkGameState (Qmax 0 (score s + 0)) (Qmax 0 (lives s - 0))
                (timeLeft s) (combo s) (streak s) (gameStartTime s)
                (difficulty s) (activeEffects s)).
  { destruct Hcard as [-> | ->]; reflexivity. }
  rewrite E. cbn [score lives timeLeft combo streak gameStartTime difficulty
                  activeEffects].
  split; [rewrite Q.max_r; lra|]. split; [rewrite Q.max_r; lra|].
  repeat split.
Qed.

Lemma instant_cards_without_effect_witness :
  let s := mkGameState 40 3 77 1.5 6 0
             (mkDifficulty 0 BASE_FALL_SPEED BASE_SPAWN_RATE)
             [mkEffect "slow-motion" 300 (Some 0.5) 0] in
  let s' := eval (tapStep s gift (Some "glitch-purge"%string))
                 (mkWorld (fun _ => 9) (fun _ => EmptyString)) in
  score s' == 40 /\ activeEffects s' = activeEffects s.
Proof.
  cbv zeta.
  destruct (instant_cards_without_effect
              (mkGameState 40 3 77 1.5 6 0
                 (mkDifficulty 0 BASE_FALL_SPEED BASE_SPAWN_RATE)
                 [mkEffect "slow-motion" 300 (Some 0.5) 0])
              "glitch-purge" (mkWorld (fun _ => 9) (fun _ => EmptyString)))
    as (Hs & _ & _ & _ & _ & _ & _ & He);
    [right; reflexivity | qdec | qdec |].
  split; [exact Hs | exact He].
Defined.

(** ** Difficulty *)

(** X17: the difficulty never eases as time passes: level, fall speed and
    spawn rate do not decrease with the elapsed seconds; during the first 30
    seconds they are the base values (level 0, 100 px/s, 1.5 per second),
    and from then on never below them. *)
Theorem updateDifficulty_ramps :
  (forall e1 e2, e1 <= e2 ->
     level (updateDifficulty e1) <= level (updateDifficulty e2) /\
     fallSpeed (updateDifficulty e1) <= fallSpeed (updateDifficulty e2) /\
     spawnRate (updateDifficulty e1) <= spawnRate (updateDifficulty e2)) /\
  (forall e, 0 <= e -> e < 30 ->
     level (updateDifficulty e) == 0 /\
     fallSpeed (updateDifficulty e) == 100 /\
     spawnRate (updateDifficulty e) == 1.5) /\
  (forall e, 0 <= e ->
     100 <= fallSpeed (updateDifficulty e) /\
     1.5 <= spawnRate (updateDifficulty e)).
Proof.
  unfold updateDifficulty, DIFFICULTY_RAMP_INTERVAL, BASE_FALL_SPEED,
    BASE_SPAWN_RATE, SPEED_INCREASE_FACTOR, SPAWN_INCREASE_FACTOR, JS.Math_pow.
  cbn [level fallSpeed spawnRate].
  split; [|split].
  - intros e1 e2 He.
    assert (Hf : (Qfloor (e1 / 30) <= Qfloor (e2 / 30))%Z).
    { apply Qfloor_resp_le, Qdiv_le_mono; [reflexivity | exact He]. }
    split; [rewrite <- Zle_Qle; exact Hf|].
    split; apply Qmult_le_l; try reflexivity;
      apply Qpower_le_compat_l; try exact Hf; qdec.
  - intros e H0 H30.
    assert (Hf : Qfloor (e / 30) = 0%Z).
    { assert (Hlo : (Qfloor 0 <= Qfloor (e / 30))%Z).
      { apply Qfloor_resp_le, Qle_shift_div_l; [reflexivity | lra]. }
      assert (Hhi : inject_Z (Qfloor (e / 30)) < 1).
      { eapply Qle_lt_trans; [apply Qfloor_le|].
        apply Qlt_shift_div_r; [reflexivity | lra]. }
      change 1 with (inject_Z 1) in Hhi. rewrite <- Zlt_Qlt in Hhi.
      change (Qfloor 0) with 0%Z in Hlo. lia. }
    rewrite Hf. repeat split; qdec.
  - intros e H0.
    assert (Hf : (0 <= Qfloor (e / 30))%Z).
    { change 0%Z with (Qfloor 0).
      apply Qfloor_resp_le, Qle_shift_div_l; [reflexivity | lra]. }
    split.
    + setoid_replace 100 with (100 * 1) at 1 by ring.
      apply Qmult_le_l; [reflexivity|].
      apply Qpower_1_le; [qdec | exact Hf].
    + setoid_replace 1.5 with (1.5 * 1) at 1 by ring.
      apply Qmult_le_l; [reflexivity|].
      apply Qpower_1_le; [qdec | exact Hf].
Qed.

(** ** Modifiers and summary *)

Lemma found_value_timed (name : string) (v : Q) (l : list ActiveEffect) :
  (forall p, In (name, p) GameView.timed_cards -> p = Some v) ->
  Qeq_bool v 0 = false ->
  Forall GameView.timed_effect l ->
  GameView.found_value_or name l 1 =
    if existsb (is_type name) l then v else 1.
Proof.
  intros Hname Hv Hall. unfold GameView.found_value_or.
  induction Hall as [|e l [Hin _] _ IH]; [reflexivity|].
  cbn [find existsb]. destruct (is_type name e) eqn:E; [|exact IH].
  cbn [orb]. unfold is_type in E. apply String.eqb_eq in E.
  rewrite E in Hin. rewrite (Hname _ Hin), Hv. reflexivity.
Qed.

(** X18: in a reachable state the speed multiplier is 0.5 while a
    slow-motion effect is active and 1 otherwise, and the size multiplier is
    0.5 while a shrink-ray effect is active and 1 otherwise. *)
Theorem getGameModifiers_multipliers (s : GameState) :
  reachable s ->
  GameView.slowMotion (GameView.getGameModifiers s) =
    (if existsb (is_type "slow-motion") (activeEffects s) then 0.5 else 1) /\
  GameView.shrinkRay (GameView.getGameModifiers s) =
    (if existsb (is_type "shrink-ray") (activeEffects s) then 0.5 else 1).
Proof.
  intros Hs. destruct (effects_invariant s Hs) as [Hall _].
  unfold GameView.getGameModifiers; cbn [GameView.slowMotion GameView.shrinkRay].
  split; apply found_value_timed; try reflexivity; try exact Hall;
    intros p Hin; cbn in Hin;
    repeat destruct Hin as [Hin | Hin]; try contradiction;
    try discriminate Hin; injection Hin as <-; reflexivity.
Qed.

Lemma getGameModifiers_multipliers_witness :
  let s := eval (s0 <- createInitialGameState ;;
                 foldTaps [(gift, Some "slow-motion"%string)] s0)
                (mkWorld (fun _ => 0) (fun _ => EmptyString)) in
  GameView.slowMotion (GameView.getGameModifiers s) = 0.5 /\
  GameView.shrinkRay (GameView.getGameModifiers s) = 1.
Proof.
  cbv zeta.
  destruct (getGameModifiers_multipliers _
              (session_reachable [(gift, Some "slow-motion"%string)]
                 (mkWorld (fun _ => 0) (fun _ => EmptyString))))
    as [H1 H2].
  split; [rewrite H1 | rewrite H2]; reflexivity.
Defined.

Lemma Math_round_range (x : Q) (lo hi : Z) :
  inject_Z lo <= x -> x <= inject_Z hi ->
  inject_Z lo <= JS.Math_round x /\ JS.Math_round x <= inject_Z hi.
Proof.
  intros Hlo Hhi. unfold JS.Math_round. rewrite <- !Zle_Qle. split.
  - rewrite <- (Qfloor_Z lo). apply Qfloor_resp_le. lra.
  - apply Z.lt_succ_r. rewrite Zlt_Qlt.
    eapply Qle_lt_trans; [apply Qfloor_le|].
    unfold Z.succ. rewrite inject_Z_plus. change (inject_Z 1) with 1. lra.
Qed.

(** X19: for tap counts that are not negative, the accuracy of the summary
    is a percentage between 0 and 100; it is 0 when there was neither a logo
    nor a glitch tap. *)
Theorem generateGameSummary_accuracy (finalState : GameState)
    (totalTaps : GameView.TotalTaps) :
  0 <= GameView.logos totalTaps -> 0 <= GameView.glitches totalTaps ->
  let a := GameView.accuracy
             (GameView.generateGameSummary finalState totalTaps) in
  (0 <= a /\ a <= 100) /\
  (GameView.logos totalTaps + GameView.glitches totalTaps == 0 -> a == 0).
Proof.
  intros Hl Hg. cbv zeta.
  unfold GameView.generateGameSummary; cbn [GameView.accuracy].
  set (hits := GameView.logos totalTaps + GameView.glitches totalTaps).
  assert (Hacc : 0 <= (if JS.gt hits 0
                       then GameView.logos totalTaps / hits * 100 else 0) /\
                 (if JS.gt hits 0
                  then GameView.logos totalTaps / hits * 100 else 0) <= 100).
  { destruct (JS.gt hits 0) eqn:E; [|split; qdec].
    apply JS_gt_iff in E.
    assert (H0 : 0 <= GameView.logos totalTaps / hits)
      by (apply Qle_shift_div_l; [exact E | lra]).
    assert (H1 : GameView.logos totalTaps / hits <= 1)
      by (apply Qle_shift_div_r; [exact E | unfold hits; lra]).
    split; lra. }
  set (acc := if JS.gt hits 0
              then GameView.logos totalTaps / hits * 100 else 0) in *.
  destruct Hacc as [Ha0 Ha1].
  destruct (Math_round_range (acc * 100) 0 10000) as [Hr0 Hr1];
    [change (inject_Z 0) with 0; lra
    | change (inject_Z 10000) with 10000; lra |].
  change (inject_Z 0) with 0 in Hr0.
  change (inject_Z 10000) with 10000 in Hr1.
  split.
  - split.
    + apply Qle_shift_div_l; [reflexivity | lra].
    + apply Qle_shift_div_r; [reflexivity | lra].
  - intros Hz. unfold acc.
    assert (E : JS.gt hits 0 = false).
    { destruct (JS.gt hits 0) eqn:E; [|reflexivity].
      apply JS_gt_iff in E. lra. }
    rewrite E. qdec.
Qed.

Lemma generateGameSummary_accuracy_witness :
  let a := GameView.accuracy
             (GameView.generateGameSummary
                (mkGameState 80 5 0 1.5 7 0
                   (mkDifficulty 0 BASE_FALL_SPEED BASE_SPAWN_RATE) [])
                (GameView.mkTotalTaps 2 1 0)) in
  a == 66.67 /\ 0 <= a /\ a <= 100.
Proof.
  cbv zeta. split; [qdec|].
  apply generateGameSummary_accuracy; qdec.
Defined.

(** ** Anti-cheat validation *)

Lemma JS_lt_iff (a b : Q) : JS.lt a b = true <-> a < b.
Proof.
  unfold JS.lt. rewrite negb_true_iff. split.
  - intros E. apply Qnot_le_lt. intros H. apply Qle_bool_iff in H. congruence.
  - intros H. destruct (Qle_bool b a) eqn:E; [|reflexivity].
    apply Qle_bool_iff in E. lra.
Qed.

Lemma JS_lt_false_iff (a b : Q) : JS.lt a b = false <-> b <= a.
Proof. unfold JS.lt. rewrite negb_false_iff. apply Qle_bool_iff. Qed.

Lemma JS_gt_false_iff (a b : Q) : JS.gt a b = false <-> a <= b.
Proof. unfold JS.gt. rewrite negb_false_iff. apply Qle_bool_iff. Qed.

Lemma isValid_validateTapTiming (c l : Q) :
  AntiCheat.isValid (AntiCheat.validateTapTiming c l) = true <-> 50 <= c - l.
Proof.
  unfold AntiCheat.validateTapTiming, AntiCheat.MIN_TAP_INTERVAL.
  destruct (JS.lt (c - l) 50) eqn:E; cbn [AntiCheat.isValid AntiCheat.accepted].
  - apply JS_lt_iff in E. split; [discriminate | lra].
  - apply JS_lt_false_iff in E. tauto.
Qed.

Lemma isValid_validateTapPosition (p : Physics.Vector2) :
  AntiCheat.isValid (AntiCheat.validateTapPosition p) = true <->
  (0 <= Physics.x p /\ Physics.x p <= 800) /\
  (0 <= Physics.y p /\ Physics.y p <= 600).
Proof.
  unfold AntiCheat.validateTapPosition, AntiCheat.minX, AntiCheat.maxX,
    AntiCheat.minY, AntiCheat.maxY.
  destruct (JS.lt (Physics.x p) 0) eqn:E1;
    [apply JS_lt_iff in E1 | apply JS_lt_false_iff in E1];
  (destruct (JS.gt (Physics.x p) 800) eqn:E2;
    [apply JS_gt_iff in E2 | apply JS_gt_false_iff in E2]);
  (destruct (JS.lt (Physics.y p) 0) eqn:E3;
    [apply JS_lt_iff in E3 | apply JS_lt_false_iff in E3]);
  (destruct (JS.gt (Physics.y p) 600) eqn:E4;
    [apply JS_gt_iff in E4 | apply JS_gt_false_iff in E4]);
  cbn [orb AntiCheat.isValid AntiCheat.accepted];
  (split; [first [discriminate | tauto] | first [reflexivity | lra]]).
Qed.

Lemma isValid_validateSessionTiming (t start : Q) :
  AntiCheat.isValid (AntiCheat.validateSessionTiming t start) = true <->
  0 <= t - start /\ t - start <= 120000.
Proof.
  unfold AntiCheat.validateSessionTiming, AntiCheat.MAX_GAME_DURATION.
  destruct (JS.lt (t - start) 0) eqn:E1;
    [apply JS_lt_iff in E1 | apply JS_lt_false_iff in E1];
  (destruct (JS.gt (t - start) 120000) eqn:E2;
    [apply JS_gt_iff in E2 | apply JS_gt_false_iff in E2]);
  cbn [AntiCheat.isValid AntiCheat.accepted];
  (split; [first [discriminate | tauto] | first [reflexivity | lra]]).
Qed.

Lemma isValid_validateGameState (s : GameState) :
  AntiCheat.isValid (AntiCheat.validateGameState s) = true <->
  0 <= score s /\ 0 <= lives s /\ (1 <= combo s /\ combo s <= 5) /\
  Qabs (combo s - updateCombo (streak s)) <= 0.1.
Proof.
  unfold AntiCheat.validateGameState, AntiCheat.MAX_COMBO_MULTIPLIER.
  change (JS.Math_min (1 + JS.Math_floor (streak s / 5) * 0.5) 5)
    with (updateCombo (streak s)).
  destruct (JS.gt (combo s) 5) eqn:E1;
    [apply JS_gt_iff in E1 | apply JS_gt_false_iff in E1];
  (destruct (JS.lt (score s) 0) eqn:E2;
    [apply JS_lt_iff in E2 | apply JS_lt_false_iff in E2]);
  (destruct (JS.lt (lives s) 0) eqn:E3;
    [apply JS_lt_iff in E3 | apply JS_lt_false_iff in E3]);
  (destruct (JS.lt (combo s) 1) eqn:E4;
    [apply JS_lt_iff in E4 | apply JS_lt_false_iff in E4]);
  cbn [orb AntiCheat.isValid AntiCheat.accepted];
  try (split; [discriminate | lra]).
  destruct (JS.gt (Qabs (combo s - updateCombo (streak s))) 0.1) eqn:E5;
    [apply JS_gt_iff in E5 | apply JS_gt_false_iff in E5];
  cbn [AntiCheat.isValid AntiCheat.accepted];
  (split; [first [discriminate | tauto] | first [reflexivity | lra]]).
Qed.

Lemma validateGameState_valid_accepted (s : GameState) :
  AntiCheat.isValid (AntiCheat.validateGameState s) = true ->
  AntiCheat.validateGameState s = AntiCheat.accepted.
Proof.
  unfold AntiCheat.validateGameState.
  repeat match goal with
         | |- context [if ?b then _ else _] => destruct b
         end; cbn [AntiCheat.isValid]; first [discriminate | reflexivity].
Qed.

(** Reachable states pass the state check. *)
Lemma reachable_passes_state_check (s : GameState) :
  reachable s -> AntiCheat.validateGameState s = AntiCheat.accepted.
Proof.
  intros Hs. apply validateGameState_valid_accepted.
  apply isValid_validateGameState.
  destruct (reachable_bounds s Hs) as (Hsc & Hl0 & _ & Hk & _).
  pose proof (reachable_combo s Hs) as Hc.
  destruct (updateCombo_range (streak s) Hk) as [H1 H5].
  repeat split; try assumption; try (rewrite Hc; assumption).
  assert (E : combo s - updateCombo (streak s) == 0) by (rewrite Hc; ring).
  rewrite E. vm_compute. discriminate.
Qed.

(** X20: the server's state check accepts every state the game can reach:
    an honest game is never flagged for its score, lives, combo or
    streak. *)
Theorem validateGameState_accepts_reachable (s : GameState) :
  reachable s -> AntiCheat.validateGameState s = AntiCheat.accepted.
Proof. exact (reachable_passes_state_check s). Qed.

Lemma validateGameState_accepts_reachable_witness :
  AntiCheat.validateGameState
    (eval (s0 <- createInitialGameState ;; tapStep s0 logo None)
          (mkWorld (fun _ => 0) (fun _ => EmptyString))) = AntiCheat.accepted.
Proof.
  apply validateGameState_accepts_reachable.
  rewrite eval_bind. apply reach_tap, reach_init.
Defined.

(** X21: validateAction accepts an action exactly when it comes at least
    50 ms after the last one, lies in the 800 x 600 area, falls within
    120 s of the session start and the game state passes the state check;
    an accepted action gets the plain accepting result, and a tap that
    comes too fast is rejected with high severity whatever else holds. *)
Theorem validateAction_accepts_iff (a : AntiCheat.Action)
    (c : AntiCheat.Context) :
  (AntiCheat.isValid (AntiCheat.validateAction a c) = true <->
     50 <= AntiCheat.timestamp a - AntiCheat.lastActionTimestamp c /\
     ((0 <= Physics.x (AntiCheat.position a) /\
       Physics.x (AntiCheat.position a) <= 800) /\
      (0 <= Physics.y (AntiCheat.position a) /\
       Physics.y (AntiCheat.position a) <= 600)) /\
     (0 <= AntiCheat.timestamp a - AntiCheat.sessionStartTime c /\
      AntiCheat.timestamp a - AntiCheat.sessionStartTime c <= 120000) /\
     AntiCheat.isValid (AntiCheat.validateGameState (AntiCheat.gameState c))
       = true) /\
  (AntiCheat.isValid (AntiCheat.validateAction a c) = true ->
     AntiCheat.validateAction a c = AntiCheat.accepted) /\
  (AntiCheat.timestamp a - AntiCheat.lastActionTimestamp c < 50 ->
     AntiCheat.isValid (AntiCheat.validateAction a c) = false /\
     AntiCheat.severity (AntiCheat.validateAction a c) = AntiCheat.high).
Proof.
  pose proof (isValid_validateTapTiming (AntiCheat.timestamp a)
                (AntiCheat.lastActionTimestamp c)) as Ht.
  pose proof (isValid_validateTapPosition (AntiCheat.position a)) as Hp.
  pose proof (isValid_validateSessionTiming (AntiCheat.timestamp a)
                (AntiCheat.sessionStartTime c)) as Hw.
  assert (Hfast : AntiCheat.timestamp a - AntiCheat.lastActionTimestamp c < 50
                  -> AntiCheat.validateTapTiming (AntiCheat.timestamp a)
                       (AntiCheat.lastActionTimestamp c)
                     = AntiCheat.mkResult false
                         (AntiCheat.reason
                            (AntiCheat.validateTapTiming
                               (AntiCheat.timestamp a)
                               (AntiCheat.lastActionTimestamp c)))
                         AntiCheat.high).
  { intros H. apply JS_lt_iff in H. unfold AntiCheat.validateTapTiming.
    unfold AntiCheat.MIN_TAP_INTERVAL. rewrite H. reflexivity. }
  unfold AntiCheat.validateAction. cbv zeta.
  destruct (AntiCheat.isValid (AntiCheat.validateTapTiming _ _)) eqn:E1;
    cbn [negb].
  - destruct (AntiCheat.isValid (AntiCheat.validateTapPosition _)) eqn:E2;
      cbn [negb].
    + destruct (AntiCheat.isValid (AntiCheat.validateSessionTiming _ _))
        eqn:E3; cbn [negb].
      * destruct (AntiCheat.isValid (AntiCheat.validateGameState _)) eqn:E4;
          cbn [negb AntiCheat.isValid AntiCheat.accepted].
        -- split; [|split].
           ++ split; [intros _|reflexivity].
              pose proof (proj1 Ht eq_refl). pose proof (proj1 Hp eq_refl).
              pose proof (proj1 Hw eq_refl). tauto.
           ++ reflexivity.
           ++ intros H. pose proof (proj1 Ht eq_refl). lra.
        -- rewrite E4. split; [|split].
           ++ split; [discriminate | intros (_ & _ & _ & H); discriminate H].
           ++ discriminate.
           ++ intros H. pose proof (proj1 Ht eq_refl). lra.
      * rewrite E3. split; [|split].
        -- split; [discriminate|]. intros (_ & _ & H & _).
           apply Hw in H. discriminate H.
        -- discriminate.
        -- intros H. pose proof (proj1 Ht eq_refl). lra.
    + rewrite E2. split; [|split].
      * split; [discriminate|]. intros (_ & H & _).
        apply Hp in H. discriminate H.
      * discriminate.
      * intros H. pose proof (proj1 Ht eq_refl). lra.
  - rewrite E1. split; [|split].
    + split; [discriminate|]. intros (H & _). apply Ht in H. discriminate H.
    + discriminate.
    + intros H. rewrite (Hfast H). split; reflexivity.
Qed.

(** The failed checks of one severity, as [assessRisk] counts them. *)
Lemma failures_count (v : AntiCheat.Severity)
    (results : list AntiCheat.ValidationResult) :
  List.length
    (filter (AntiCheat.is_severity v)
            (filter (fun result => negb (AntiCheat.isValid result)) results))
  = failures v results.
Proof.
  unfold failures.
  induction results as [|r rest IH]; [reflexivity|].
  cbn [filter]. destruct (negb (AntiCheat.isValid r)); cbn [andb filter].
  - destruct (AntiCheat.is_severity v r); cbn [List.length];
      rewrite IH; reflexivity.
  - exact IH.
Qed.

(** X22: assessRisk asks for rejection exactly when one check failed with
    high severity or two failed with medium severity; the risk level is
    high for one high or three medium failures, and low only when nothing
    failed with medium or high severity and at most three checks failed;
    it reports one reason per failed check.  (Two medium failures reject at
    risk level medium.) *)
Theorem assessRisk_decision (results : list AntiCheat.ValidationResult) :
  let r := AntiCheat.assessRisk results in
  (AntiCheat.shouldReject r = true <->
     (1 <= failures AntiCheat.high results \/
      2 <= failures AntiCheat.medium results)%nat) /\
  (AntiCheat.riskLevel r = AntiCheat.high <->
     (1 <= failures AntiCheat.high results \/
      3 <= failures AntiCheat.medium results)%nat) /\
  (AntiCheat.riskLevel r = AntiCheat.low <->
     failures AntiCheat.high results = 0%nat /\
     failures AntiCheat.medium results = 0%nat /\
     (failed results <= 3)%nat) /\
  List.length (AntiCheat.reasons r) = failed results.
Proof.
  cbv zeta. unfold AntiCheat.assessRisk.
  rewrite !failures_count. unfold failed.
  set (h := failures AntiCheat.high results).
  set (m := failures AntiCheat.medium results).
  set (f := List.length (filter _ results)).
  assert (Hlen : forall (lv : AntiCheat.Severity) (b : bool),
            List.length
              (AntiCheat.reasons
                 {| AntiCheat.riskLevel := lv; AntiCheat.shouldReject := b;
                    AntiCheat.reasons :=
                      map (fun result =>
                             JS.or_string (AntiCheat.reason result)
                                          "Unknown validation error"%string)
                          (filter (fun result =>
                                     negb (AntiCheat.isValid result))
                                  results) |}) = f).
  { intros lv b. apply length_map. }
  destruct (Nat.ltb 0 h) eqn:Eh;
    [apply Nat.ltb_lt in Eh | apply Nat.ltb_ge in Eh].
  { split; [|split; [|split]]; [| | |apply Hlen];
      cbn [AntiCheat.shouldReject AntiCheat.riskLevel].
    - split; [intros _; lia | reflexivity].
    - split; [intros _; lia | reflexivity].
    - split; [discriminate | intros (? & ? & ?); lia]. }
  destruct (Nat.ltb 2 m) eqn:Em2;
    [apply Nat.ltb_lt in Em2 | apply Nat.ltb_ge in Em2].
  { split; [|split; [|split]]; [| | |apply Hlen];
      cbn [AntiCheat.shouldReject AntiCheat.riskLevel].
    - split; [intros _; lia | reflexivity].
    - split; [intros _; lia | reflexivity].
    - split; [discriminate | intros (? & ? & ?); lia]. }
  destruct (Nat.ltb 0 m || Nat.ltb 3 f) eqn:Emf.
  { split; [|split; [|split]]; [| | |apply Hlen];
      cbn [AntiCheat.shouldReject AntiCheat.riskLevel].
    - rewrite Nat.ltb_lt. split; intros H; lia.
    - split; [discriminate | intros H; lia].
    - split; [discriminate|]. intros (? & ? & ?).
      apply orb_true_iff in Emf. rewrite !Nat.ltb_lt in Emf. lia. }
  apply orb_false_iff in Emf. rewrite !Nat.ltb_ge in Emf.
  split; [|split; [|split]]; [| | |apply Hlen];
    cbn [AntiCheat.shouldReject AntiCheat.riskLevel].
  - split; [discriminate | intros H; lia].
  - split; [discriminate | intros H; lia].
  - split; [intros _; lia | reflexivity].
Qed.


(** ** The action route *)

Lemma JS_le_false_iff (a b : Q) : JS.le a b = false <-> b < a.
Proof.
  unfold JS.le. split.
  - intros E. apply Qnot_le_lt. intros H. apply Qle_bool_iff in H. congruence.
  - intros H. destruct (Qle_bool a b) eqn:E; [|reflexivity].
    apply Qle_bool_iff in E. lra.
Qed.


Lemma subseq_length {A : Type} (l2 : list A) :
  forall l1, subseq l1 l2 -> (List.length l1 <= List.length l2)%nat.
Proof.
  induction l2 as [|b l2 IH]; intros l1 H; cbn in H.
  - subst. apply Nat.le_refl.
  - destruct H as [H | H].
    + apply IH in H. cbn. lia.
    + destruct l1 as [|a l1]; [contradiction|].
      destruct H as [_ H]. apply IH in H. cbn. lia.
Qed.

(** What one action does to the loop variables. *)
Lemma validateOne_cases (sessionId : string) (startTime : Q)
    (b : ActionRoute.Batch) (a : ActionRoute.ActionData) (w : World) :
  (ActionRoute.validateOne sessionId startTime b a w
     = (ActionRoute.reject b, w) /\
   ~ (ActionRoute.lastActionTime b + 50 < ActionRoute.timestamp a /\
      ActionRoute.in_bounds startTime a)) \/
  (ActionRoute.validateOne sessionId startTime b a w
     = (let (s, w') := tapStep (ActionRoute.gameState b)
                               (ActionRoute.type a) None w in
        ({| ActionRoute.gameState := s;
            ActionRoute.validated := S (ActionRoute.validated b);
            ActionRoute.rejected := ActionRoute.rejected b;
            ActionRoute.lastActionTime := ActionRoute.timestamp a;
            ActionRoute.unflushed :=
              ActionRoute.stored sessionId a :: ActionRoute.unflushed b |},
         w')) /\
   ActionRoute.lastActionTime b + 50 < ActionRoute.timestamp a /\
   ActionRoute.in_bounds startTime a).
Proof.
  unfold ActionRoute.validateOne, ActionRoute.MIN_TAP_INTERVAL,
    ActionRoute.in_bounds.
  destruct (JS.le _ _) eqn:E1.
  { left. split; [reflexivity|]. apply Qle_bool_iff in E1. lra. }
  apply JS_le_false_iff in E1.
  destruct (JS.lt (ActionRoute.timestamp a) startTime) eqn:E2;
    [apply JS_lt_iff in E2 | apply JS_lt_false_iff in E2];
    cbn [orb].
  { left. split; [reflexivity|]. lra. }
  destruct (JS.gt (ActionRoute.timestamp a) (startTime + 120000)) eqn:E3;
    [apply JS_gt_iff in E3 | apply JS_gt_false_iff in E3].
  { left. split; [reflexivity|]. lra. }
  destruct (JS.lt (Physics.x (ActionRoute.position a)) 0) eqn:E4;
    [apply JS_lt_iff in E4 | apply JS_lt_false_iff in E4];
    cbn [orb].
  { left. split; [reflexivity|]. lra. }
  destruct (JS.gt (Physics.x (ActionRoute.position a)) 800) eqn:E5;
    [apply JS_gt_iff in E5 | apply JS_gt_false_iff in E5];
    cbn [orb].
  { left. split; [reflexivity|]. lra. }
  destruct (JS.lt (Physics.y (ActionRoute.position a)) 0) eqn:E6;
    [apply JS_lt_iff in E6 | apply JS_lt_false_iff in E6];
    cbn [orb].
  { left. split; [reflexivity|]. lra. }
  destruct (JS.gt (Physics.y (ActionRoute.position a)) 600) eqn:E7;
    [apply JS_gt_iff in E7 | apply JS_gt_false_iff in E7].
  { left. split; [reflexivity|]. lra. }
  right. split; [|repeat split; assumption].
  unfold tapStep, bind, ActionRoute.storeUnflushedAction, ActionRoute.stored.
  destruct (processTap _ _ _ w) as [r w1]. reflexivity.
Qed.







Lemma validateAction_isValid (a : AntiCheat.Action) (c : AntiCheat.Context) :
  AntiCheat.isValid (AntiCheat.validateAction a c) =
  AntiCheat.isValid (AntiCheat.validateTapTiming
                       (AntiCheat.timestamp a)
                       (AntiCheat.lastActionTimestamp c)) &&
  AntiCheat.isValid (AntiCheat.validateTapPosition (AntiCheat.position a)) &&
  AntiCheat.isValid (AntiCheat.validateSessionTiming
                       (AntiCheat.timestamp a)
                       (AntiCheat.sessionStartTime c)) &&
  AntiCheat.isValid (AntiCheat.validateGameState (AntiCheat.gameState c)).
Proof.
  unfold AntiCheat.validateAction. cbv zeta.
  destruct (AntiCheat.isValid (AntiCheat.validateTapTiming _ _)) eqn:E1;
    cbn [negb andb]; [|exact E1].
  destruct (AntiCheat.isValid (AntiCheat.validateTapPosition _)) eqn:E2;
    cbn [negb andb]; [|exact E2].
  destruct (AntiCheat.isValid (AntiCheat.validateSessionTiming _ _)) eqn:E3;
    cbn [negb andb]; [|exact E3].
  destruct (AntiCheat.isValid (AntiCheat.validateGameState _)) eqn:E4;
    cbn [negb]; [reflexivity | exact E4].
Qed.

(** X25: on a reachable state the action route and validateAction apply
    the same checks to an action, with one difference: the route wants
    more than 50 ms since the last accepted action, validateAction at
    least 50 ms.  So the route accepts only what validateAction accepts,
    and rejects an action validateAction accepts only when the gap is
    exactly 50 ms. *)
Theorem route_stricter_than_validateAction (sessionId : string)
    (startTime : Q) (b : ActionRoute.Batch) (a : ActionRoute.ActionData)
    (w : World) :
  reachable (ActionRoute.gameState b) ->
  let route_accepts :=
    ActionRoute.validated
      (eval (ActionRoute.validateOne sessionId startTime b a) w)
    = S (ActionRoute.validated b) in
  let library_accepts :=
    AntiCheat.isValid
      (AntiCheat.validateAction
         (AntiCheat.mkAction (ActionRoute.timestamp a)
                             (ActionRoute.position a) (ActionRoute.type a))
         (AntiCheat.mkContext (ActionRoute.lastActionTime b) startTime
                              (ActionRoute.gameState b))) = true in
  (route_accepts -> library_accepts) /\
  (library_accepts ->
   route_accepts \/
   ActionRoute.timestamp a - ActionRoute.lastActionTime b == 50) /\
  (ActionRoute.timestamp a - ActionRoute.lastActionTime b == 50 ->
   ~ route_accepts).
Proof.
  intros Hs. cbv zeta.
  rewrite validateAction_isValid. cbn [AntiCheat.timestamp AntiCheat.position
    AntiCheat.lastActionTimestamp AntiCheat.sessionStartTime
    AntiCheat.gameState].
  rewrite (reachable_passes_state_check _ Hs).
  cbn [AntiCheat.isValid AntiCheat.accepted]. rewrite andb_true_r.
  rewrite !andb_true_iff, isValid_validateTapTiming,
    isValid_validateTapPosition, isValid_validateSessionTiming.
  unfold eval.
  destruct (validateOne_cases sessionId startTime b a w)
    as [[E Hno] | [E [Hsp Hin]]]; rewrite E; clear E.
  - cbn [fst ActionRoute.reject ActionRoute.validated].
    unfold ActionRoute.in_bounds in Hno.
    split; [intros H; exfalso; lia|].
    split; [|intros _ H; lia].
    intros ((Ht & Hp) & Hw). right.
    destruct (Qlt_le_dec 50 (ActionRoute.timestamp a
                             - ActionRoute.lastActionTime b)) as [Hgt | Hle].
    + exfalso. apply Hno. split; [lra|]. split; [lra | exact Hp].
    + lra.
  - destruct (tapStep _ _ _ w) as [s1 w1].
    cbn [fst ActionRoute.validated].
    unfold ActionRoute.in_bounds in Hin.
    split; [intros _; repeat split; try apply Hin; lra|].
    split; [intros _; left; reflexivity|].
    intros H. lra.
Qed.

Lemma route_stricter_than_validateAction_witness :
  let b := ActionRoute.mkBatch
             (eval createInitialGameState
                   (mkWorld (fun _ => 0) (fun _ => EmptyString)))
             0 0 1000 [] in
  let a := ActionRoute.mkActionData 1050 (Physics.mkVector2 10 10) logo
                                    None None in
  AntiCheat.isValid
    (AntiCheat.validateAction
       (AntiCheat.mkAction 1050 (Physics.mkVector2 10 10) logo)
       (AntiCheat.mkContext 1000 0 (ActionRoute.gameState b))) = true /\
  ActionRoute.validated
    (eval (ActionRoute.validateOne "s"%string 0 b a)
          (mkWorld (fun _ => 0) (fun _ => EmptyString)))
  <> S (ActionRoute.validated b).
Proof.
  cbv zeta. split; [vm_compute; reflexivity|].
  apply (route_stricter_than_validateAction "s"%string 0
           (ActionRoute.mkBatch
              (eval createInitialGameState
                    (mkWorld (fun _ => 0) (fun _ => EmptyString)))
              0 0 1000 [])
           (ActionRoute.mkActionData 1050 (Physics.mkVector2 10 10) logo
                                     None None)
           (mkWorld (fun _ => 0) (fun _ => EmptyString))).
  - apply reach_init.
  - vm_compute. reflexivity.
Defined.

(** ** The finish route *)

Lemma replayEach_cons (startTime : Q) (tap : Replay.TapEvent)
    (rest : list Replay.TapEvent) (l : FinishRoute.Loop) (w : World) :
  FinishRoute.replayEach startTime (tap :: rest) l w =
  (let (l1, w1) := FinishRoute.replayOne startTime l tap w in
   FinishRoute.replayEach startTime rest l1 w1).
Proof. reflexivity. Qed.

(** What one tap of the history does to the loop variables. *)
Lemma replayOne_cases (startTime : Q) (l : FinishRoute.Loop)
    (tap : Replay.TapEvent) (w : World) :
  (FinishRoute.in_window startTime tap = false /\
   FinishRoute.replayOne startTime l tap w = (l, w)) \/
  (FinishRoute.in_window startTime tap = true /\
   exists l1 w1,
     FinishRoute.replayOne startTime l tap w = (l1, w1) /\
     (FinishRoute.gameState l1, w1)
       = tapStep (FinishRoute.gameState l) (Replay.result tap) None w /\
     FinishRoute.var_maxCombo l1
       = (if JS.gt (combo (FinishRoute.gameState l1))
                   (FinishRoute.var_maxCombo l)
          then combo (FinishRoute.gameState l1)
          else FinishRoute.var_maxCombo l) /\
     FinishRoute.var_longestStreak l1
       = (if JS.gt (streak (FinishRoute.gameState l1))
                   (FinishRoute.var_longestStreak l)
          then streak (FinishRoute.gameState l1)
          else FinishRoute.var_longestStreak l) /\
     FinishRoute.maxCombo (FinishRoute.stats l1)
       = (if JS.gt (combo (FinishRoute.gameState l1))
                   (FinishRoute.var_maxCombo l)
          then combo (FinishRoute.gameState l1)
          else FinishRoute.maxCombo (FinishRoute.stats l)) /\
     FinishRoute.longestStreak (FinishRoute.stats l1)
       = (if JS.gt (streak (FinishRoute.gameState l1))
                   (FinishRoute.var_longestStreak l)
          then streak (FinishRoute.gameState l1)
          else FinishRoute.longestStreak (FinishRoute.stats l)) /\
     FinishRoute.totalTaps (FinishRoute.stats l1)
       = FinishRoute.totalTaps (FinishRoute.stats l) /\
     FinishRoute.logos (FinishRoute.stats l1)
       = FinishRoute.logos (FinishRoute.stats l) /\
     FinishRoute.glitches (FinishRoute.stats l1)
       = FinishRoute.glitches (FinishRoute.stats l) /\
     FinishRoute.gifts (FinishRoute.stats l1)
       = FinishRoute.gifts (FinishRoute.stats l) /\
     FinishRoute.bombs (FinishRoute.stats l1)
       = FinishRoute.bombs (FinishRoute.stats l) /\
     FinishRoute.misses (FinishRoute.stats l1)
       = FinishRoute.misses (FinishRoute.stats l) /\
     (forall t, FinishRoute.stray (FinishRoute.stats l1) t
                = FinishRoute.same_type t (Replay.result tap)
                  || FinishRoute.stray (FinishRoute.stats l) t)).
Proof.
  unfold FinishRoute.replayOne, FinishRoute.in_window.
  destruct (JS.lt (Replay.timestamp tap) startTime ||
            JS.gt (Replay.timestamp tap) (startTime + 120000)).
  - left. split; reflexivity.
  - right. split; [reflexivity|].
    unfold tapStep, bind.
    destruct (processTap (FinishRoute.gameState l) (Replay.result tap) None w)
      as [r w1].
    cbn [ret].
    destruct (JS.gt (combo (applyTapResult (FinishRoute.gameState l) r))
                    (FinishRoute.var_maxCombo l)) eqn:Ec;
    destruct (JS.gt (streak (applyTapResult (FinishRoute.gameState l) r))
                    (FinishRoute.var_longestStreak l)) eqn:Ek;
    eexists; eexists; (split; [reflexivity|]);
    cbn [FinishRoute.gameState FinishRoute.var_maxCombo
         FinishRoute.var_longestStreak FinishRoute.stats
         FinishRoute.set_maxCombo FinishRoute.set_longestStreak
         FinishRoute.increment FinishRoute.maxCombo FinishRoute.longestStreak
         FinishRoute.totalTaps FinishRoute.logos FinishRoute.glitches
         FinishRoute.gifts FinishRoute.bombs FinishRoute.misses
         FinishRoute.stray];
    rewrite ?Ec, ?Ek; repeat split; reflexivity.
Qed.

(** The state the finish route replays is the state of the replay fold. *)
Lemma replayEach_gameState (startTime : Q) (tapHistory : list Replay.TapEvent) :
  forall (l : FinishRoute.Loop) (w : World),
  FinishRoute.gameState (fst (FinishRoute.replayEach startTime tapHistory l w))
    = eval (Replay.replayTaps startTime tapHistory (FinishRoute.gameState l)) w.
Proof.
  induction tapHistory as [|tap rest IH]; intros l w; [reflexivity|].
  rewrite replayEach_cons. cbn [Replay.replayTaps].
  destruct (replayOne_cases startTime l tap w)
    as [[Hw E] | [Hw (l1 & w1 & E & Hs & _)]]; rewrite E;
    unfold FinishRoute.in_window in Hw.
  - apply negb_false_iff in Hw. rewrite Hw. apply IH.
  - apply negb_true_iff in Hw. rewrite Hw.
    rewrite IH. unfold tapStep in Hs. unfold eval.
    unfold bind in *.
    destruct (processTap (FinishRoute.gameState l) (Replay.result tap) None w)
      as [r w2].
    cbn [ret] in Hs. injection Hs as -> ->. reflexivity.
Qed.

Lemma stats_invariant_step (startTime : Q) (l : FinishRoute.Loop)
    (tap : Replay.TapEvent) (w : World) :
  stats_invariant l ->
  stats_invariant (fst (FinishRoute.replayOne startTime l tap w)).
Proof.
  intros Hinv.
  destruct (replayOne_cases startTime l tap w)
    as [[_ E] | [_ (l1 & w1 & E & Hs & Hm & Hk & Hsm & Hsk & _)]];
    rewrite E; [exact Hinv|].
  cbn [fst].
  destruct Hinv as (Hr & Hinv & Hc & Hst & Hl0 & Esm & Esk).
  assert (Hr1 : reachable (FinishRoute.gameState l1)).
  { change (FinishRoute.gameState l1)
      with (fst (FinishRoute.gameState l1, w1)).
    rewrite Hs. apply reach_tap, Hr. }
  pose proof (reachable_combo _ Hr1) as Hc1.
  destruct (reachable_bounds _ Hr1) as (_ & _ & _ & Hk0 & _).
  unfold stats_invariant.
  rewrite Hm, Hk, Hsm, Hsk, Esm, Esk.
  split; [exact Hr1|].
  destruct (JS.gt (combo (FinishRoute.gameState l1))
                  (FinishRoute.var_maxCombo l)) eqn:Ec;
    [apply JS_gt_iff in Ec | apply JS_gt_false_iff in Ec];
  (destruct (JS.gt (streak (FinishRoute.gameState l1))
                   (FinishRoute.var_longestStreak l)) eqn:Ek;
    [apply JS_gt_iff in Ek | apply JS_gt_false_iff in Ek]).
  - repeat split; try reflexivity; lra.
  - exfalso. pose proof (updateCombo_mono _ _ Ek). lra.
  - assert (Hmono : updateCombo (FinishRoute.var_longestStreak l)
                    <= updateCombo (streak (FinishRoute.gameState l1))).
    { apply updateCombo_mono. lra. }
    repeat split; try reflexivity; try lra.
  - repeat split; try reflexivity; try lra.
Qed.

Lemma stats_invariant_run (startTime : Q) (tapHistory : list Replay.TapEvent) :
  forall (l : FinishRoute.Loop) (w : World),
  stats_invariant l ->
  stats_invariant (fst (FinishRoute.replayEach startTime tapHistory l w)).
Proof.
  induction tapHistory as [|tap rest IH]; intros l w Hinv; [exact Hinv|].
  rewrite replayEach_cons.
  pose proof (stats_invariant_step startTime l tap w Hinv) as H1.
  destruct (FinishRoute.replayOne startTime l tap w) as [l1 w1].
  apply IH, H1.
Qed.

(** The counters and the created keys after the loop. *)
Lemma stats_counters_run (startTime : Q) (tapHistory : list Replay.TapEvent) :
  forall (l : FinishRoute.Loop) (w : World),
  let st := FinishRoute.stats
              (fst (FinishRoute.replayEach startTime tapHistory l w)) in
  FinishRoute.totalTaps st = FinishRoute.totalTaps (FinishRoute.stats l) /\
  FinishRoute.logos st = FinishRoute.logos (FinishRoute.stats l) /\
  FinishRoute.glitches st = FinishRoute.glitches (FinishRoute.stats l) /\
  FinishRoute.gifts st = FinishRoute.gifts (FinishRoute.stats l) /\
  FinishRoute.bombs st = FinishRoute.bombs (FinishRoute.stats l) /\
  FinishRoute.misses st = FinishRoute.misses (FinishRoute.stats l) /\
  (forall t, FinishRoute.stray st t
             = existsb (fun tap => FinishRoute.in_window startTime tap &&
                                   FinishRoute.same_type t (Replay.result tap))
                       tapHistory
               || FinishRoute.stray (FinishRoute.stats l) t).
Proof.
  induction tapHistory as [|tap rest IH]; intros l w; cbv zeta.
  - cbn. repeat split; reflexivity.
  - rewrite replayEach_cons.
    destruct (replayOne_cases startTime l tap w)
      as [[Hw E] | [Hw (l1 & w1 & E & _ & _ & _ & _ & _
                        & Ht & Hlo & Hgl & Hgi & Hbo & Hmi & Hstray)]];
      rewrite E.
    + destruct (IH l w) as (H1 & H2 & H3 & H4 & H5 & H6 & H7).
      repeat split; try assumption.
      intros t. rewrite H7. cbn [existsb]. rewrite Hw. reflexivity.
    + destruct (IH l1 w1) as (H1 & H2 & H3 & H4 & H5 & H6 & H7).
      repeat split; try congruence.
      intros t. rewrite H7, Hstray. cbn [existsb]. rewrite Hw.
      cbn [andb].
      destruct (FinishRoute.same_type t (Replay.result tap));
        destruct (existsb _ rest); reflexivity.
Qed.

(** The response of the finish route, in terms of the loop. *)
Lemma finish_response (sessionId : string) (startTime clientFinalScore : Q)
    (tapHistory : list Replay.TapEvent) (w : World) :
  let l0 := FinishRoute.mkLoop (eval createInitialGameState w) 1 0
              (FinishRoute.mkStats (List.length tapHistory) 0 0 0 0 0 1 0
                                   (fun _ => false)) in
  let l := fst (FinishRoute.replayEach startTime tapHistory l0
                  (snd (createInitialGameState w))) in
  let r := eval (FinishRoute.finish sessionId startTime clientFinalScore
                                    tapHistory) w in
  FinishRoute.success r = true /\
  FinishRoute.finalScore r = score (FinishRoute.gameState l) /\
  FinishRoute.isValid r
    = JS.le (Qabs (score (FinishRoute.gameState l) - clientFinalScore)) 10 /\
  FinishRoute.scoreDifference r
    = (if FinishRoute.isValid r then None
       else Some (Qabs (score (FinishRoute.gameState l) - clientFinalScore))) /\
  FinishRoute.response_stats r = FinishRoute.stats l.
Proof.
  cbv zeta. unfold FinishRoute.finish. cbv zeta.
  rewrite !eval_bind. unfold eval.
  change (combo (fst (createInitialGameState w))) with 1.
  change (streak (fst (createInitialGameState w))) with 0.
  cbn [ret fst FinishRoute.success FinishRoute.finalScore FinishRoute.isValid
       FinishRoute.scoreDifference FinishRoute.response_stats].
  repeat split; reflexivity.
Qed.

(** X26: the statistics of the finish route.  totalTaps is the length of
    the history; the five counters logos, glitches, gifts, bombs and misses
    are 0 whatever was tapped, because the loop increments the key named by
    the tap result (logo, glitch, ...), which the object does not have; that
    key is created instead, for every result type met inside the session
    window.  maxCombo is the combo of longestStreak, and lies between 1
    and 5. *)
Theorem finish_statistics (sessionId : string)
    (startTime clientFinalScore : Q) (tapHistory : list Replay.TapEvent)
    (w : World) :
  let st := FinishRoute.response_stats
              (eval (FinishRoute.finish sessionId startTime clientFinalScore
                                        tapHistory) w) in
  FinishRoute.totalTaps st = List.length tapHistory /\
  (FinishRoute.logos st = 0 /\ FinishRoute.glitches st = 0 /\
   FinishRoute.gifts st = 0 /\ FinishRoute.bombs st = 0 /\
   FinishRoute.misses st = 0) /\
  (forall t, FinishRoute.stray st t
             = existsb (fun tap => FinishRoute.in_window startTime tap &&
                                   FinishRoute.same_type t (Replay.result tap))
                       tapHistory) /\
  FinishRoute.maxCombo st == updateCombo (FinishRoute.longestStreak st) /\
  (1 <= FinishRoute.maxCombo st /\ FinishRoute.maxCombo st <= 5) /\
  0 <= FinishRoute.longestStreak st.
Proof.
  cbv zeta.
  destruct (finish_response sessionId startTime clientFinalScore tapHistory w)
    as (_ & _ & _ & _ & ->).
  set (l0 := FinishRoute.mkLoop _ _ _ _).
  set (w0 := snd (createInitialGameState w)).
  destruct (stats_counters_run startTime tapHistory l0 w0)
    as (H1 & H2 & H3 & H4 & H5 & H6 & H7).
  assert (Hinv0 : stats_invariant l0).
  { unfold stats_invariant, l0.
    cbn [FinishRoute.gameState FinishRoute.var_maxCombo
         FinishRoute.var_longestStreak FinishRoute.stats
         FinishRoute.maxCombo FinishRoute.longestStreak].
    split; [apply reach_init|].
    repeat split; try reflexivity; qdec. }
  destruct (stats_invariant_run startTime tapHistory l0 w0 Hinv0)
    as (_ & Hinv & _ & _ & Hl0 & Esm & Esk).
  rewrite H1, H2, H3, H4, H5, H6, Esm, Esk.
  split; [reflexivity|].
  split; [repeat split; reflexivity|].
  split; [intros t; rewrite H7; apply orb_false_r|].
  split; [exact Hinv|].
  destruct (updateCombo_range _ Hl0) as [Ha Hb].
  split; [split; rewrite Hinv; assumption | exact Hl0].
Qed.

(** Only the bomb-trap card makes a bomb-trap effect. *)
Lemma createMagicCardEffect_bomb_trap (card : string) (w : World) :
  eff_type (eval (createMagicCardEffect card) w) = "bomb-trap"%string ->
  card = "bomb-trap"%string.
Proof.
  unfold createMagicCardEffect. rewrite eval_bind. cbn [ret eval fst].
  repeat match goal with
         | |- context [String.eqb card ?s] =>
             destruct (String.eqb_spec card s) as [-> | _];
             [cbn [eff_type]; first [discriminate | reflexivity]|]
         end.
  cbn [eff_type]. discriminate.
Qed.

Lemma updateGameState_outcome (s : GameState) (dt : Q) (w : World) :
  Replay.outcome (eval (updateGameState s dt) w) = Replay.outcome s.
Proof.
  unfold updateGameState. rewrite eval_bind, eval_bind. reflexivity.
Qed.

Lemma tapStep_agree (s1 s2 : GameState) (t : TapType) (card : option string)
    (w1 w2 : World) :
  agree s1 s2 ->
  (t = gift -> JS.or_string card "time-freeze" <> "bomb-trap"%string) ->
  agree (eval (tapStep s1 t card) w1) (eval (tapStep s2 t None) w2).
Proof.
  intros (Ho & Hg1 & Hg2) Hcard.
  split; [|split; apply tapStep_no_golden; assumption].
  unfold Replay.outcome in *. injection Ho as Hsc Hl Hc Hk.
  unfold tapStep. rewrite !eval_bind. cbn [ret eval fst].
  rewrite !applyTapResult_score, !applyTapResult_lives,
    !applyTapResult_combo, !applyTapResult_streak.
  destruct t; cbn [processTap].
  - rewrite Hg1, Hg2. cbn [ret eval fst carries effect points livesLost
                           newCombo newStreak].
    rewrite Hsc, Hl, Hc, Hk. reflexivity.
  - cbn [ret eval fst carries effect points livesLost newCombo newStreak].
    rewrite Hsc, Hl. reflexivity.
  - rewrite !eval_bind.
    cbn [ret eval fst carries effect points livesLost newCombo newStreak].
    assert (E1 : String.eqb
                   (eff_type (eval (createMagicCardEffect
                                      (JS.or_string card "time-freeze")) w1))
                   "bomb-trap" = false).
    { apply String.eqb_neq. intros Eb. apply (Hcard eq_refl).
      apply (createMagicCardEffect_bomb_trap _ w1), Eb. }
    assert (E2 : String.eqb
                   (eff_type (eval (createMagicCardEffect
                                      (JS.or_string None "time-freeze")) w2))
                   "bomb-trap" = false) by reflexivity.
    rewrite E1, E2.
    rewrite Hsc, Hl, Hc, Hk. reflexivity.
  - cbn [ret eval fst carries effect points livesLost newCombo newStreak].
    rewrite Hsc, Hl. reflexivity.
  - cbn [ret eval fst carries effect points livesLost newCombo newStreak].
    rewrite Hsc, Hl. reflexivity.
Qed.

Lemma clientRun_agree (startTime : Q) (events : list ClientEvent) :
  forall (s1 s2 : GameState) (w1 w2 : World),
  agree s1 s2 ->
  no_bomb_trap events ->
  Forall (fun tap => FinishRoute.in_window startTime tap = true)
         (tapHistoryOf events) ->
  agree (eval (clientRun events s1) w1)
        (eval (Replay.replayTaps startTime (tapHistoryOf events) s2) w2).
Proof.
  induction events as [|e rest IH]; intros s1 s2 w1 w2 Ha Hnb Hw.
  - exact Ha.
  - destruct e as [ts pos t card | dt].
    + cbn [clientRun tapHistoryOf Replay.replayTaps Replay.timestamp
           Replay.result] in *.
      inversion Hw as [|tap l Hin Hrest]; subst.
      unfold FinishRoute.in_window in Hin. cbn [Replay.timestamp] in Hin.
      apply negb_true_iff in Hin. rewrite Hin.
      assert (Eq : eval (tapResult <- processTap s2 t None ;;
                         Replay.replayTaps startTime (tapHistoryOf rest)
                           (applyTapResult s2 tapResult)) w2
                   = eval (Replay.replayTaps startTime (tapHistoryOf rest)
                             (eval (tapStep s2 t None) w2))
                          (snd (tapStep s2 t None w2))).
      { unfold eval, tapStep, bind, ret.
        destruct (processTap s2 t None w2). reflexivity. }
      rewrite Eq, eval_bind.
      assert (Hstep : agree (eval (tapStep s1 t card) w1)
                            (eval (tapStep s2 t None) w2)).
      { apply tapStep_agree; [exact Ha|].
        intros ->. destruct card as [c|].
        - destruct Hnb as [Hc _]. destruct c; cbn; [discriminate | exact Hc].
        - cbn. discriminate. }
      assert (Hrest' : no_bomb_trap rest).
      { destruct t; try exact Hnb. destruct card; [apply Hnb | exact Hnb]. }
      apply IH; assumption.
    + cbn [clientRun tapHistoryOf] in *. rewrite eval_bind.
      apply IH; try assumption.
      destruct Ha as (Ho & Hg1 & Hg2).
      split; [rewrite updateGameState_outcome; exact Ho|].
      split; [|exact Hg2].
      rewrite updateGameState_effects.
      apply updateActiveEffects_no_golden, Hg1.
Qed.

(** X27: the finish route confirms an honest client.  For a client run of
    taps and frames from the initial state whose taps all fall inside the
    session window and whose gifts revealed no bomb-trap card, the server's
    replay of the tap history ends with the client's score, so the response
    gives that score, isValid = true and no score difference.  (The replay
    is not told the cards: it takes every gift as a time-freeze, which
    leaves the score alone, as every card but bomb-trap does.) *)
Theorem finish_accepts_honest_play (sessionId : string) (startTime : Q)
    (events : list ClientEvent) (w1 w2 : World) :
  no_bomb_trap events ->
  Forall (fun tap => FinishRoute.in_window startTime tap = true)
         (tapHistoryOf events) ->
  let client :=
    eval (s0 <- createInitialGameState ;; clientRun events s0) w1 in
  let r := eval (FinishRoute.finish sessionId startTime (score client)
                                    (tapHistoryOf events)) w2 in
  FinishRoute.finalScore r = score client /\
  FinishRoute.isValid r = true /\
  FinishRoute.scoreDifference r = None.
Proof.
  intros Hnb Hw. cbv zeta.
  destruct (finish_response sessionId startTime
              (score (eval (s0 <- createInitialGameState ;;
                            clientRun events s0) w1))
              (tapHistoryOf events) w2)
    as (_ & Hf & Hv & Hd & _).
  cbv zeta in Hf, Hv, Hd.
  rewrite replayEach_gameState in Hf, Hv, Hd.
  cbn [FinishRoute.gameState] in Hf, Hv, Hd.
  assert (Ha : agree (eval (s0 <- createInitialGameState ;;
                            clientRun events s0) w1)
                     (eval (Replay.replayTaps startTime (tapHistoryOf events)
                              (eval createInitialGameState w2))
                           (snd (createInitialGameState w2)))).
  { rewrite eval_bind. apply clientRun_agree; try assumption.
    split; [reflexivity | split; reflexivity]. }
  assert (Hsc : score (eval (s0 <- createInitialGameState ;;
                             clientRun events s0) w1)
                = score (eval (Replay.replayTaps startTime
                                 (tapHistoryOf events)
                                 (eval createInitialGameState w2))
                              (snd (createInitialGameState w2)))).
  { destruct Ha as (Ho & _). unfold Replay.outcome in Ho. congruence. }
  rewrite <- Hsc in Hf, Hv, Hd.
  assert (Hvalid : FinishRoute.isValid
                     (eval (FinishRoute.finish sessionId startTime
                              (score (eval (s0 <- createInitialGameState ;;
                                            clientRun events s0) w1))
                              (tapHistoryOf events)) w2) = true).
  { rewrite Hv. unfold JS.le. apply Qle_bool_iff.
    setoid_replace (score (eval (s0 <- createInitialGameState ;;
                                 clientRun events s0) w1)
                    - score (eval (s0 <- createInitialGameState ;;
                                   clientRun events s0) w1)) with 0 by ring.
    vm_compute. discriminate. }
  split; [exact Hf|]. split; [exact Hvalid|].
  rewrite Hd, Hvalid. reflexivity.
Qed.

Lemma finish_accepts_honest_play_witness :
  let events :=
    [ Tap 100 (Physics.mkVector2 10 10) logo None;
      Frame 16;
      Tap 400 (Physics.mkVector2 20 30) gift (Some "slow-motion"%string);
      Tap 900 (Physics.mkVector2 20 30) logo None ] in
  FinishRoute.isValid
    (eval (FinishRoute.finish "s"%string 0 20 (tapHistoryOf events))
          (mkWorld (fun _ => 7) (fun _ => EmptyString))) = true.
Proof.
  cbv zeta.
  apply (finish_accepts_honest_play "s"%string 0
           [ Tap 100 (Physics.mkVector2 10 10) logo None;
             Frame 16;
             Tap 400 (Physics.mkVector2 20 30) gift (Some "slow-motion"%string);
             Tap 900 (Physics.mkVector2 20 30) logo None ]
           (mkWorld (fun _ => 0) (fun _ => EmptyString))
           (mkWorld (fun _ => 7) (fun _ => EmptyString))).
  - cbn. split; [discriminate | exact I].
  - repeat constructor.
Defined.

(** ** The game session *)

Lemma same_frames_refl (sys : Session.Sys) : same_frames sys sys.
Proof. repeat split. Qed.

Lemma same_frames_trans (a b c : Session.Sys) :
  same_frames a b -> same_frames b c -> same_frames a c.
Proof.
  unfold same_frames. intros (H1 & H2 & H3 & H4) (K1 & K2 & K3 & K4).
  repeat split; congruence.
Qed.

Lemma quiet_ret {A : Type} (a : A) : quiet (ret a : Session.G A).
Proof. intros sys. apply same_frames_refl. Qed.

Lemma quiet_bind {A B : Type} (m : Session.G A) (f : A -> Session.G B) :
  quiet m -> (forall a, quiet (f a)) -> quiet (bind m f).
Proof.
  intros Hm Hf sys. unfold bind.
  pose proof (Hm sys) as H1. destruct (m sys) as [a sys1]. cbn [snd] in H1.
  eapply same_frames_trans; [exact H1 | apply Hf].
Qed.

Lemma quiet_world {A : Type} (m : M A) : quiet (Session.world m).
Proof.
  intros sys. unfold Session.world. destruct (m (Session.env sys)).
  repeat split.
Qed.

Lemma quiet_onHeap {A : Type} (m : Physics.H A) : quiet (Session.onHeap m).
Proof.
  intros sys. unfold Session.onHeap. destruct (m (Session.heap sys)).
  repeat split.
Qed.

Lemma quiet_alloc (o : Physics.GameObject) : quiet (Session.alloc o).
Proof. intros sys. repeat split. Qed.

Lemma quiet_onSpawnManager {A : Type} (sm : Spawn.SpawnManager)
    (m : Spawn.Sp A) : quiet (Session.onSpawnManager sm m).
Proof.
  intros sys. unfold Session.onSpawnManager.
  destruct (m (sm, Session.env sys)) as [a [sm' w]]. repeat split.
Qed.

Lemma quiet_mapG {A B : Type} (f : A -> Session.G B) (l : list A) :
  (forall a, quiet (f a)) -> quiet (Session.mapG f l).
Proof.
  intros Hf. induction l as [|a rest IH]; cbn [Session.mapG].
  - apply quiet_ret.
  - apply quiet_bind; [apply Hf|]. intros b.
    apply quiet_bind; [exact IH|]. intros bs. apply quiet_ret.
Qed.

(** Running a quiet computation first. *)
Lemma bind_quiet {A B : Type} (m : Session.G A) (f : A -> Session.G B)
    (sys : Session.Sys) :
  quiet m ->
  exists a sys1, same_frames sys sys1 /\ bind m f sys = f a sys1.
Proof.
  intros Hm. pose proof (Hm sys) as H. unfold bind.
  destruct (m sys) as [a sys1]. exists a, sys1. split; [exact H | reflexivity].
Qed.

(** [endGame] on a system with a session. *)
Lemma endGame_run (sys : Session.Sys) (s : Session.GameSession) :
  Session.session sys = Some s ->
  let sys' := snd (Session.endGame sys) in
  Session.session sys' = Some (Session.set_state Session.FINISHED s) /\
  Session.animationFrameId sys' = None /\
  Session.pending sys'
    = match Session.animationFrameId sys with
      | Some handle =>
          filter (fun i => negb (Pos.eqb i handle)) (Session.pending sys)
      | None => Session.pending sys
      end /\
  Session.next_frame sys' = Session.next_frame sys /\
  Session.heap sys' = Session.heap sys.
Proof.
  intros Hs. cbv zeta. unfold Session.endGame, Session.onSession.
  unfold bind at 1. unfold Session.get at 1. rewrite Hs.
  destruct sys as [ss af h nr pe nf w]. cbn in Hs. subst ss.
  destruct af as [handle|]; cbn; repeat split; reflexivity.
Qed.

(** [updateGame] on a system with a session: the game state moves by
    [updateGameState], and the game ends when that state is over. *)
Lemma updateGame_run (config : Session.GameConfig) (deltaTime : Q)
    (sys : Session.Sys) (s : Session.GameSession) :
  Session.session sys = Some s ->
  let sys' := snd (Session.updateGame config deltaTime sys) in
  let gs := eval (updateGameState (Session.gameState s) deltaTime)
                 (Session.env sys) in
  exists objects sm,
    Session.session sys'
      = Some (Session.set_stateHash (StateHash.calculateStateHash gs)
                ((if isGameOver gs then Session.set_state Session.FINISHED
                  else fun x => x)
                   (Session.set_objects objects
                      (Session.set_spawnManager sm
                         (Session.set_gameState gs s))))) /\
    Session.animationFrameId sys'
      = (if isGameOver gs then None else Session.animationFrameId sys) /\
    Session.pending sys'
      = (if isGameOver gs then
           match Session.animationFrameId sys with
           | Some handle =>
               filter (fun i => negb (Pos.eqb i handle)) (Session.pending sys)
           | None => Session.pending sys
           end
         else Session.pending sys) /\
    Session.next_frame sys' = Session.next_frame sys.
Proof.
  intros Hs. cbv zeta.
  remember (Session.updateGame config deltaTime sys) as run eqn:Er.
  unfold Session.updateGame, Session.onSession in Er.
  unfold bind at 1 in Er. unfold Session.get at 1 in Er. rewrite Hs in Er.
  (* the new game state *)
  unfold bind at 1 in Er.
  assert (Hw : Session.world (updateGameState (Session.gameState s) deltaTime)
                 sys
               = (eval (updateGameState (Session.gameState s) deltaTime)
                       (Session.env sys),
                  snd (Session.world
                         (updateGameState (Session.gameState s) deltaTime)
                         sys))).
  { unfold Session.world, eval.
    destruct (updateGameState (Session.gameState s) deltaTime
                (Session.env sys)). reflexivity. }
  pose proof (quiet_world (updateGameState (Session.gameState s) deltaTime)
                sys) as Q1.
  rewrite Hw in Er. clear Hw.
  set (gs := eval (updateGameState (Session.gameState s) deltaTime)
                  (Session.env sys)) in *.
  set (sys1 := snd (Session.world _ sys)) in *.
  cbv zeta in Er.
  (* the clock, the spawn manager, the new objects *)
  match type of Er with
  | context [bind (Session.world Date_now) ?f sys1] =>
      destruct (bind_quiet (Session.world Date_now) f sys1
                  (quiet_world Date_now))
        as (now & sys2 & Q2 & E2)
  end.
  rewrite E2 in Er. clear E2.
  match type of Er with
  | context [bind (Session.onSpawnManager ?sm ?m) ?f sys2] =>
      destruct (bind_quiet (Session.onSpawnManager sm m) f sys2
                  (quiet_onSpawnManager sm m))
        as ([newObjects sm'] & sys3 & Q3 & E3)
  end.
  rewrite E3 in Er. clear E3.
  match type of Er with
  | context [bind (Session.mapG Session.alloc newObjects) ?f sys3] =>
      destruct (bind_quiet (Session.mapG Session.alloc newObjects) f sys3
                  (quiet_mapG _ _ quiet_alloc))
        as (newRefs & sys4 & Q4 & E4)
  end.
  rewrite E4 in Er. clear E4.
  (* the objects move, and shrink *)
  match type of Er with
  | context [bind ?m ?f sys4] =>
      assert (Qm : quiet m);
      [| destruct (bind_quiet m f sys4 Qm) as (objs1 & sys5 & Q5 & E5)]
  end.
  { destruct (negb _); [|apply quiet_ret].
    apply quiet_bind.
    - apply quiet_mapG. intros r. apply quiet_bind; [apply quiet_onHeap|].
      intros obj. apply quiet_alloc.
    - intros moved. apply quiet_onHeap. }
  rewrite E5 in Er. clear E5 Qm.
  match type of Er with
  | context [bind ?m ?f sys5] =>
      assert (Qm : quiet m);
      [| destruct (bind_quiet m f sys5 Qm) as (objs2 & sys6 & Q6 & E6)]
  end.
  { destruct (negb _); [|apply quiet_ret].
    apply quiet_mapG. intros r. apply quiet_bind; [apply quiet_onHeap|].
    intros obj. apply quiet_alloc. }
  rewrite E6 in Er. clear E6 Qm.
  assert (Q : same_frames sys sys6).
  { repeat (eapply same_frames_trans; [eassumption|]).
    apply same_frames_refl. }
  clear Q1 Q2 Q3 Q4 Q5 Q6.
  destruct Q as (Qs & Qa & Qp & Qn).
  exists objs2, sm'. subst run.
  destruct sys6 as [ss af h nr pe nf w].
  cbn [Session.session Session.animationFrameId Session.pending
       Session.next_frame] in Qs, Qa, Qp, Qn.
  rewrite <- Qa, <- Qp, <- Qn.
  destruct (isGameOver gs); destruct af as [handle|]; cbn;
    repeat split; reflexivity.
Qed.

Lemma good_clock (s : Session.GameSession) (t : Q) :
  good s -> good (Session.set_lastUpdateTime t s).
Proof. intros H. exact H. Qed.

Lemma good_countdown (s : Session.GameSession) (t : Q) :
  good s -> good (Session.set_countdownTime t s).
Proof. intros H. exact H. Qed.

(** The game starts: the state is still the initial one, with a new start
    time. *)
Lemma good_started (s : Session.GameSession) (started now : Q) :
  good s -> Session.state s = Session.COUNTDOWN ->
  good (Session.set_lastUpdateTime now
          (Session.set_gameState
             (Session.set_gameStartTime started (Session.gameState s))
             (Session.set_state Session.RUNNING s))).
Proof.
  intros (Hr & Hh & Hp & Hi & _) Hst.
  destruct (Hi (or_intror Hst)) as [w Hw].
  unfold good. cbn [Session.gameState Session.stateHash Session.isPaused
                    Session.state Session.set_lastUpdateTime
                    Session.set_gameState Session.set_state].
  assert (E : Session.set_gameStartTime started (Session.gameState s)
              = eval createInitialGameState
                     (mkWorld (fun _ => started) (random_src w))).
  { rewrite Hw. reflexivity. }
  split; [rewrite E; apply reach_init|].
  split; [rewrite Hh; reflexivity|].
  split.
  - split; [|discriminate]. intros H. apply Hp in H. congruence.
  - split; [intros [H | H]; discriminate H|]. split; discriminate.
Qed.

(** A frame of the running game. *)
Lemma good_updated (s : Session.GameSession) (deltaTime : Q) (w : World)
    (objects : list Physics.Ref) (sm : Spawn.SpawnManager) :
  good s -> Session.state s = Session.RUNNING ->
  let gs := eval (updateGameState (Session.gameState s) deltaTime) w in
  good (Session.set_stateHash (StateHash.calculateStateHash gs)
          ((if isGameOver gs then Session.set_state Session.FINISHED
            else fun x => x)
             (Session.set_objects objects
                (Session.set_spawnManager sm (Session.set_gameState gs s))))).
Proof.
  intros (Hr & Hh & Hp & Hi & _) Hst. cbv zeta.
  set (gs := eval (updateGameState (Session.gameState s) deltaTime) w).
  assert (Hgs : reachable gs) by (apply reach_tick, Hr).
  assert (Hnp : Session.isPaused s = true -> False).
  { intros H. apply Hp in H. congruence. }
  unfold good.
  destruct (isGameOver gs);
    cbn [Session.gameState Session.stateHash Session.isPaused
         Session.state Session.set_stateHash Session.set_objects
         Session.set_spawnManager Session.set_gameState Session.set_state];
    (split; [exact Hgs|]); (split; [reflexivity|]);
    rewrite ?Hst;
    (split; [split; [intros H; destruct (Hnp H) | discriminate]|]);
    (split; [intros [H | H]; discriminate H|]); split; discriminate.
Qed.

(** The frame callback on a system with a session. *)
Lemma update_run (config : Session.GameConfig) (sys : Session.Sys)
    (s : Session.GameSession) :
  Session.session sys = Some s ->
  let sys' := snd (Session.update config sys) in
  exists s',
    Session.session sys' = Some s' /\
    (Session.state s' = Session.state s \/
     Session.transition (Session.state s) (Session.state s') = true) /\
    (good s -> good s') /\
    (Session.state s = Session.PAUSED ->
     same_but_clock s s' /\ Session.heap sys' = Session.heap sys) /\
    (Session.pending sys = [] ->
     Session.pending sys'
       = (if Session.active (Session.state s')
          then [Session.next_frame sys] else []) /\
     (Session.active (Session.state s') = true ->
      Session.animationFrameId sys' = Some (Session.next_frame sys))).
Proof.
  intros Hs. cbv zeta.
  destruct sys as [ss af h nr pe nf w]. cbn [Session.session] in Hs. subst ss.
  cbn [Session.pending Session.next_frame Session.heap].
  remember (Session.state s) as st eqn:Est.
  assert (Hgen :
    forall sysB sB,
      Session.session sysB = Some sB ->
      Session.state sB = Session.RUNNING ->
      Session.animationFrameId sysB = af ->
      Session.pending sysB = pe ->
      Session.next_frame sysB = nf ->
      (st = Session.RUNNING \/ st = Session.COUNTDOWN) ->
      (good s -> good sB) ->
      forall deltaTime run,
      run = (_ <- Session.onSession (fun s0 =>
                    if Session.is_state (Session.state s0) Session.RUNNING
                       && negb (Session.isPaused s0)
                    then Session.updateGame config deltaTime else ret tt) ;;
             Session.onSession (fun s0 =>
               if Session.active (Session.state s0) then
                 handle <- Session.requestAnimationFrame ;;
                 Session.set_animationFrameId (Some handle)
               else ret tt)) sysB ->
      exists s',
        Session.session (snd run) = Some s' /\
        (Session.state s' = st \/
         Session.transition st (Session.state s') = true) /\
        (good s -> good s') /\
        (pe = [] ->
         Session.pending (snd run)
           = (if Session.active (Session.state s') then [nf] else []) /\
         (Session.active (Session.state s') = true ->
          Session.animationFrameId (snd run) = Some nf))).
  { intros sysB sB HsB HstB Haf Hpe Hnf Hfrom Hgood deltaTime run Er.
    unfold bind at 1 in Er. unfold Session.onSession at 1 in Er.
    unfold bind at 1 in Er. unfold Session.get at 1 in Er.
    rewrite HsB, HstB in Er. cbn [Session.is_state andb] in Er.
    destruct (Session.isPaused sB) eqn:Hp; cbn [negb] in Er.
    - (* paused flag set while RUNNING: nothing moves *)
      cbn [ret] in Er. unfold Session.onSession, bind, Session.get in Er.
      rewrite HsB, HstB in Er.
      cbn [Session.active Session.is_state orb] in Er.
      destruct sysB as [ssB afB hB nrB peB nfB wB].
      cbn in HsB, Haf, Hpe, Hnf. subst ssB afB peB nfB.
      cbn in Er. subst run.
      exists sB. cbn. rewrite HstB.
      split; [reflexivity|].
      split; [destruct Hfrom as [-> | ->]; [left | right]; reflexivity|].
      split; [exact Hgood|].
      intros ->. split; reflexivity.
    - destruct (updateGame_run config deltaTime sysB sB HsB)
        as (objects & sm & Hs' & Haf' & Hpe' & Hnf').
      cbv zeta in Hs', Haf', Hpe', Hnf'.
      destruct (Session.updateGame config deltaTime sysB) as [u sysC].
      cbn [snd] in Hs', Haf', Hpe', Hnf'.
      unfold Session.onSession, bind, Session.get in Er. rewrite Hs' in Er.
      match type of Hs' with
      | _ = Some ?x => set (sC := x) in *
      end.
      assert (HgC : good s -> good sC).
      { intros Hg. apply (good_updated sB deltaTime (Session.env sysB)
                            objects sm (Hgood Hg) HstB). }
      assert (HstC : Session.state sC
                     = if isGameOver
                            (eval (updateGameState (Session.gameState sB)
                                     deltaTime) (Session.env sysB))
                       then Session.FINISHED else Session.RUNNING).
      { unfold sC. destruct (isGameOver _); cbn; [reflexivity | exact HstB]. }
      destruct sysC as [ssC afC hC nrC peC nfC wC].
      cbn [Session.session Session.animationFrameId Session.pending
           Session.next_frame] in Hs', Haf', Hpe', Hnf'.
      rewrite HstC in Er.
      exists sC. rewrite HstC.
      destruct (isGameOver _); cbn in Er; subst run; cbn.
      + split; [exact Hs'|].
        split; [destruct Hfrom as [-> | ->]; right; reflexivity|].
        split; [exact HgC|].
        intros ->. rewrite Hpe', Haf, Hpe.
        split; [destruct af; reflexivity | discriminate].
      + split; [exact Hs'|].
        split; [destruct Hfrom as [-> | ->]; [left | right]; reflexivity|].
        split; [exact HgC|].
        intros ->. rewrite Hpe', Hnf', Hpe, Hnf. split; reflexivity. }
  remember (Session.update config
              (Session.mkSys (Some s) af h nr pe nf w)) as run eqn:Er.
  unfold Session.update, Session.onSession in Er.
  unfold bind at 1 in Er. unfold Session.get at 1 in Er.
  cbn [Session.session] in Er.
  unfold bind at 1 in Er. unfold Session.world at 1 in Er.
  cbn [Session.env Session.session Session.animationFrameId Session.heap
       Session.next_ref Session.pending Session.next_frame] in Er.
  destruct (Date_now w) as [t w1].
  unfold bind at 1 in Er. unfold Session.setSession at 1 in Er.
  cbn [Session.env Session.session Session.animationFrameId Session.heap
       Session.next_ref Session.pending Session.next_frame] in Er.
  cbn [Session.state Session.set_lastUpdateTime Session.countdownTime
       Session.lastUpdateTime] in Er.
  rewrite <- Est in Er.
  destruct st; cbn [Session.is_state] in Er.
  all: try (
    (* a state in which the frame does nothing *)
    unfold bind at 1 in Er; cbn [ret] in Er;
    unfold bind, Session.onSession, Session.get in Er;
    cbn in Er; repeat (rewrite <- Est in Er; cbn in Er); subst run;
    eexists; split; [reflexivity|];
    cbn; rewrite <- Est;
    split; [left; reflexivity|];
    split; [intros Hg; exact Hg|];
    split; [first [discriminate
                  | intros _; split; [eexists; reflexivity | reflexivity]]|];
    intros ->; split; first [reflexivity | discriminate]).
  - (* COUNTDOWN *)
    unfold bind at 1 in Er. unfold bind at 1 in Er.
    unfold Session.setSession at 1 in Er.
    cbn [Session.env Session.session Session.animationFrameId Session.heap
         Session.next_ref Session.pending Session.next_frame
         Session.countdownTime Session.set_countdownTime
         Session.set_lastUpdateTime] in Er.
    destruct (JS.le (Session.countdownTime s - (t - Session.lastUpdateTime s))
                    0).
    + (* the game starts in this frame *)
      unfold Session.startGame at 1 in Er.
      unfold Session.onSession at 1 in Er.
      unfold bind at 1 in Er. unfold Session.get at 1 in Er.
      cbn [Session.session Session.state Session.set_countdownTime
           Session.set_lastUpdateTime] in Er.
      rewrite <- Est in Er. cbn [Session.is_state negb] in Er.
      unfold bind at 1 in Er. unfold Session.world at 1 in Er.
      cbn [Session.env Session.session Session.animationFrameId Session.heap
           Session.next_ref Session.pending Session.next_frame] in Er.
      destruct (Date_now w1) as [t2 w2].
      unfold bind at 1 in Er. unfold Session.world at 1 in Er.
      cbn [Session.env Session.session Session.animationFrameId Session.heap
           Session.next_ref Session.pending Session.next_frame] in Er.
      destruct (Date_now w2) as [t3 w3].
      unfold Session.setSession at 1 in Er.
      cbn [Session.env Session.session Session.animationFrameId Session.heap
           Session.next_ref Session.pending Session.next_frame] in Er.
      match type of Er with
      | context [Session.mkSys (Some ?sB) af h nr pe nf w3] =>
          destruct (Hgen (Session.mkSys (Some sB) af h nr pe nf w3) sB
                      eq_refl eq_refl eq_refl eq_refl eq_refl
                      (or_intror eq_refl)
                      (fun Hg => good_started _ t2 t3
                                   (good_countdown _ _ (good_clock _ t Hg))
                                   (eq_sym Est))
                      (t - Session.lastUpdateTime s) run Er)
            as (s' & H1 & H2 & H3 & H4)
      end.
      exists s'. split; [exact H1|]. split; [exact H2|].
      split; [exact H3|]. split; [discriminate | exact H4].
    + (* still counting *)
      cbn [ret] in Er. unfold bind, Session.onSession, Session.get in Er.
      cbn in Er. repeat (rewrite <- Est in Er; cbn in Er). subst run.
      eexists. split; [reflexivity|]. cbn. rewrite <- Est.
      split; [left; reflexivity|].
      split; [intros Hg; exact Hg|].
      split; [discriminate|].
      intros ->. split; reflexivity.
  - (* RUNNING *)
    unfold bind at 1 in Er. cbn [ret] in Er.
    match type of Er with
    | context [Session.mkSys (Some ?sB) af h nr pe nf w1] =>
        destruct (Hgen (Session.mkSys (Some sB) af h nr pe nf w1) sB
                    eq_refl (eq_sym Est) eq_refl eq_refl eq_refl
                    (or_introl eq_refl)
                    (fun Hg => good_clock _ t Hg)
                    (t - Session.lastUpdateTime s) run Er)
          as (s' & H1 & H2 & H3 & H4)
    end.
    exists s'. split; [exact H1|]. split; [exact H2|].
    split; [exact H3|]. split; [discriminate | exact H4].
Qed.

(** The methods that only test the state and set fields. *)
Lemma startCountdown_run (sys : Session.Sys) (s : Session.GameSession) :
  Session.session sys = Some s ->
  let sys' := snd (Session.startCountdown sys) in
  (Session.state s <> Session.READY /\ sys' = sys) \/
  (Session.state s = Session.READY /\
   (exists t, Session.session sys'
              = Some (Session.set_lastUpdateTime t
                        (Session.set_state Session.COUNTDOWN
                           (Session.set_countdownTime 3000 s)))) /\
   Session.animationFrameId sys' = Some (Session.next_frame sys) /\
   Session.pending sys'
     = match Session.animationFrameId sys with
       | Some handle =>
           filter (fun i => negb (Pos.eqb i handle)) (Session.pending sys)
       | None => Session.pending sys
       end ++ [Session.next_frame sys] /\
   Session.heap sys' = Session.heap sys).
Proof.
  intros Hs. cbv zeta.
  destruct sys as [ss af h nr pe nf w]. cbn [Session.session] in Hs. subst ss.
  unfold Session.startCountdown, Session.onSession, bind, Session.get.
  cbn [Session.session].
  destruct (Session.state s) eqn:Est; cbn [Session.is_state negb ret snd];
    try (left; split; [discriminate | reflexivity]).
  right. split; [reflexivity|].
  unfold Session.world, Session.startGameLoop, bind, Session.get.
  cbn [Session.env]. destruct (Date_now w) as [t w1].
  destruct af as [handle|]; cbn; (split; [exists t; reflexivity|]);
    repeat split; reflexivity.
Qed.

Lemma startGame_run (sys : Session.Sys) (s : Session.GameSession) :
  Session.session sys = Some s ->
  let sys' := snd (Session.startGame sys) in
  (Session.state s <> Session.COUNTDOWN /\ sys' = sys) \/
  (Session.state s = Session.COUNTDOWN /\
   (exists started now,
      Session.session sys'
      = Some (Session.set_lastUpdateTime now
                (Session.set_gameState
                   (Session.set_gameStartTime started (Session.gameState s))
                   (Session.set_state Session.RUNNING s)))) /\
   same_queue sys sys' /\ Session.heap sys' = Session.heap sys).
Proof.
  intros Hs. cbv zeta.
  destruct sys as [ss af h nr pe nf w]. cbn [Session.session] in Hs. subst ss.
  unfold Session.startGame, Session.onSession, bind, Session.get.
  cbn [Session.session].
  destruct (Session.state s) eqn:Est; cbn [Session.is_state negb ret snd];
    try (left; split; [discriminate | reflexivity]).
  right. split; [reflexivity|].
  unfold Session.world. cbn [Session.env].
  destruct (Date_now w) as [t2 w2]. cbn [Session.env].
  destruct (Date_now w2) as [t3 w3]. cbn.
  split; [exists t2, t3; reflexivity|]. repeat split; reflexivity.
Qed.

Lemma pauseGame_run (sys : Session.Sys) (s : Session.GameSession) :
  Session.session sys = Some s ->
  let sys' := snd (Session.pauseGame sys) in
  (Session.state s <> Session.RUNNING /\ sys' = sys) \/
  (Session.state s = Session.RUNNING /\
   Session.session sys'
     = Some (Session.set_isPaused true (Session.set_state Session.PAUSED s)) /\
   same_queue sys sys' /\ Session.heap sys' = Session.heap sys).
Proof.
  intros Hs. cbv zeta.
  destruct sys as [ss af h nr pe nf w]. cbn [Session.session] in Hs. subst ss.
  unfold Session.pauseGame, Session.onSession, bind, Session.get.
  cbn [Session.session].
  destruct (Session.state s) eqn:Est; cbn [Session.is_state negb ret snd];
    try (left; split; [discriminate | reflexivity]).
  right. cbn. repeat split; reflexivity.
Qed.

Lemma resumeGame_run (sys : Session.Sys) (s : Session.GameSession) :
  Session.session sys = Some s ->
  let sys' := snd (Session.resumeGame sys) in
  (Session.state s <> Session.PAUSED /\ sys' = sys) \/
  (Session.state s = Session.PAUSED /\
   (exists now,
      Session.session sys'
      = Some (Session.set_lastUpdateTime now
                (Session.set_isPaused false
                   (Session.set_state Session.RUNNING s)))) /\
   same_queue sys sys' /\ Session.heap sys' = Session.heap sys).
Proof.
  intros Hs. cbv zeta.
  destruct sys as [ss af h nr pe nf w]. cbn [Session.session] in Hs. subst ss.
  unfold Session.resumeGame, Session.onSession, bind, Session.get.
  cbn [Session.session].
  destruct (Session.state s) eqn:Est; cbn [Session.is_state negb ret snd];
    try (left; split; [discriminate | reflexivity]).
  right. split; [reflexivity|].
  unfold Session.world. cbn [Session.env].
  destruct (Date_now w) as [t w1]. cbn.
  split; [exists t; reflexivity|]. repeat split; reflexivity.
Qed.

Lemma showSummary_run (sys : Session.Sys) (s : Session.GameSession) :
  Session.session sys = Some s ->
  let sys' := snd (Session.showSummary sys) in
  (Session.state s <> Session.FINISHED /\ sys' = sys) \/
  (Session.state s = Session.FINISHED /\
   Session.session sys' = Some (Session.set_state Session.SUMMARY s) /\
   same_queue sys sys' /\ Session.heap sys' = Session.heap sys).
Proof.
  intros Hs. cbv zeta.
  destruct sys as [ss af h nr pe nf w]. cbn [Session.session] in Hs. subst ss.
  unfold Session.showSummary, Session.onSession, bind, Session.get.
  cbn [Session.session].
  destruct (Session.state s) eqn:Est; cbn [Session.is_state negb ret snd];
    try (left; split; [discriminate | reflexivity]).
  right. cbn. repeat split; reflexivity.
Qed.

(** A tap outside the running game is refused; in the running game it is
    one step of the game logic. *)
Lemma handleTap_run (position : Physics.Vector2) (sys : Session.Sys)
    (s : Session.GameSession) :
  Session.session sys = Some s ->
  (Session.state s <> Session.RUNNING /\
   Session.handleTap position sys = (false, sys)) \/
  (Session.state s = Session.RUNNING /\
   let sys' := snd (Session.handleTap position sys) in
   exists tapTime tapResult targetId giftCardType w,
     let gs := eval (tapStep (Session.gameState s) tapResult giftCardType)
                    w in
     Session.session sys'
       = Some (Session.set_stateHash (StateHash.calculateStateHash gs)
                 (Session.set_actions
                    (Session.actions s ++ [(tapResult, tapTime)])
                    (Session.set_tapHistory
                       (Session.tapHistory s
                        ++ [Session.mkTapEvent tapTime position targetId
                                               tapResult])
                       (Session.set_gameState gs s)))) /\
     fst (Session.handleTap position sys)
       = (match tapResult with miss => false | _ => true end) /\
     same_queue sys sys').
Proof.
  intros Hs.
  destruct sys as [ss af h nr pe nf w]. cbn [Session.session] in Hs. subst ss.
  remember (Session.handleTap position
              (Session.mkSys (Some s) af h nr pe nf w)) as run eqn:Er.
  unfold Session.handleTap in Er. unfold bind at 1 in Er.
  unfold Session.get at 1 in Er. cbn [Session.session] in Er.
  destruct (Session.state s) eqn:Est; cbn [Session.is_state negb ret] in Er;
    try (left; split; [discriminate | exact Er]).
  right. split; [reflexivity|]. cbv zeta.
  unfold bind, Session.world, Session.onHeap, Session.setSession in Er.
  cbn [Session.env Session.heap Session.session Session.animationFrameId
       Session.next_ref Session.pending Session.next_frame] in Er.
  destruct (Date_now w) as [tapTime w1].
  cbn [Session.env Session.heap Session.session Session.animationFrameId
       Session.next_ref Session.pending Session.next_frame] in Er.
  destruct (Physics.resolveTap (Session.objects s) position h)
    as [[[tapResult targetId] giftCardType] h1].
  cbn [Session.env Session.heap Session.session Session.animationFrameId
       Session.next_ref Session.pending Session.next_frame] in Er.
  exists tapTime, tapResult, targetId, giftCardType, w1.
  assert (E : eval (tapStep (Session.gameState s) tapResult giftCardType) w1
              = applyTapResult (Session.gameState s)
                  (fst (processTap (Session.gameState s) tapResult
                          giftCardType w1))).
  { unfold tapStep. rewrite eval_bind. reflexivity. }
  rewrite E.
  destruct (processTap (Session.gameState s) tapResult giftCardType w1)
    as [r w2].
  cbn [fst snd ret Session.env Session.heap Session.session
       Session.animationFrameId Session.next_ref Session.pending
       Session.next_frame] in Er.
  subst run. cbn [fst snd Session.session].
  repeat split; reflexivity.
Qed.

Lemma initializeSession_run (config : Session.GameConfig)
    (sessionId : string) (seed : Q) (sys : Session.Sys) :
  let sys' := snd (Session.initializeSession config sessionId seed sys) in
  (exists s, Session.session sys' = Some s /\
             Session.state s = Session.READY /\
             Session.isPaused s = false /\
             Session.gameState s
               = eval createInitialGameState (Session.env sys) /\
             Session.stateHash s
               = StateHash.calculateStateHash (Session.gameState s)) /\
  Session.animationFrameId sys' = Session.animationFrameId sys /\
  Session.pending sys' = Session.pending sys.
Proof.
  cbv zeta. destruct sys as [ss af h nr pe nf w].
  unfold Session.initializeSession, bind, Session.world, Session.setSession.
  cbn [Session.env Session.heap Session.session Session.animationFrameId
       Session.next_ref Session.pending Session.next_frame].
  unfold eval.
  destruct (createInitialGameState w) as [gs w1].
  cbn [Session.env Session.heap Session.session Session.animationFrameId
       Session.next_ref Session.pending Session.next_frame].
  destruct (Date_now w1) as [t w2].
  cbn [fst snd Session.session Session.animationFrameId Session.pending].
  split; [|split; reflexivity].
  eexists. split; [reflexivity|].
  cbn [Session.state Session.isPaused Session.gameState Session.stateHash].
  repeat split; reflexivity.
Qed.

Lemma cleanup_run (sys : Session.Sys) :
  let sys' := snd (Session.cleanup sys) in
  Session.session sys' = None /\
  Session.pending sys'
    = match Session.animationFrameId sys with
      | Some handle =>
          filter (fun i => negb (Pos.eqb i handle)) (Session.pending sys)
      | None => Session.pending sys
      end.
Proof.
  cbv zeta. destruct sys as [ss af h nr pe nf w].
  unfold Session.cleanup, bind, Session.get.
  cbn [Session.animationFrameId].
  destruct af as [handle|]; cbn; split; reflexivity.
Qed.

(** The browser runs a frame that is pending and no other. *)
Lemma runFrame_run (config : Session.GameConfig) (handle : positive)
    (sys : Session.Sys) :
  let sys' := snd (Session.runFrame config handle sys) in
  (~ In handle (Session.pending sys) /\ sys' = sys) \/
  (In handle (Session.pending sys) /\
   sys' = snd (Session.update config
                 (Session.mkSys (Session.session sys)
                    (Session.animationFrameId sys) (Session.heap sys)
                    (Session.next_ref sys)
                    (filter (fun i => negb (Pos.eqb i handle))
                            (Session.pending sys))
                    (Session.next_frame sys) (Session.env sys)))).
Proof.
  cbv zeta.
  unfold Session.runFrame, Session.get, bind, Session.cancelAnimationFrame.
  cbv beta iota.
  destruct (existsb (Pos.eqb handle) (Session.pending sys)) eqn:E.
  - right. apply existsb_exists in E as (i & Hin & Hi).
    apply Pos.eqb_eq in Hi. subst i. split; [exact Hin | reflexivity].
  - left. split; [|reflexivity]. intros Hin.
    assert (existsb (Pos.eqb handle) (Session.pending sys) = true).
    { apply existsb_exists. exists handle. split; [exact Hin|].
      apply Pos.eqb_refl. }
    congruence.
Qed.

Lemma onSession_none (body : Session.GameSession -> Session.G unit)
    (sys : Session.Sys) :
  Session.session sys = None -> Session.onSession body sys = (tt, sys).
Proof.
  intros H. unfold Session.onSession, bind, Session.get. rewrite H.
  reflexivity.
Qed.

Lemma handleTap_none (position : Physics.Vector2) (sys : Session.Sys) :
  Session.session sys = None -> Session.handleTap position sys = (false, sys).
Proof.
  intros H. unfold Session.handleTap. unfold bind at 1. unfold Session.get.
  cbv beta iota. rewrite H. reflexivity.
Qed.

(** Without a session every event but initialisation leaves the session
    absent, and changes nothing unless it cancels or runs a frame. *)
Lemma perform_none (config : Session.GameConfig) (e : Session.Event)
    (sys : Session.Sys) :
  Session.session sys = None ->
  (forall sessionId seed, e <> Session.InitializeSession sessionId seed) ->
  let sys' := snd (Session.perform config e sys) in
  Session.session sys' = None /\
  (sys' = sys \/
   Session.pending sys'
     = match Session.animationFrameId sys with
       | Some handle =>
           filter (fun i => negb (Pos.eqb i handle)) (Session.pending sys)
       | None => Session.pending sys
       end \/
   exists handle,
     In handle (Session.pending sys) /\
     Session.pending sys'
     = filter (fun i => negb (Pos.eqb i handle)) (Session.pending sys)).
Proof.
  intros Hn He. cbv zeta.
  destruct e as [sessionId seed | | | | | position | | | handle];
    cbn [Session.perform].
  - destruct (He sessionId seed eq_refl).
  - unfold Session.startCountdown. rewrite onSession_none by exact Hn.
    split; [exact Hn | left; reflexivity].
  - unfold Session.startGame. rewrite onSession_none by exact Hn.
    split; [exact Hn | left; reflexivity].
  - unfold Session.pauseGame. rewrite onSession_none by exact Hn.
    split; [exact Hn | left; reflexivity].
  - unfold Session.resumeGame. rewrite onSession_none by exact Hn.
    split; [exact Hn | left; reflexivity].
  - unfold bind. rewrite handleTap_none by exact Hn. cbn [ret snd].
    split; [exact Hn | left; reflexivity].
  - unfold Session.showSummary. rewrite onSession_none by exact Hn.
    split; [exact Hn | left; reflexivity].
  - destruct (cleanup_run sys) as [H1 H2]. cbv zeta in H1, H2.
    split; [exact H1 | right; left; exact H2].
  - destruct (runFrame_run config handle sys) as [[_ E] | [Hin E]];
      cbv zeta in E; rewrite E.
    + split; [exact Hn | left; reflexivity].
    + unfold Session.update. rewrite onSession_none by exact Hn.
      split; [exact Hn|]. right. right. exists handle.
      split; [exact Hin | reflexivity].
Qed.

Lemma filter_out_single (handle : positive) :
  filter (fun i => negb (Pos.eqb i handle)) [handle] = [].
Proof. cbn. rewrite Pos.eqb_refl. reflexivity. Qed.

(** Cancelling the frame the manager holds empties the queue. *)
Lemma cancel_held (sys : Session.Sys) :
  (Session.pending sys = [] \/
   exists handle, Session.pending sys = [handle] /\
                  Session.animationFrameId sys = Some handle) ->
  match Session.animationFrameId sys with
  | Some handle =>
      filter (fun i => negb (Pos.eqb i handle)) (Session.pending sys)
  | None => Session.pending sys
  end = [].
Proof.
  intros [H | (handle & H & Ha)]; rewrite H.
  - destruct (Session.animationFrameId sys); reflexivity.
  - rewrite Ha. apply filter_out_single.
Qed.

Lemma frames_ok_step (config : Session.GameConfig) (e : Session.Event)
    (sys : Session.Sys) :
  frames_ok sys -> frames_ok (snd (Session.perform config e sys)).
Proof.
  intros [Hq Ha].
  destruct (Session.session sys) as [s|] eqn:Hs.
  2: { (* no session *)
    destruct e as [sessionId seed | | | | | position | | | handle].
    1: { cbn [Session.perform].
         destruct (initializeSession_run config sessionId seed sys)
           as ((s & Hs' & Hst & _) & Haf & Hpe).
         cbv zeta in Hs', Haf, Hpe. unfold frames_ok.
         rewrite Haf, Hpe. split; [exact Hq|].
         intros s0 E. rewrite Hs' in E. injection E as <-.
         rewrite Hst. discriminate. }
    all: match goal with
         | |- frames_ok (snd (Session.perform ?c ?e ?y)) =>
             destruct (perform_none c e y Hs) as [Hn Hp];
             [intros ? ?; discriminate|]
         end;
         cbv zeta in Hn, Hp;
         (destruct Hp as [Hp | [Hp | (handle' & Hin & Hp)]];
          [rewrite Hp; split;
           [exact Hq | intros s0 E; rewrite Hs in E; discriminate E] | |]);
         unfold frames_ok;
         (split; [left | intros s0 E; rewrite Hn in E; discriminate E]);
         rewrite Hp.
    all: try (apply cancel_held; exact Hq).
    all: destruct Hq as [Hq | (h0 & Hq & _)]; rewrite Hq in *;
         [destruct Hin | destruct Hin as [-> | []]; apply filter_out_single]. }
  specialize (Ha s eq_refl).
  destruct e as [sessionId seed | | | | | position | | | handle];
    cbn [Session.perform].
  - destruct (initializeSession_run config sessionId seed sys)
      as ((s1 & Hs' & Hst & _) & Haf & Hpe).
    cbv zeta in Hs', Haf, Hpe. unfold frames_ok.
    rewrite Haf, Hpe. split; [exact Hq|].
    intros s0 E. rewrite Hs' in E. injection E as <-.
    rewrite Hst. discriminate.
  - destruct (startCountdown_run sys s Hs)
      as [[_ E] | (Hst & (t & Hs') & Haf & Hpe & _)];
      cbv zeta in *.
    + rewrite E. split; [exact Hq|]. intros s0 E0.
      rewrite Hs in E0. injection E0 as <-. exact Ha.
    + unfold frames_ok. rewrite Hpe, Haf, (cancel_held sys Hq). cbn [app].
      split; [right; eexists; split; reflexivity|].
      intros _ _ _. discriminate.
  - destruct (startGame_run sys s Hs)
      as [[_ E] | (Hst & _ & (Haf & Hpe & _) & _)];
      cbv zeta in *.
    + rewrite E. split; [exact Hq|]. intros s0 E0.
      rewrite Hs in E0. injection E0 as <-. exact Ha.
    + unfold frames_ok. rewrite Hpe, Haf. split; [exact Hq|].
      intros _ _ _. apply Ha. rewrite Hst. reflexivity.
  - destruct (pauseGame_run sys s Hs)
      as [[_ E] | (Hst & _ & (Haf & Hpe & _) & _)];
      cbv zeta in *.
    + rewrite E. split; [exact Hq|]. intros s0 E0.
      rewrite Hs in E0. injection E0 as <-. exact Ha.
    + unfold frames_ok. rewrite Hpe, Haf. split; [exact Hq|].
      intros _ _ _. apply Ha. rewrite Hst. reflexivity.
  - destruct (resumeGame_run sys s Hs)
      as [[_ E] | (Hst & _ & (Haf & Hpe & _) & _)];
      cbv zeta in *.
    + rewrite E. split; [exact Hq|]. intros s0 E0.
      rewrite Hs in E0. injection E0 as <-. exact Ha.
    + unfold frames_ok. rewrite Hpe, Haf. split; [exact Hq|].
      intros _ _ _. apply Ha. rewrite Hst. reflexivity.
  - unfold bind.
    destruct (handleTap_run position sys s Hs)
      as [[_ E] | (Hst & tapTime & tapResult & targetId & card & w
                   & _ & _ & (Haf & Hpe & _))];
      cbv zeta in *.
    + rewrite E. cbn [ret snd]. split; [exact Hq|]. intros s0 E0.
      rewrite Hs in E0. injection E0 as <-. exact Ha.
    + destruct (Session.handleTap position sys) as [b sys1].
      cbn [ret snd] in *. unfold frames_ok. rewrite Hpe, Haf.
      split; [exact Hq|].
      intros _ _ _. apply Ha. rewrite Hst. reflexivity.
  - destruct (showSummary_run sys s Hs)
      as [[_ E] | (Hst & Hs' & (Haf & Hpe & _) & _)];
      cbv zeta in *.
    + rewrite E. split; [exact Hq|]. intros s0 E0.
      rewrite Hs in E0. injection E0 as <-. exact Ha.
    + unfold frames_ok. rewrite Hpe, Haf. split; [exact Hq|].
      intros s0 E0. rewrite Hs' in E0. injection E0 as <-. discriminate.
  - destruct (cleanup_run sys) as [Hn Hpe]. cbv zeta in Hn, Hpe.
    unfold frames_ok. rewrite Hpe, (cancel_held sys Hq).
    split; [left; reflexivity|].
    intros s0 E0. rewrite Hn in E0. discriminate E0.
  - destruct (runFrame_run config handle sys) as [[_ E] | [Hin E]];
      cbv zeta in E; rewrite E.
    + split; [exact Hq|]. intros s0 E0.
      rewrite Hs in E0. injection E0 as <-. exact Ha.
    + assert (Hempty : filter (fun i => negb (Pos.eqb i handle))
                              (Session.pending sys) = []).
      { destruct Hq as [Hq | (h0 & Hq & _)]; rewrite Hq in *.
        - destruct Hin.
        - destruct Hin as [-> | []]. apply filter_out_single. }
      rewrite Hempty.
      match goal with
      | |- frames_ok (snd (Session.update ?c ?sys1)) =>
          destruct (update_run c sys1 s Hs)
            as (s' & Hs' & _ & _ & _ & Hp)
      end.
      cbv zeta in Hs', Hp.
      cbn [Session.pending Session.next_frame] in Hp.
      destruct (Hp eq_refl) as [Hpe Haf].
      unfold frames_ok. rewrite Hpe.
      destruct (Session.active (Session.state s')) eqn:Hact.
      * split; [right; eexists; split; [reflexivity | apply Haf; reflexivity]|].
        intros _ _ _. discriminate.
      * split; [left; reflexivity|].
        intros s0 E0. rewrite Hs' in E0. injection E0 as <-.
        rewrite Hact. discriminate.
Qed.

(** What an event does to a session it finds: the state moves along a
    transition or stays, a good session stays good, and a paused session is
    left alone by everything but resume, initialise and clean-up. *)
Lemma perform_session (config : Session.GameConfig) (e : Session.Event)
    (sys : Session.Sys) (s : Session.GameSession) :
  Session.session sys = Some s ->
  (forall sessionId seed, e <> Session.InitializeSession sessionId seed) ->
  e <> Session.Cleanup ->
  let sys' := snd (Session.perform config e sys) in
  exists s',
    Session.session sys' = Some s' /\
    (Session.state s' = Session.state s \/
     Session.transition (Session.state s) (Session.state s') = true) /\
    (good s -> good s') /\
    (Session.state s = Session.PAUSED -> e <> Session.ResumeGame ->
     (s' = s \/ same_but_clock s s') /\
     Session.heap sys' = Session.heap sys).
Proof.
  intros Hs Hi Hc. cbv zeta.
  destruct e as [sessionId seed | | | | | position | | | handle];
    cbn [Session.perform].
  - destruct (Hi sessionId seed eq_refl).
  - destruct (startCountdown_run sys s Hs)
      as [[_ E] | (Hst & (t & Hs') & _ & _ & Hh)];
      cbv zeta in *.
    + rewrite E. exists s. split; [exact Hs|]. split; [left; reflexivity|].
      split; [tauto|]. intros _ _. split; [left|]; reflexivity.
    + eexists. split; [exact Hs'|]. cbn. rewrite Hst.
      split; [right; reflexivity|].
      split; [|intros H; discriminate H].
      intros (Hr & Hh' & Hp & Hin & _). unfold good. cbn.
      split; [exact Hr|]. split; [exact Hh'|].
      split.
      * split; [|discriminate]. intros H. apply Hp in H. congruence.
      * split; [intros _; apply Hin; left; exact Hst|].
        split; discriminate.
  - destruct (startGame_run sys s Hs)
      as [[_ E] | (Hst & (t2 & t3 & Hs') & _ & Hh)];
      cbv zeta in *.
    + rewrite E. exists s. split; [exact Hs|]. split; [left; reflexivity|].
      split; [tauto|]. intros _ _. split; [left|]; reflexivity.
    + eexists. split; [exact Hs'|]. cbn. rewrite Hst.
      split; [right; reflexivity|].
      split; [|intros H; discriminate H].
      intros Hg. apply good_started; assumption.
  - destruct (pauseGame_run sys s Hs)
      as [[_ E] | (Hst & Hs' & _ & Hh)];
      cbv zeta in *.
    + rewrite E. exists s. split; [exact Hs|]. split; [left; reflexivity|].
      split; [tauto|]. intros _ _. split; [left|]; reflexivity.
    + eexists. split; [exact Hs'|]. cbn. rewrite Hst.
      split; [right; reflexivity|].
      split; [|intros H; discriminate H].
      intros (Hr & Hh' & Hp & Hin & _). unfold good. cbn.
      split; [exact Hr|]. split; [exact Hh'|].
      split; [split; reflexivity|].
      split; [intros [H | H]; discriminate H|]. split; discriminate.
  - destruct (resumeGame_run sys s Hs)
      as [[_ E] | (Hst & (t & Hs') & _ & Hh)];
      cbv zeta in *.
    + rewrite E. exists s. split; [exact Hs|]. split; [left; reflexivity|].
      split; [tauto|]. intros _ _. split; [left|]; reflexivity.
    + eexists. split; [exact Hs'|]. cbn. rewrite Hst.
      split; [right; reflexivity|].
      split; [|intros _ H; destruct (H eq_refl)].
      intros (Hr & Hh' & Hp & Hin & _). unfold good. cbn.
      split; [exact Hr|]. split; [exact Hh'|].
      split; [split; discriminate|].
      split; [intros [H | H]; discriminate H|]. split; discriminate.
  - unfold bind.
    destruct (handleTap_run position sys s Hs)
      as [[_ E] | (Hst & tapTime & tapResult & targetId & card & w
                   & Hs' & _ & _)];
      cbv zeta in *.
    + rewrite E. cbn [ret snd]. exists s. split; [exact Hs|].
      split; [left; reflexivity|].
      split; [tauto|]. intros _ _. split; [left|]; reflexivity.
    + destruct (Session.handleTap position sys) as [b sys1].
      cbn [ret snd] in *.
      eexists. split; [exact Hs'|]. cbn. rewrite Hst.
      split; [left; reflexivity|].
      split; [|intros H; discriminate H].
      intros (Hr & Hh' & Hp & Hin & _). unfold good. cbn. rewrite Hst.
      split; [apply reach_tap, Hr|]. split; [reflexivity|].
      split; [rewrite Hst in Hp; exact Hp|].
      split; [intros [H | H]; discriminate H|]. split; discriminate.
  - destruct (showSummary_run sys s Hs)
      as [[_ E] | (Hst & Hs' & _ & Hh)];
      cbv zeta in *.
    + rewrite E. exists s. split; [exact Hs|]. split; [left; reflexivity|].
      split; [tauto|]. intros _ _. split; [left|]; reflexivity.
    + eexists. split; [exact Hs'|]. cbn. rewrite Hst.
      split; [right; reflexivity|].
      split; [|intros H; discriminate H].
      intros (Hr & Hh' & Hp & Hin & _). unfold good. cbn.
      split; [exact Hr|]. split; [exact Hh'|].
      split.
      * split; [|discriminate]. intros H. apply Hp in H. congruence.
      * split; [intros [H | H]; discriminate H|]. split; discriminate.
  - destruct (Hc eq_refl).
  - destruct (runFrame_run config handle sys) as [[_ E] | [Hin E]];
      cbv zeta in E; rewrite E.
    + exists s. split; [exact Hs|]. split; [left; reflexivity|].
      split; [tauto|]. intros _ _. split; [left|]; reflexivity.
    + match goal with
      | |- context [Session.update ?c ?sys1] =>
          destruct (update_run c sys1 s Hs)
            as (s' & Hs' & Ht & Hg & Hp & _)
      end.
      cbv zeta in Hs', Hp. cbn [Session.heap] in Hp.
      exists s'. split; [exact Hs'|]. split; [exact Ht|].
      split; [exact Hg|].
      intros Hst _. destruct (Hp Hst) as [H1 H2].
      split; [right; exact H1 | exact H2].
Qed.

Lemma session_ok_step (config : Session.GameConfig) (e : Session.Event)
    (sys : Session.Sys) :
  session_ok sys -> session_ok (snd (Session.perform config e sys)).
Proof.
  intros Hok s' Hs'.
  destruct e as [sessionId seed | | | | | position | | | handle] eqn:Ee.
  1: { cbn [Session.perform] in Hs'.
       destruct (initializeSession_run config sessionId seed sys)
         as ((s1 & H1 & Hst & Hp & Hgs & Hh) & _).
       cbv zeta in H1. rewrite H1 in Hs'. injection Hs' as <-.
       unfold good. rewrite Hst, Hp, Hgs.
       split; [apply reach_init|]. split; [rewrite Hh, Hgs; reflexivity|].
       split; [split; discriminate|].
       split; [intros _; eexists; reflexivity|]. split; discriminate. }
  7: { destruct (cleanup_run sys) as [Hn _]. cbv zeta in Hn.
       cbn [Session.perform] in Hs'. rewrite Hn in Hs'. discriminate Hs'. }
  all: destruct (Session.session sys) as [s|] eqn:Hs;
    [ match type of Hs' with
      | Session.session (snd (Session.perform ?c ?ev ?y)) = _ =>
          destruct (perform_session c ev y s Hs)
            as (s1 & H1 & _ & Hg & _);
          [intros ? ?; discriminate | discriminate |];
          cbv zeta in H1; rewrite H1 in Hs'; injection Hs' as <-;
          apply Hg, Hok, Hs
      end
    | match type of Hs' with
      | Session.session (snd (Session.perform ?c ?ev ?y)) = _ =>
          destruct (perform_none c ev y Hs) as [Hn _];
          [intros ? ?; discriminate|];
          cbv zeta in Hn; rewrite Hn in Hs'; discriminate Hs'
      end ].
Qed.

(** X28: while a game is in progress exactly one frame callback is
    pending.  In every state a manager can get into, the browser holds at
    most one pending frame callback of the manager, which is the one whose
    handle the manager keeps, and it holds one whenever the session is in
    COUNTDOWN, RUNNING or PAUSED: the loop never runs twice per frame and
    never dies before the game has finished. *)
Theorem game_loop_single_frame (config : Session.GameConfig)
    (sys : Session.Sys) :
  Session.reachable config sys ->
  (Session.pending sys = [] \/
   exists handle, Session.pending sys = [handle] /\
                  Session.animationFrameId sys = Some handle) /\
  (forall s, Session.session sys = Some s ->
             Session.active (Session.state s) = true ->
             exists handle, Session.pending sys = [handle]).
Proof.
  intros Hr.
  assert (H : frames_ok sys).
  { induction Hr as [h w | sys e Hr IH].
    - split; [left; reflexivity|]. intros s E. discriminate E.
    - apply frames_ok_step, IH. }
  destruct H as [Hq Ha]. split; [exact Hq|].
  intros s Hs Hact. specialize (Ha s Hs Hact).
  destruct Hq as [Hq | (handle & Hq & _)]; [contradiction|].
  exists handle. exact Hq.
Qed.

Lemma game_loop_single_frame_witness :
  let config := Session.mkGameConfig 800 600 (Physics.mkVector2 60 60) in
  let w := mkWorld (fun _ => 0) (fun _ => EmptyString) in
  let h : Physics.Heap :=
    fun _ => Physics.mkGameObject EmptyString Physics.logo
               (Physics.mkVector2 0 0) (Physics.mkVector2 0 0)
               (Physics.mkVector2 0 0) (Physics.mkAABB 0 0 0 0) 0 false None in
  let sys :=
    snd (Session.perform config Session.StartCountdown
           (snd (Session.perform config
                   (Session.InitializeSession "s"%string 1)
                   (Session.new_GameStateManager h w)))) in
  Session.pending sys = [] \/
  exists handle, Session.pending sys = [handle] /\
                 Session.animationFrameId sys = Some handle.
Proof.
  cbv zeta.
  apply (game_loop_single_frame
           (Session.mkGameConfig 800 600 (Physics.mkVector2 60 60))).
  apply Session.reach_event, Session.reach_event, Session.reach_new.
Defined.

(** X29: the session the manager holds is always consistent with the game
    logic.  In every state a manager can get into, the session's game
    state is one reachable from the initial state by taps and frame
    updates, the stored state hash is the hash of that game state, the
    pause flag is set exactly in the PAUSED state, in READY and COUNTDOWN
    the game state is still the initial one, and the states IDLE and
    AUTH_CHECK never occur. *)
Theorem session_game_state_consistent (config : Session.GameConfig)
    (sys : Session.Sys) (s : Session.GameSession) :
  Session.reachable config sys ->
  Session.session sys = Some s ->
  reachable (Session.gameState s) /\
  Session.stateHash s = StateHash.calculateStateHash (Session.gameState s) /\
  (Session.isPaused s = true <-> Session.state s = Session.PAUSED) /\
  (Session.state s = Session.READY \/ Session.state s = Session.COUNTDOWN ->
   exists w, Session.gameState s = eval createInitialGameState w) /\
  Session.state s <> Session.IDLE /\ Session.state s <> Session.AUTH_CHECK.
Proof.
  intros Hr Hs.
  assert (H : session_ok sys).
  { clear s Hs. induction Hr as [h w | sys e Hr IH].
    - intros s E. discriminate E.
    - apply session_ok_step, IH. }
  exact (H s Hs).
Qed.

Lemma session_game_state_consistent_witness :
  let config := Session.mkGameConfig 800 600 (Physics.mkVector2 60 60) in
  let w := mkWorld (fun _ => 0) (fun _ => EmptyString) in
  let h : Physics.Heap :=
    fun _ => Physics.mkGameObject EmptyString Physics.logo
               (Physics.mkVector2 0 0) (Physics.mkVector2 0 0)
               (Physics.mkVector2 0 0) (Physics.mkAABB 0 0 0 0) 0 false None in
  let sys :=
    snd (Session.perform config (Session.InitializeSession "s"%string 1)
           (Session.new_GameStateManager h w)) in
  match Session.session sys with
  | Some s => Session.state s <> Session.IDLE
  | None => True
  end.
Proof.
  cbv zeta.
  destruct (Session.session
              (snd (Session.perform
                      (Session.mkGameConfig 800 600 (Physics.mkVector2 60 60))
                      (Session.InitializeSession "s"%string 1)
                      (Session.new_GameStateManager _ _)))) as [s|] eqn:Hs;
    [|exact I].
  apply (session_game_state_consistent _ _ s
           (Session.reach_event _ _ _ (Session.reach_new _ _ _)) Hs).
Defined.

(** X30: under every event but initialise and clean-up the session state
    stays or moves along READY -> COUNTDOWN -> RUNNING <-> PAUSED,
    RUNNING -> FINISHED -> SUMMARY or COUNTDOWN -> FINISHED (a single frame
    that ends the countdown also runs the game for the time that frame
    took, which can end it).  A tap outside RUNNING is refused and changes
    nothing; while PAUSED every such event but resume leaves the session as
    it is except for the time of the last update, and the objects
    untouched. *)
Theorem session_transitions (config : Session.GameConfig)
    (e : Session.Event) (sys : Session.Sys) (s : Session.GameSession) :
  Session.session sys = Some s ->
  (forall sessionId seed, e <> Session.InitializeSession sessionId seed) ->
  e <> Session.Cleanup ->
  let sys' := snd (Session.perform config e sys) in
  (exists s',
     Session.session sys' = Some s' /\
     (Session.state s' = Session.state s \/
      Session.transition (Session.state s) (Session.state s') = true) /\
     (Session.state s = Session.PAUSED -> e <> Session.ResumeGame ->
      (s' = s \/ same_but_clock s s') /\
      Session.heap sys' = Session.heap sys)) /\
  (forall position,
     Session.state s <> Session.RUNNING ->
     Session.handleTap position sys = (false, sys)).
Proof.
  intros Hs Hi Hc. cbv zeta. split.
  - destruct (perform_session config e sys s Hs Hi Hc)
      as (s' & H1 & H2 & _ & H3).
    exists s'. split; [exact H1|]. split; [exact H2 | exact H3].
  - intros position Hst.
    destruct (handleTap_run position sys s Hs) as [[_ E] | [E _]];
      [exact E | contradiction].
Qed.

Lemma session_transitions_witness :
  let w := mkWorld (fun _ => 0) (fun _ => EmptyString) in
  let h : Physics.Heap :=
    fun _ => Physics.mkGameObject EmptyString Physics.logo
               (Physics.mkVector2 0 0) (Physics.mkVector2 0 0)
               (Physics.mkVector2 0 0) (Physics.mkAABB 0 0 0 0) 0 false None in
  let s :=
    Session.mkGameSession "s"%string 1 Session.PAUSED
      (eval createInitialGameState w) []
      (Spawn.mkSpawnManager 1
         (Spawn.mkSpawnConfig 800 600 (Physics.mkVector2 60 60) 100 1.5) 0 0)
      0 3000 true [] [] EmptyString in
  let sys := Session.mkSys (Some s) None h 0%nat [] 1%positive w in
  Session.handleTap (Physics.mkVector2 1 1) sys = (false, sys).
Proof.
  cbv zeta.
  match goal with
  | |- Session.handleTap ?p ?y = _ =>
      match y with
      | Session.mkSys (Some ?s0) _ _ _ _ _ _ =>
          destruct (session_transitions
                      (Session.mkGameConfig 800 600 (Physics.mkVector2 60 60))
                      Session.PauseGame y s0 eq_refl) as [_ H];
          [intros ? ?; discriminate | discriminate |];
          apply H; discriminate
      end
  end.
Defined.
